(** * voxaudio: a shallow embedding of the duplex audio relay

    The Go sources embedded here are [portaudio.go] (driver lifecycle
    guard), [utils.go], the capture recorder ([LoopbackRecorder]),
    [output_capture.go] ([OutputCaptureRecorder], [AudioBuffer]) and the
    session file ([Session], the WAV writer, the send loop, the receive
    loop [localTrack] and the redirect loop [blackHoleTrack]).

    Conventions.
    - Go integers are [Z] with the wrap-around of their width written out.
    - Bytes are [Z] in [0, 256); byte slices are [list Z].
    - Go strings are [string]; they are byte sequences, as in Go.
    - A Go function that returns [error] and mutates its receiver is a
      function from the state to the new state and a [result]. *)

From Stdlib Require Import ZArith Lia Bool Ascii String.
From Stdlib Require Import Floats.SpecFloat.
From stdpp Require Import base list strings.

Local Open Scope Z_scope.

(** ** Go machine integers *)

Module GoInt.

(** Unsigned conversion [uintN(x)]: the low [w] bits. *)
Definition to_unsigned (w : Z) (x : Z) : Z := x mod 2 ^ w.

(** Signed conversion [intN(x)]: the low [w] bits, read in two's complement. *)
Definition to_signed (w : Z) (x : Z) : Z :=
  (x + 2 ^ (w - 1)) mod 2 ^ w - 2 ^ (w - 1).

Definition uint16 := to_unsigned 16.
Definition uint32 := to_unsigned 32.
Definition int16 := to_signed 16.
Definition int64 := to_signed 64.
(** [int] is 64 bits wide on every platform the repository targets. *)
Definition int := to_signed 64.

(** [byte(x)] for an integer [x]: the low eight bits. *)
Definition byte (x : Z) : Z := Z.land x 255.

Definition mul (a b : Z) : Z := int (a * b).
Definition add (a b : Z) : Z := int (a + b).
Definition sub (a b : Z) : Z := int (a - b).
(** Go's [/] truncates toward zero. *)
Definition div (a b : Z) : Z := int (Z.quot a b).

Definition max_int : Z := 2 ^ 63 - 1.

End GoInt.

(** ** Errors and results *)

Inductive error : Type :=
  | EOF                       (* io.EOF *)
  | ErrClosed                 (* os.ErrClosed: file already closed *)
  | ErrInvalid                (* os.ErrInvalid *)
  | errorString (msg : string) (* errors.New / fmt.Errorf *)
  | wrapError (msg : string) (inner : error). (* fmt.Errorf with %w *)

(** What a call produces: a value, a returned [error], or a run-time panic. *)
Inductive result (A : Type) : Type :=
  | Ok (a : A)
  | Err (e : error)
  | Panic (msg : string).
Arguments Ok {A} a.
Arguments Err {A} e.
Arguments Panic {A} msg.

Definition is_ok {A} (r : result A) : bool :=
  match r with Ok _ => true | _ => false end.

Definition is_panic {A} (r : result A) : bool :=
  match r with Panic _ => true | _ => false end.

(** A Go method with a pointer receiver of type [S]: it may update the
    receiver even when it returns an error. *)
Definition M (S A : Type) : Type := S -> S * result A.

Definition ret {S A} (a : A) : M S A := fun s => (s, Ok a).
Definition fail {S A} (e : error) : M S A := fun s => (s, Err e).
Definition bind {S A B} (m : M S A) (k : A -> M S B) : M S B :=
  fun s => match m s with
           | (s', Ok a) => k a s'
           | (s', Err e) => (s', Err e)
           | (s', Panic msg) => (s', Panic msg)
           end.

Notation "'let*' x ':=' m 'in' k" := (bind m (fun x => k))
  (at level 10, x name, m at level 100, k at level 200).
Notation "'do*' m 'in' k" := (bind m (fun _ => k))
  (at level 10, m at level 100, k at level 200).

(** ** Byte slices *)

(** [len(b)] as a Go [int]. *)
Definition len {A} (l : list A) : Z := Z.of_nat (length l).

(** [[]byte(s)]: the bytes of a Go string. *)
Definition bytes_of_string (s : string) : list Z :=
  map (fun c => Z.of_N (N_of_ascii c)) (list_ascii_of_string s).

(** [binary.LittleEndian]: the [n] low bytes of [v], least significant first. *)
Fixpoint le_bytes (n : nat) (v : Z) : list Z :=
  match n with
  | O => []
  | S n' => GoInt.byte v :: le_bytes n' (Z.shiftr v 8)
  end.

(** The unsigned integer a little-endian byte string denotes. *)
Fixpoint le_value (bs : list Z) : Z :=
  match bs with
  | [] => 0
  | b :: bs' => b + 256 * le_value bs'
  end.

(** The unsigned 32-bit little-endian field of [data] at byte offset [off]. *)
Definition field32 (data : list Z) (off : nat) : Z :=
  le_value (take 4 (drop off data)).

(** ** Files ([os.File]) *)

Module os.

(** An open file is its contents and the offset of the next read or write. *)
Record File : Type := mkFile {
  contents : list Z;
  offset : Z;
  closed : bool
}.

(** [os.Create] truncates: the new file is empty, positioned at 0. *)
Definition Create : File := mkFile [] 0 false.

(** Writing [bs] at offset [off]: bytes past the end extend the file, a gap
    between the old end and [off] reads as zeros. *)
Definition pwrite (data : list Z) (off : nat) (bs : list Z) : list Z :=
  take off data ++ replicate (off - length data) 0
    ++ bs ++ drop (off + length bs) data.

(** [File.Write]: returns the number of bytes written. *)
Definition Write (bs : list Z) : M File Z := fun f =>
  if closed f then (f, Err ErrClosed)
  else (mkFile (pwrite (contents f) (Z.to_nat (offset f)) bs)
               (offset f + len bs) false,
        Ok (len bs)).

Definition WriteString (s : string) : M File Z := Write (bytes_of_string s).

(** [File.Seek(offset, whence)]: whence 0 is the start of the file,
    1 the current offset, 2 the end. *)
Definition Seek (off whence : Z) : M File Z := fun f =>
  if closed f then (f, Err ErrClosed)
  else
    let target :=
      if whence =? 0 then off
      else if whence =? 1 then offset f + off
      else if whence =? 2 then len (contents f) + off
      else -1 in
    if target <? 0 then (f, Err ErrInvalid)
    else (mkFile (contents f) target false, Ok target).

Definition Close : M File unit := fun f =>
  if closed f then (f, Err ErrClosed)
  else (mkFile (contents f) (offset f) true, Ok tt).

End os.

(** [binary.Write(file, binary.LittleEndian, v)] for a [v] of [n] bytes. *)
Definition binary_Write (n : nat) (v : Z) : M os.File unit :=
  let* _ := os.Write (le_bytes n v) in ret tt.

(** ** The WAV writer *)

(** Write WAV file header. *)
Definition writeWavHeader (sampleRate numChannels bitsPerSample : Z)
  : M os.File unit :=
  (* RIFF header *)
  let* _ := os.WriteString "RIFF" in
  (* File size (will be updated before closing file) *)
  do* binary_Write 4 (GoInt.uint32 0) in
  (* WAVE format *)
  let* _ := os.WriteString "WAVE" in
  (* fmt subchunk *)
  let* _ := os.WriteString "fmt " in
  (* Subchunk1 size *)
  do* binary_Write 4 (GoInt.uint32 16) in
  (* Audio format (PCM=1) *)
  do* binary_Write 2 (GoInt.uint16 1) in
  (* Number of channels *)
  do* binary_Write 2 (GoInt.uint16 numChannels) in
  (* Sample rate *)
  do* binary_Write 4 (GoInt.uint32 sampleRate) in
  (* Byte rate = SampleRate * NumChannels * BitsPerSample/8 *)
  do* binary_Write 4
      (GoInt.uint32
         (GoInt.div (GoInt.mul (GoInt.mul sampleRate numChannels) bitsPerSample) 8)) in
  (* Block alignment = NumChannels * BitsPerSample/8 *)
  do* binary_Write 2
      (GoInt.uint16 (GoInt.div (GoInt.mul numChannels bitsPerSample) 8)) in
  (* Bit depth *)
  do* binary_Write 2 (GoInt.uint16 bitsPerSample) in
  (* Data subchunk *)
  let* _ := os.WriteString "data" in
  (* Subchunk2 size (will be updated before closing file) *)
  do* binary_Write 4 (GoInt.uint32 0) in
  ret tt.

(** Update WAV file header with size information; [dataSize] is an [int64]. *)
Definition updateWavHeader (dataSize : Z) : M os.File unit :=
  (* Update data subchunk size *)
  let* _ := os.Seek 40 0 in
  do* binary_Write 4 (GoInt.uint32 dataSize) in
  (* Update RIFF chunk size (file total size minus 8-byte RIFF header) *)
  let* _ := os.Seek 4 0 in
  do* binary_Write 4 (GoInt.uint32 (GoInt.int64 (dataSize + 36))) in
  ret tt.


(** ** Strings *)

(** [s[lo:hi]] on the bytes of a string. *)
Definition slice {A} (s : list A) (lo hi : Z) : list A :=
  take (Z.to_nat (hi - lo)) (drop (Z.to_nat lo) s).

Definition bytes_eqb (a b : list ascii) : bool :=
  bool_decide (a = b).

(** The loop of [contains]: [i] runs from its current value while
    [i <= len(s)-len(substr)]; [fuel] bounds the iterations. *)
Fixpoint contains_loop (fuel : nat) (s substr : list ascii) (i : Z) : bool :=
  match fuel with
  | O => false
  | S fuel' =>
      if i <=? GoInt.sub (len s) (len substr) then
        if bytes_eqb (slice s i (i + len substr)) substr then true
        else contains_loop fuel' s substr (i + 1)
      else false
  end.

(** Helper function: Check if string contains substring. *)
Definition contains (s substr : string) : bool :=
  let s' := list_ascii_of_string s in
  contains_loop (S (length s')) s' (list_ascii_of_string substr) 0.

(** [strings.HasPrefix] and [strings.Contains] of the Go library. *)
Fixpoint has_prefix (s p : list ascii) : bool :=
  match p, s with
  | [], _ => true
  | _ :: _, [] => false
  | c :: p', d :: s' => bool_decide (c = d) && has_prefix s' p'
  end.

Fixpoint contains_at_some_suffix (s p : list ascii) : bool :=
  has_prefix s p ||
  match s with
  | [] => false
  | _ :: s' => contains_at_some_suffix s' p
  end.

Definition strings_Contains (s substr : string) : bool :=
  contains_at_some_suffix (list_ascii_of_string s) (list_ascii_of_string substr).

(** [err.Error()]. *)
Fixpoint error_message (e : error) : string :=
  match e with
  | EOF => "EOF"
  | ErrClosed => "file already closed"
  | ErrInvalid => "invalid argument"
  | errorString msg => msg
  | wrapError msg inner => msg ++ ": " ++ error_message inner
  end.

(** ** Driver lifecycle guard ([portaudio.go]) *)

(** A call that reached the physical driver. *)
Inductive PaCall : Type :=
  | PaInitialize (ok : bool)   (* portaudio.Initialize(), and whether it succeeded *)
  | PaTerminate.               (* portaudio.Terminate() *)

#[global] Instance PaCall_eq_dec : EqDecision PaCall.
Proof. solve_decision. Defined.

(** The package-level variables, and the calls made to the driver so far
    (oldest first). [paInitMutex] makes each function below atomic. *)
Record Driver : Type := mkDriver {
  paInitCount : Z;
  paCalls : list PaCall
}.

(** The state of a freshly started process. *)
Definition Driver0 : Driver := mkDriver 0 [].

(** Safely initialize PortAudio, only actually initializes on first call.
    [initialize] is what [portaudio.Initialize()] returns if it is called. *)
Definition SafePortAudioInit (initialize : result unit) : M Driver unit := fun d =>
  if paInitCount d =? 0 then
    match initialize with
    | Ok _ =>
        (mkDriver (GoInt.add (paInitCount d) 1) (paCalls d ++ [PaInitialize true]), Ok tt)
    | Err e =>
        (mkDriver (paInitCount d) (paCalls d ++ [PaInitialize false]),
         Err (wrapError "portaudio initialization failed" e))
    | Panic msg =>
        (mkDriver (paInitCount d) (paCalls d ++ [PaInitialize false]), Panic msg)
    end
  else (mkDriver (GoInt.add (paInitCount d) 1) (paCalls d), Ok tt).

(** Safely terminate PortAudio, only actually terminates when last user calls. *)
Definition SafePortAudioTerminate (d : Driver) : Driver :=
  let count := GoInt.sub (paInitCount d) 1 in
  if count <=? 0 then
    (* portaudio.Terminate(); paInitCount = 0: ensure it doesn't become negative *)
    mkDriver 0 (paCalls d ++ [PaTerminate])
  else mkDriver count (paCalls d).

Definition count_initializes (cs : list PaCall) : nat :=
  length (filter (fun c => c = PaInitialize true) cs).

Definition count_terminates (cs : list PaCall) : nat :=
  length (filter (fun c => c = PaTerminate) cs).

(** ** Channels *)

Definition float32 : Type := spec_float.
Definition float64 : Type := spec_float.

(** A buffered channel [make(chan A, capacity)]. *)
Record Chan (A : Type) : Type := mkChan {
  queue : list A;
  capacity : nat;
  chanClosed : bool
}.
Arguments mkChan {A} queue capacity chanClosed.
Arguments queue {A} c.
Arguments capacity {A} c.
Arguments chanClosed {A} c.

Definition make_chan (A : Type) (cap : nat) : Chan A := mkChan [] cap false.

Definition chan_full {A} (ch : Chan A) : bool :=
  negb (length (queue ch) <? capacity ch)%nat.

(** [close(ch)]: closing a closed channel panics. *)
Definition close {A} : M (Chan A) unit := fun ch =>
  if chanClosed ch then (ch, Panic "close of closed channel")
  else (mkChan (queue ch) (capacity ch) true, Ok tt).

(** How an attempt to send ends for the sending goroutine. *)
Inductive Offer : Type :=
  | Delivered   (* the value is in the channel *)
  | Dropped     (* the [default] branch of a [select] ran instead *)
  | Blocked.    (* the goroutine is parked until a receiver makes room *)

(** The statement [ch <- v]. *)
Definition send {A} (v : A) : M (Chan A) Offer := fun ch =>
  if chanClosed ch then (ch, Panic "send on closed channel")
  else if chan_full ch then (ch, Ok Blocked)
  else (mkChan (queue ch ++ [v]) (capacity ch) false, Ok Delivered).

(** The statement [select { case ch <- v: default: }]. *)
Definition select_send_default {A} (v : A) : M (Chan A) Offer := fun ch =>
  if chanClosed ch then (ch, Panic "send on closed channel")
  else if chan_full ch then (ch, Ok Dropped)
  else (mkChan (queue ch ++ [v]) (capacity ch) false, Ok Delivered).

(** What [v, ok := <-ch] finds. *)
Inductive Recv (A : Type) : Type :=
  | RecvValue (v : A)   (* ok = true *)
  | RecvClosed          (* ok = false: closed and drained *)
  | RecvBlocks.         (* empty and open *)
Arguments RecvValue {A} v.
Arguments RecvClosed {A}.
Arguments RecvBlocks {A}.

Definition recv {A} (ch : Chan A) : Chan A * Recv A :=
  match queue ch with
  | v :: rest => (mkChan rest (capacity ch) (chanClosed ch), RecvValue v)
  | [] => (ch, if chanClosed ch then RecvClosed else RecvBlocks)
  end.

(** [copy(dst, src)]: the new [dst]. *)
Definition go_copy {A} (dst src : list A) : list A :=
  let n := Nat.min (length dst) (length src) in
  take n src ++ drop n dst.

(** ** Device catalog ([portaudio.DeviceInfo], [portaudio.HostApiInfo]) *)

Record DeviceInfo : Type := mkDevice {
  Index : Z;
  Name : string;
  MaxInputChannels : Z;
  MaxOutputChannels : Z;
  DefaultSampleRate : float64
}.

Record HostApiInfo : Type := mkHostApi {
  ApiName : string;
  DefaultInputDevice : option DeviceInfo;
  DefaultOutputDevice : option DeviceInfo;
  Devices : list DeviceInfo
}.

(** What the driver answers during one call of [Start]. *)
Record Host : Type := mkHost {
  HostApis : result (list HostApiInfo);     (* portaudio.HostApis() *)
  DefaultHostApi : result HostApiInfo;      (* portaudio.DefaultHostApi() *)
  OpenStream : result unit;                 (* portaudio.OpenStream(params, callback) *)
  StreamStart : result unit                 (* stream.Start() *)
}.

Inductive StreamState : Type := StreamOpen | StreamStarted | StreamClosed.

Record Stream : Type := mkStream {
  streamDevice : DeviceInfo;
  streamChannels : Z;
  streamLowLatency : bool;
  streamFramesPerBuffer : option Z;
  streamState : StreamState
}.

(** The inner loop [for _, dev := range api.Devices { if p(dev) { selected = dev; break } }]. *)
Fixpoint scan_devices (p : DeviceInfo -> bool) (devs : list DeviceInfo)
    (selected : option DeviceInfo) : option DeviceInfo :=
  match devs with
  | [] => selected
  | dev :: rest => if p dev then Some dev else scan_devices p rest selected
  end.

(** The outer loop [for _, api := range apis { ...; if selected != nil { break } }]. *)
Fixpoint scan_apis (p : DeviceInfo -> bool) (apis : list HostApiInfo)
    (selected : option DeviceInfo) : option DeviceInfo :=
  match apis with
  | [] => selected
  | api :: rest =>
      let selected := scan_devices p (Devices api) selected in
      match selected with
      | Some _ => selected
      | None => scan_apis p rest selected
      end
  end.

(** Every device in enumeration order. *)
Definition all_devices (apis : list HostApiInfo) : list DeviceInfo :=
  concat (map Devices apis).

(** ** The capture recorder ([LoopbackRecorder]) *)

Module LoopbackRecorder.

(** LoopbackRecorder captures audio samples from specified loopback device. *)
Record t : Type := mk {
  stream : option Stream;
  Samples : Chan (list float32);
  isClosed : bool
}.

(** NewLoopbackRecorder initializes PortAudio and returns an instance. *)
Definition New (initialize : result unit) (d : Driver) : Driver * result t :=
  match SafePortAudioInit initialize d with
  | (d', Ok _) => (d', Ok (mk None (make_chan (list float32) 1024) false))
  | (d', Err e) => (d', Err e)
  | (d', Panic msg) => (d', Panic msg)
  end.

(** Lines 51-84 of [Start]: the device the two matching passes leave in
    [selected]. *)
Definition selectDevice (apis : list HostApiInfo) (deviceName : string)
  : option DeviceInfo :=
  let selected : option DeviceInfo := None in
  (* Exact device name match *)
  let selected :=
    scan_apis (fun dev => (MaxInputChannels dev >? 0)
                          && bool_decide (Name dev = deviceName)) apis selected in
  (* If no exact match found, try partial match *)
  if bool_decide (selected = None) && negb (bool_decide (deviceName = ""%string)) then
    scan_apis (fun dev => (MaxInputChannels dev >? 0)
                          && contains (Name dev) deviceName) apis selected
  else selected.

(** Start opens loopback input stream based on device name and begins capture. *)
Definition Start (host : Host) (deviceName : string) : M t unit := fun r =>
  match HostApis host with
  | Err e => (r, Err e)
  | Panic msg => (r, Panic msg)
  | Ok apis =>
      match selectDevice apis deviceName with
      | None =>
          (* If device still not found, return error *)
          (r, Err (errorString ("specified input device not found: " ++ deviceName)))
      | Some selected =>
          let framesPerBuffer := 512 in
          let st := mkStream selected (MaxInputChannels selected) true
                             (Some framesPerBuffer) StreamOpen in
          match OpenStream host with
          | Err e => (r, Err (wrapError "failed to open stream" e))
          | Panic msg => (r, Panic msg)
          | Ok _ =>
              let r := mk (Some st) (Samples r) (isClosed r) in
              match StreamStart host with
              | Err e =>
                  (mk (Some (mkStream selected (MaxInputChannels selected) true
                                      (Some framesPerBuffer) StreamClosed))
                      (Samples r) (isClosed r),
                   Err (wrapError "failed to start stream" e))
              | Panic msg => (r, Panic msg)
              | Ok _ =>
                  (mk (Some (mkStream selected (MaxInputChannels selected) true
                                      (Some framesPerBuffer) StreamStarted))
                      (Samples r) (isClosed r),
                   Ok tt)
              end
          end
      end
  end.

(** The stream callback installed by [Start]. The state is [r.Samples] and
    the lines printed so far. *)
Definition callback (input : list float32)
  : M (Chan (list float32) * list string) Offer := fun '(samples, stdout) =>
  (* Use independent copy instead of shared slice *)
  let sampleCopy : list float32 :=
    go_copy (replicate (length input) (S754_zero false : float32)) input in
  (* Try to send samples, discard if channel is full (avoid blocking) *)
  match select_send_default sampleCopy samples with
  | (samples', Ok Dropped) =>
      (* Channel is full, discard sample to avoid blocking *)
      ((samples',
        stdout ++ ["Warning: Sample channel is full, discarding one frame"%string]),
       Ok Dropped)
  | (samples', other) => ((samples', stdout), other) (* Successfully sent *)
  end.

(** Stop stops capture and releases resources. The state is the recorder
    and the package-level driver guard. *)
Definition Stop : M (t * Driver) unit := fun '(r, d) =>
  (* r.stream.Stop(); r.stream.Close(); r.stream = nil *)
  let r := mk None (Samples r) (isClosed r) in
  (* Safely close channel, avoid duplicate closure *)
  if negb (isClosed r) then
    match close (Samples r) with
    | (ch, Ok _) =>
        let r := mk (stream r) ch true in
        ((r, SafePortAudioTerminate d), Ok tt)
    | (ch, Err e) => ((mk (stream r) ch (isClosed r), d), Err e)
    | (ch, Panic msg) => ((mk (stream r) ch (isClosed r), d), Panic msg)
    end
  else ((r, SafePortAudioTerminate d), Ok tt).

End LoopbackRecorder.

(** ** The output-capture recorder ([output_capture.go]) *)

Module OutputCaptureRecorder.

Record t : Type := mk {
  stream : option Stream;
  Samples : Chan (list float32);
  isClosed : bool
}.

Definition New (initialize : result unit) (d : Driver) : Driver * result t :=
  match SafePortAudioInit initialize d with
  | (d', Ok _) => (d', Ok (mk None (make_chan (list float32) 1024) false))
  | (d', Err e) => (d', Err e)
  | (d', Panic msg) => (d', Panic msg)
  end.

(** Step 1 of [Start] (lines 56-67): the first device whose name carries a
    loopback marker. *)
Definition is_loopback_marker (dev : DeviceInfo) : bool :=
  contains (Name dev) "BlackHole" || contains (Name dev) "Loopback".

(** Lines 50-102 of [Start]: the selected device and its channel count, or
    the error [Start] returns. *)
Definition selectDevice (host : Host) (apis : list HostApiInfo)
    (deviceName : string) : result (DeviceInfo * Z) :=
  let selected : option DeviceInfo := None in
  (* 1. look for a loopback device first (such as BlackHole) *)
  let selected := scan_apis is_loopback_marker apis selected in
  (* 2. no loopback device: look for the named device *)
  let selected :=
    if bool_decide (selected = None) && negb (bool_decide (deviceName = ""%string)) then
      scan_apis (fun dev => (MaxInputChannels dev >? 0)
                            && (bool_decide (Name dev = deviceName)
                                || contains (Name dev) deviceName)) apis selected
    else selected in
  (* 3. still nothing: try the default input device of the system *)
  let selected : result (option DeviceInfo) :=
    match selected with
    | None =>
        match DefaultHostApi host with
        | Err e => Err (wrapError "获取默认音频API失败" e)
        | Panic msg => Panic msg
        | Ok defaultHostAPI => Ok (DefaultInputDevice defaultHostAPI)
        end
    | Some _ => Ok selected
    end in
  match selected with
  | Err e => Err e
  | Panic msg => Panic msg
  | Ok None =>
      Err (errorString "未找到可用的音频环回设备，请安装BlackHole等虚拟音频设备")
  | Ok (Some selected) =>
      (* capture goes through an input device *)
      let channelCount := MaxInputChannels selected in
      if channelCount =? 0 then Err (errorString "所选设备没有输入通道")
      else Ok (selected, channelCount)
  end.

(** Start begins capturing the system audio output. *)
Definition Start (host : Host) (deviceName : string) : M t unit := fun r =>
  match HostApis host with
  | Err e => (r, Err e)
  | Panic msg => (r, Panic msg)
  | Ok apis =>
      match selectDevice host apis deviceName with
      | Err e => (r, Err e)
      | Panic msg => (r, Panic msg)
      | Ok (selected, channelCount) =>
          match OpenStream host with
          | Err e => (r, Err (wrapError "打开流失败" e))
          | Panic msg => (r, Panic msg)
          | Ok _ =>
              let r := mk (Some (mkStream selected channelCount false None StreamOpen))
                          (Samples r) (isClosed r) in
              match StreamStart host with
              | Err e =>
                  (mk (Some (mkStream selected channelCount false None StreamClosed))
                      (Samples r) (isClosed r),
                   Err (wrapError "启动流失败" e))
              | Panic msg => (r, Panic msg)
              | Ok _ =>
                  (mk (Some (mkStream selected channelCount false None StreamStarted))
                      (Samples r) (isClosed r),
                   Ok tt)
              end
          end
      end
  end.

(** The buffer [in] that [Start] allocates for its callback. *)
Definition make_in (channelCount : Z) : list float32 :=
  replicate (Z.to_nat (GoInt.mul 1024 channelCount)) (S754_zero false).

(** The stream callback installed by [Start]. The state is the captured
    buffer [in] and [r.Samples]. *)
Definition callback (input : list float32)
  : M (list float32 * Chan (list float32)) Offer := fun '(in_, samples) =>
  (* copy the input into the buffer *)
  let in_ := go_copy in_ input in
  (* send a copy of the data to the channel *)
  match send (app [] in_) samples with
  | (samples', res) => ((in_, samples'), res)
  end.

(** Stop stops capture and releases resources. *)
Definition Stop : M (t * Driver) unit := fun '(r, d) =>
  let r := mk None (Samples r) (isClosed r) in
  if negb (isClosed r) then
    match close (Samples r) with
    | (ch, Ok _) =>
        let r := mk (stream r) ch true in
        ((r, SafePortAudioTerminate d), Ok tt)
    | (ch, Err e) => ((mk (stream r) ch (isClosed r), d), Err e)
    | (ch, Panic msg) => ((mk (stream r) ch (isClosed r), d), Panic msg)
    end
  else ((r, SafePortAudioTerminate d), Ok tt).

End OutputCaptureRecorder.

(** ** [float32] arithmetic (IEEE 754 binary32) *)

Module f32.

Definition prec : Z := 24.
Definition emax : Z := 128.

(** The float32 nearest to [m * 2^e]. *)
Definition of_Z_exp (m e : Z) : float32 := binary_normalize prec emax m e false.
Definition of_Z (m : Z) : float32 := of_Z_exp m 0.

Definition valid (x : float32) : bool := valid_binary prec emax x.

Definition mul : float32 -> float32 -> float32 := SFmul prec emax.
Definition neg : float32 -> float32 := SFopp.
Definition ltb : float32 -> float32 -> bool := SFltb.
Definition leb : float32 -> float32 -> bool := SFleb.
(** [x > y] *)
Definition gtb (x y : float32) : bool := SFltb y x.

(** The integer part of a finite value (truncation towards zero). *)
Definition trunc (x : float32) : option Z :=
  match x with
  | S754_zero _ => Some 0
  | S754_finite s m e =>
      let mag := if 0 <=? e then Z.pos m * 2 ^ e else Z.pos m / 2 ^ (- e) in
      Some (if s then - mag else mag)
  | S754_infinity _ | S754_nan => None
  end.

(** The conversion [int16(x)]. Go leaves the result to the implementation
    when [x] has no integer part or it does not fit; the compilers for
    amd64 and arm64 both give 0 for NaN, the one such value the send loop
    can convert. *)
Definition to_int16 (x : float32) : Z :=
  match trunc x with
  | Some z => GoInt.int16 z
  | None => 0
  end.

End f32.

(** [absFloat32] of [utils.go]. *)
Definition absFloat32 (x : float32) : float32 :=
  if f32.ltb x (f32.of_Z 0) then f32.neg x else x.

(** [abs] of [utils.go], on [int16]. *)
Definition abs (x : Z) : Z :=
  if x <? 0 then GoInt.int16 (- x) else x.

(** ** The send path: PCM conversion and the control envelope *)

(** A slice store [b[i] = v]: out of range it panics. *)
Definition store {A} (b : list A) (i : Z) (v : A) : result (list A) :=
  if (0 <=? i) && (i <? len b) then Ok (<[Z.to_nat i := v]> b)
  else Panic "index out of range".

(** Limit value to [-1.0, 1.0] range. *)
Definition clamp (sample : float32) : float32 :=
  if f32.gtb sample (f32.of_Z 1) then f32.of_Z 1
  else if f32.ltb sample (f32.of_Z (-1)) then f32.of_Z (-1)
  else sample.

(** The loop [for i, sample := range samples] of the send path, from index
    [i] on. *)
Fixpoint pcm_loop (samples : list float32) (i : Z) (pcmBytes : list Z)
  : result (list Z) :=
  match samples with
  | [] => Ok pcmBytes
  | sample :: rest =>
      let sample := clamp sample in
      (* Convert to int16, then split into two bytes *)
      let sampleInt := f32.to_int16 (f32.mul sample (f32.of_Z 32767)) in
      match store pcmBytes (i * 2) (GoInt.byte sampleInt) with
      | Ok pcmBytes =>
          match store pcmBytes (i * 2 + 1) (GoInt.byte (Z.shiftr sampleInt 8)) with
          | Ok pcmBytes => pcm_loop rest (i + 1) pcmBytes
          | other => other
          end
      | other => other
      end
  end.

(** Convert float32 samples to byte sequence: 16-bit PCM = 2 bytes/sample. *)
Definition pcm_of_samples (samples : list float32) : result (list Z) :=
  let pcmBytes := replicate (Z.to_nat (GoInt.mul (len samples) 2)) 0 in
  pcm_loop samples 0 pcmBytes.

(** [base64.StdEncoding.EncodeToString] (RFC 4648, with padding). *)
Module base64.

Definition alphabet : list ascii :=
  list_ascii_of_string
    "ABCDEFGHIJKLMNOPQRSTUVWXYZabcdefghijklmnopqrstuvwxyz0123456789+/".

Definition digit (n : Z) : ascii :=
  nth (Z.to_nat (Z.land n 63)) alphabet "="%char.

Fixpoint encode (bs : list Z) : list ascii :=
  match bs with
  | [] => []
  | [a] =>
      [digit (Z.shiftr a 2); digit (Z.shiftl a 4); "="%char; "="%char]
  | [a; b] =>
      [digit (Z.shiftr a 2);
       digit (Z.lor (Z.shiftl a 4) (Z.shiftr b 4));
       digit (Z.shiftl b 2); "="%char]
  | a :: b :: c :: rest =>
      digit (Z.shiftr a 2)
      :: digit (Z.lor (Z.shiftl a 4) (Z.shiftr b 4))
      :: digit (Z.lor (Z.shiftl b 2) (Z.shiftr c 6))
      :: digit c
      :: encode rest
  end.

Definition EncodeToString (bs : list Z) : string :=
  string_of_list_ascii (encode bs).

End base64.

(** A JSON value as [json.Marshal] writes it: the keys of an object are in
    sorted order, which is how Marshal prints a Go map. The text on the
    wire is the rendering of this value. *)
#[warnings="-register-all"]
Inductive Json : Type :=
  | JString (s : string)
  | JObject (fields : list (string * Json)).

(** The event of the send loop:
    map with "type": "input_audio_buffer.append" and "audio": audioB64. *)
Definition append_event (audioB64 : string) : Json :=
  JObject [("audio"%string, JString audioB64);
           ("type"%string, JString "input_audio_buffer.append")].

(** The event of [initializeSession]. *)
Definition session_update_event (voice prompt : string) : Json :=
  JObject [("session"%string,
            JObject [("instructions"%string, JString prompt);
                     ("voice"%string, JString voice)]);
           ("type"%string, JString "session.update")].

(** The event of [Session.Stop]. *)
Definition cancel_event : Json :=
  JObject [("type"%string, JString "response.cancel")].

(** The value of the "type" field of an event. *)
Definition event_type (j : Json) : option string :=
  match j with
  | JObject fields =>
      match list_find (fun kv => fst kv = "type"%string) fields with
      | Some (_, (_, JString t)) => Some t
      | _ => None
      end
  | JString _ => None
  end.


(** ** The transport ([webrtc.DataChannel], [webrtc.PeerConnection]) *)

Module webrtc.

Inductive DataChannelState : Type :=
  | DataChannelStateConnecting
  | DataChannelStateOpen
  | DataChannelStateClosing
  | DataChannelStateClosed.

#[global] Instance DataChannelState_eq_dec : EqDecision DataChannelState.
Proof. solve_decision. Defined.

(** The handlers the repository registers with [OnOpen]. *)
Inductive OnOpenHandler : Type :=
  | LogOpened            (* Conn: prints "[DataChannel] Opened" *)
  | InitializeOnOpen.    (* Start: prints and calls s.initializeSession() *)

(** A data channel: its state, the text messages handed to the transport
    so far (oldest first), and the registered open handler. *)
Record DataChannel : Type := mkDataChannel {
  ReadyState : DataChannelState;
  sent : list Json;
  onOpen : option OnOpenHandler
}.

(** [SendText]: a channel that is not open refuses the message. *)
Definition SendText (msg : Json) : M DataChannel unit := fun dc =>
  if bool_decide (ReadyState dc = DataChannelStateOpen)
  then (mkDataChannel (ReadyState dc) (sent dc ++ [msg]) (onOpen dc), Ok tt)
  else (dc, Err (errorString "io: read/write on closed pipe")).

Definition OnOpen (h : OnOpenHandler) (dc : DataChannel) : DataChannel :=
  mkDataChannel (ReadyState dc) (sent dc) (Some h).

Definition Close (dc : DataChannel) : DataChannel :=
  mkDataChannel DataChannelStateClosed (sent dc) (onOpen dc).

Record PeerConnection : Type := mkPeerConnection {
  pcClosed : bool
}.

End webrtc.

(** ** The session *)

(** Session manages Loopback capture and Realtime WebRTC connection.
    Pointer fields are [option]: [None] is [nil]. *)
Record Session : Type := mkSession {
  pc : option webrtc.PeerConnection;
  dc : option webrtc.DataChannel;
  stopCh : option (Chan unit);
  recorder : option LoopbackRecorder.t;
  systemPrompt : string;
  targetLang : string;
  voice : string
}.

Definition set_dc (s : Session) (d : option webrtc.DataChannel) : Session :=
  mkSession (pc s) d (stopCh s) (recorder s) (systemPrompt s) (targetLang s) (voice s).
Definition set_stopCh (s : Session) (c : option (Chan unit)) : Session :=
  mkSession (pc s) (dc s) c (recorder s) (systemPrompt s) (targetLang s) (voice s).
Definition set_recorder (s : Session) (r : option LoopbackRecorder.t) : Session :=
  mkSession (pc s) (dc s) (stopCh s) r (systemPrompt s) (targetLang s) (voice s).
Definition set_pc (s : Session) (p : option webrtc.PeerConnection) : Session :=
  mkSession p (dc s) (stopCh s) (recorder s) (systemPrompt s) (targetLang s) (voice s).

(** Build default translation prompt. *)
Definition buildTranslationPrompt (s : Session) : string :=
  "You are a real-time simultaneous interpreter. Please translate the user's speech into "
  ++ targetLang s
  ++ " while maintaining the original speech rhythm, tone, emotion, and characteristics."
  ++ "When translating, accurately convey the original meaning while making the translated language sound natural and fluent, conforming to "
  ++ targetLang s
  ++ " expression habits."
  ++ "Please only output the translation result, do not add any additional explanations or prefixes like 'translation:'. Please ensure to generate voice output.".

(** Session initialization logic, extracted from Start method. The result
    of [SendText] is dropped, as in the source. *)
Definition initializeSession : M Session unit := fun s =>
  let prompt := buildTranslationPrompt s in
  let prompt :=
    if bool_decide (prompt = ""%string)
    then ("Translate to " ++ targetLang s ++ " and read out loud")%string
    else prompt in
  (* Set voice and instructions *)
  let evt := session_update_event (voice s) prompt in
  match dc s with
  | None => (s, Panic "invalid memory address or nil pointer dereference")
  | Some d =>
      let '(d', _) := webrtc.SendText evt d in
      (* time.Sleep(100 * time.Millisecond): the calling goroutine waits *)
      (set_dc s (Some d'), Ok tt)
  end.

(** The local variables of the goroutine that [Start] launches. *)
Record SendLoop : Type := mkSendLoop {
  sampleCount : Z;
  hasSoundInput : bool;
  soundLevel : float32
}.

Definition SendLoop0 : SendLoop := mkSendLoop 0 false (S754_zero false).

(** Detect sound level: the peak of [absFloat32] over the batch. *)
Fixpoint peak (samples : list float32) (soundLevel : float32) : float32 :=
  match samples with
  | [] => soundLevel
  | sample :: rest =>
      peak rest (if f32.gtb (absFloat32 sample) soundLevel
                 then absFloat32 sample else soundLevel)
  end.

(** The body of [case samples, ok := <-s.recorder.Samples] for [ok = true]
    (lines 515-577). *)
Definition sendBatch (samples : list float32) : M (Session * SendLoop) unit :=
  fun '(s, l) =>
  let soundLevel := peak samples (f32.of_Z 0) in
  (* Check if there's sound (non-silent) *)
  let hasSoundInput :=
    if f32.gtb soundLevel (f32.of_Z 0) then true else hasSoundInput l in
  let l := mkSendLoop (sampleCount l) hasSoundInput soundLevel in
  (* If data channel is not ready, skip sending *)
  match dc s with
  | None => ((s, l), Ok tt)
  | Some d =>
      if negb (bool_decide (webrtc.ReadyState d = webrtc.DataChannelStateOpen))
      then ((s, l), Ok tt)
      else
        (* Convert float32 samples to byte sequence *)
        match pcm_of_samples samples with
        | Err e => ((s, l), Err e)
        | Panic msg => ((s, l), Panic msg)
        | Ok pcmBytes =>
            (* Base64 encode *)
            let audioB64 := base64.EncodeToString pcmBytes in
            (* Use input_audio_buffer.append for actual real-time audio stream *)
            let evt := append_event audioB64 in
            let '(d', _) := webrtc.SendText evt d in
            (* Update statistics *)
            let l := mkSendLoop (GoInt.add (sampleCount l) (len samples))
                                hasSoundInput soundLevel in
            ((set_dc s (Some d'), l), Ok tt)
        end
  end.

(** Stop stops audio capture and WebRTC connection. The state is the
    session and the package-level driver guard. *)
Definition Session_Stop : M (Session * Driver) unit := fun '(s, d) =>
  (* First close stop signal channel, this will trigger all goroutines to exit *)
  let '(s, r1) :=
    match stopCh s with
    | Some ch =>
        match close ch with
        | (_, Ok _) => (set_stopCh s None, Ok tt) (* prevent multiple closures *)
        | (ch', other) => (set_stopCh s (Some ch'), other)
        end
    | None => (s, Ok tt)
    end in
  match r1 with
  | Err e => ((s, d), Err e)
  | Panic msg => ((s, d), Panic msg)
  | Ok _ =>
      (* Close audio capture *)
      let '((s, d), r2) :=
        match recorder s with
        | Some r =>
            let '((r', d'), res) := LoopbackRecorder.Stop (r, d) in
            ((set_recorder s (Some r'), d'), res)
        | None => ((s, d), Ok tt)
        end in
      match r2 with
      | Panic msg => ((s, d), Panic msg)
      | _ =>
          (* Close data channel *)
          let s :=
            match dc s with
            | Some c =>
                if bool_decide (webrtc.ReadyState c = webrtc.DataChannelStateOpen) then
                  (* Try to send close message; ignore send error *)
                  let '(c', _) := webrtc.SendText cancel_event c in
                  set_dc s (Some (webrtc.Close c'))
                else s
            | None => s
            end in
          (* Close PeerConnection *)
          let s :=
            match pc s with
            | Some _ => set_pc s (Some (webrtc.mkPeerConnection true))
            | None => s
            end in
          ((s, d), Ok tt)
      end
  end.

(** *** The goroutines of a running session *)

(** Everything the goroutines of one session share, and where each of
    them stands. *)
Record World : Type := mkWorld {
  session : Session;
  driver : Driver;
  (** the send goroutine launched by [Start], while it runs *)
  sender : option SendLoop;
  (** the caller of [Start] has executed the [go] statement and not yet
      lines 583-594 *)
  startPending : bool;
  (** the transport has opened the data channel and not yet run the
      registered open handler *)
  openPending : bool;
  stdout : list string
}.

(** Which case of the [select] of the send loop is taken. *)
Inductive SelectCase : Type := CaseStop | CaseSamples.

(** What a goroutine or the environment does next. *)
Inductive Action : Type :=
  | HardwareCallback (input : list float32) (* the driver delivers a buffer *)
  | SendLoopStep (choice : SelectCase)      (* one iteration of the send loop *)
  | StartContinues                          (* the caller of Start goes on *)
  | TransportOpens                          (* the data channel becomes open *)
  | OpenHandlerRuns.                        (* the open handler is called *)

(** Lines 486-580 of [Start]: start the recorder and launch the goroutine. *)
Definition Start_launch (host : Host) (deviceName : string) : M World unit := fun w =>
  let s := session w in
  match recorder s with
  | None => (w, Panic "invalid memory address or nil pointer dereference")
  | Some r =>
      match LoopbackRecorder.Start host deviceName r with
      | (r', Err e) =>
          (mkWorld (set_recorder s (Some r')) (driver w) (sender w)
                   (startPending w) (openPending w) (stdout w),
           Err (wrapError "failed to start audio capture" e))
      | (r', Panic msg) =>
          (mkWorld (set_recorder s (Some r')) (driver w) (sender w)
                   (startPending w) (openPending w) (stdout w),
           Panic msg)
      | (r', Ok _) =>
          (mkWorld (set_recorder s (Some r')) (driver w) (Some SendLoop0)
                   true (openPending w) (stdout w),
           Ok tt)
      end
  end.

(** Lines 583-594 of [Start]: register data channel open event handler, or
    initialize at once if the channel is already open. *)
Definition Start_finish : M World unit := fun w =>
  let s := session w in
  match dc s with
  | None => (w, Panic "invalid memory address or nil pointer dereference")
  | Some d =>
      if negb (bool_decide (webrtc.ReadyState d = webrtc.DataChannelStateOpen)) then
        (mkWorld (set_dc s (Some (webrtc.OnOpen webrtc.InitializeOnOpen d)))
                 (driver w) (sender w) false (openPending w) (stdout w),
         Ok tt)
      else
        let '(s', res) := initializeSession s in
        (mkWorld s' (driver w) (sender w) false (openPending w) (stdout w), res)
  end.

(** Start starts capturing and pushing audio, when nothing else runs
    between its two halves. *)
Definition Session_Start (host : Host) (deviceName : string) : M World unit :=
  do* Start_launch host deviceName in Start_finish.

(** The send goroutine returns: its deferred [s.recorder.Stop()] runs. *)
Definition sender_returns (w : World) : World :=
  match recorder (session w) with
  | Some r =>
      let '((r', d'), _) := LoopbackRecorder.Stop (r, driver w) in
      mkWorld (set_recorder (session w) (Some r')) d' None
              (startPending w) (openPending w) (stdout w)
  | None =>
      mkWorld (session w) (driver w) None (startPending w) (openPending w) (stdout w)
  end.

(** One iteration of the [for { select { ... } }] of the send goroutine,
    taking the case [choice]; a case that is not ready leaves the goroutine
    waiting. *)
Definition sendLoop_step (choice : SelectCase) (l : SendLoop) (w : World) : World :=
  let s := session w in
  match choice with
  | CaseStop =>
      match stopCh s with
      | Some ch => if chanClosed ch then sender_returns w else w
      | None => w (* a receive from a nil channel never proceeds *)
      end
  | CaseSamples =>
      match recorder s with
      | None => w
      | Some r =>
          match recv (LoopbackRecorder.Samples r) with
          | (_, RecvBlocks) => w
          | (_, RecvClosed) => sender_returns w (* channel closed *)
          | (ch', RecvValue samples) =>
              let r' := LoopbackRecorder.mk (LoopbackRecorder.stream r) ch'
                                            (LoopbackRecorder.isClosed r) in
              let '((s', l'), _) := sendBatch samples (set_recorder s (Some r'), l) in
              mkWorld s' (driver w) (Some l') (startPending w) (openPending w) (stdout w)
          end
      end
  end.

Definition step (a : Action) (w : World) : World :=
  match a with
  | HardwareCallback input =>
      match recorder (session w) with
      | Some r =>
          match LoopbackRecorder.stream r with
          | Some st =>
              match streamState st with
              | StreamStarted =>
                  let '((ch', out'), _) :=
                    LoopbackRecorder.callback input (LoopbackRecorder.Samples r, stdout w) in
                  mkWorld (set_recorder (session w)
                             (Some (LoopbackRecorder.mk (LoopbackRecorder.stream r) ch'
                                                        (LoopbackRecorder.isClosed r))))
                          (driver w) (sender w) (startPending w) (openPending w) out'
              | _ => w
              end
          | None => w
          end
      | None => w
      end
  | SendLoopStep choice =>
      match sender w with
      | Some l => sendLoop_step choice l w
      | None => w
      end
  | StartContinues =>
      if startPending w then fst (Start_finish w) else w
  | TransportOpens =>
      match dc (session w) with
      | Some d =>
          match webrtc.ReadyState d with
          | webrtc.DataChannelStateConnecting =>
              mkWorld (set_dc (session w)
                         (Some (webrtc.mkDataChannel webrtc.DataChannelStateOpen
                                                     (webrtc.sent d) (webrtc.onOpen d))))
                      (driver w) (sender w) (startPending w) true (stdout w)
          | _ => w
          end
      | None => w
      end
  | OpenHandlerRuns =>
      if openPending w then
        match dc (session w) with
        | Some d =>
            match webrtc.onOpen d with
            | Some webrtc.InitializeOnOpen =>
                let '(s', _) := initializeSession (session w) in
                mkWorld s' (driver w) (sender w) (startPending w) false
                        (stdout w ++ ["[DataChannel] Opened, immediately initialize session"%string])
            | Some webrtc.LogOpened =>
                mkWorld (session w) (driver w) (sender w) (startPending w) false
                        (stdout w ++ ["[DataChannel] Opened"%string])
            | None =>
                mkWorld (session w) (driver w) (sender w) (startPending w) false (stdout w)
            end
        | None => w
        end
      else w
  end.

(** A schedule, run from left to right. *)
Definition run (sched : list Action) (w : World) : World :=
  fold_left (fun w a => step a w) sched w.

(** The messages handed to the transport so far, oldest first. *)
Definition transport_log (w : World) : list Json :=
  match dc (session w) with
  | Some d => webrtc.sent d
  | None => []
  end.

(** ** The receive path ([localTrack]) *)

(** [err == io.EOF]: the sentinel itself, not an error that wraps it. *)
Definition is_EOF (e : error) : bool :=
  match e with EOF => true | _ => false end.

Definition sampleRate : Z := 48000.
Definition channels : Z := 1.
Definition frameSize : Z := 960.

(** The local variables of [localTrack] that outlive one iteration. *)
Record Track : Type := mkTrack {
  audioFile : option os.File;   (* nil when os.Create failed *)
  audioBuffer : list Z;         (* the bytes written to the player's buffer *)
  buffer : list Z;              (* []int16, frameSize *)
  pcm : list Z;                 (* []int16, frameSize: decoded PCM data *)
  samples : list Z;             (* []byte, frameSize*2 *)
  packetCount : Z;
  totalAudioBytes : Z;          (* int64 *)
  hasSoundData : bool
}.

Definition set_audioFile (t : Track) (f : option os.File) : Track :=
  mkTrack f (audioBuffer t) (buffer t) (pcm t) (samples t) (packetCount t)
          (totalAudioBytes t) (hasSoundData t).

(** What the collaborators answer while [localTrack] sets up. *)
Record TrackSetup : Type := mkTrackSetup {
  NewDecoder : result unit;     (* opus.NewDecoder(sampleRate, channels) *)
  NewContext : result unit;     (* oto.NewContext(...) *)
  Create : result unit          (* os.Create(audioFileName) *)
}.

(** What [decoder.Decode(rtp.Payload, pcm)] makes of a packet. *)
Inductive Decoded : Type :=
  | DecodeError (e : error)
  | DecodedFrame (frame : list Z).  (* the int16 samples; [n] is their number *)

(** What one pass through the [select] finds. *)
Inductive TrackEvent : Type :=
  | EvDone                                     (* [done] is closed *)
  | EvReadError (e : error)                    (* track.ReadRTP() fails *)
  | EvPacket (payload : list Z) (decoded : Decoded).  (* a packet arrives *)

(** Update data size in WAV file header before exiting (lines 289-293 and
    301-305); the error of [updateWavHeader] is dropped. *)
Definition finalize (t : Track) : Track :=
  match audioFile t with
  | Some f => set_audioFile t (Some (fst (updateWavHeader (totalAudioBytes t) f)))
  | None => t
  end.

(** The deferred [audioFile.Close()], run when [localTrack] returns. *)
Definition close_deferred (t : Track) : Track :=
  match audioFile t with
  | Some f => set_audioFile t (Some (fst (os.Close f)))
  | None => t
  end.

(** Convert int16 data to byte sequence: the loop over [i < n], from [i] on
    with [k] rounds to go. *)
Fixpoint bytes_loop (k : nat) (i : Z) (buffer samples : list Z) : result (list Z) :=
  match k with
  | O => Ok samples
  | S k' =>
      match buffer !! Z.to_nat i with
      | None => Panic "index out of range"
      | Some b =>
          match store samples (i * 2) (GoInt.byte b) with
          | Ok samples =>
              match store samples (i * 2 + 1) (GoInt.byte (Z.shiftr b 8)) with
              | Ok samples => bytes_loop k' (i + 1) buffer samples
              | other => other
              end
          | other => other
          end
      end
  end.

(** Save audio data to file (lines 348-355). *)
Definition saveAudio (data : list Z) (t : Track) : Track :=
  match audioFile t with
  | Some f =>
      match os.Write data f with
      | (f', Ok bytesWritten) =>
          mkTrack (Some f') (audioBuffer t) (buffer t) (pcm t) (samples t)
                  (packetCount t)
                  (GoInt.int64 (totalAudioBytes t + GoInt.int64 bytesWritten))
                  (hasSoundData t)
      | (f', _) => set_audioFile t (Some f')
      end
  | None => t
  end.

(** One pass through the body of the [for] loop. [Some r] means that
    [localTrack] returns [r]; [None] that the loop goes round again. *)
Definition localTrack_iter (ev : TrackEvent) (t : Track)
  : Track * option (result unit) :=
  match ev with
  | EvDone =>
      (* Update data size in WAV file header before exiting *)
      (finalize t, Some (Ok tt)) (* Graceful exit *)
  | EvReadError err =>
      (* Check if it's due to connection closure (EOF) or other serious error *)
      if is_EOF err || strings_Contains (error_message err) "closed" then
        (finalize t, Some (Ok tt)) (* Connection closed, exit directly *)
      else
        (* Other temporarily error, continue to try *)
        (t, None)
  | EvPacket payload decoded =>
      match decoded with
      | DecodeError _ => (t, None) (* a decoding error, record but continue *)
      | DecodedFrame frame =>
          if len frame >? len (pcm t) then
            (* the decoder reports that its output buffer is too small *)
            (t, None)
          else
            let n := len frame in
            let pcm' := go_copy (pcm t) frame in
            (* Copy decoded data to playback buffer *)
            let buffer' := go_copy (buffer t) (slice pcm' 0 n) in
            (* Check if it's valid audio (not all 0 or close to 0) *)
            let hasSound := existsb (fun b => abs b >? 0) (slice buffer' 0 n) in
            let hasSoundData' := if hasSound then true else hasSoundData t in
            (* Convert int16 data to byte sequence *)
            match bytes_loop (Z.to_nat n) 0 buffer' (samples t) with
            | Err e => (t, Some (Err e))
            | Panic msg => (t, Some (Panic msg))
            | Ok samples' =>
                (* Write audio data to buffer *)
                let audioBuffer' := audioBuffer t ++ slice samples' 0 (n * 2) in
                let t := mkTrack (audioFile t) audioBuffer' buffer' pcm' samples'
                                 (packetCount t) (totalAudioBytes t) hasSoundData' in
                (* Save audio data to file *)
                let t := saveAudio (slice samples' 0 (n * 2)) t in
                (* Update packet count *)
                (mkTrack (audioFile t) (audioBuffer t) (buffer t) (pcm t) (samples t)
                         (GoInt.add (packetCount t) 1) (totalAudioBytes t)
                         (hasSoundData t),
                 None)
            end
      end
  end.

(** The [for] loop over the events it meets. The loop stops at the first
    event that makes [localTrack] return; [None] means that it is still
    running when the events are used up. *)
Fixpoint localTrack_loop (evs : list TrackEvent) (t : Track)
  : Track * option (result unit) :=
  match evs with
  | [] => (t, None)
  | ev :: rest =>
      match localTrack_iter ev t with
      | (t', None) => localTrack_loop rest t'
      | (t', Some r) => (close_deferred t', Some r)
      end
  end.

(** The state in which the loop is entered. *)
Definition Track0 (setup : TrackSetup) : Track :=
  let audioFile :=
    match Create setup with
    | Ok _ =>
        (* Write WAV file header; its error is dropped *)
        Some (fst (writeWavHeader sampleRate 1 16 os.Create))
    | _ => None (* Continue execution even if file creation fails *)
    end in
  mkTrack audioFile []
          (replicate (Z.to_nat frameSize) 0)
          (replicate (Z.to_nat frameSize) 0)
          (replicate (Z.to_nat (frameSize * 2)) 0)
          0 0 false.

(** [localTrack]: [None] when there is no return (yet), else the returned
    error or [Ok] for [return nil]; with the state of the locals if the
    loop was entered. *)
Definition localTrack (setup : TrackSetup) (evs : list TrackEvent)
  : option Track * option (result unit) :=
  match NewDecoder setup with
  | Err e => (None, Some (Err e))
  | Panic msg => (None, Some (Panic msg))
  | Ok _ =>
      match NewContext setup with
      | Err e => (None, Some (Err e))
      | Panic msg => (None, Some (Panic msg))
      | Ok _ =>
          let '(t, r) := localTrack_loop evs (Track0 setup) in (Some t, r)
      end
  end.

(** ** Definitions used to state the properties *)

(** The file is open and positioned at its end, as it is between the
    writes of [localTrack]. *)
Definition at_end (f : os.File) : Prop :=
  os.closed f = false /\ os.offset f = len (os.contents f).

Definition append_file (f : os.File) (bs : list Z) : os.File :=
  os.mkFile (os.contents f ++ bs) (os.offset f + len bs) false.

(** The file part of the loop of [localTrack] over the byte strings it
    saves, in order. *)
Definition saveAll (writes : list (list Z)) (t : Track) : Track :=
  fold_left (fun t w => saveAudio w t) writes t.

(** Bytes 8 to 39 of the container header. *)
Definition wav_header_mid (sr ch bits : Z) : list Z :=
  bytes_of_string "WAVE" ++ bytes_of_string "fmt "
  ++ le_bytes 4 16 ++ le_bytes 2 1
  ++ le_bytes 2 (GoInt.uint16 ch)
  ++ le_bytes 4 (GoInt.uint32 sr)
  ++ le_bytes 4 (GoInt.uint32 (GoInt.div (GoInt.mul (GoInt.mul sr ch) bits) 8))
  ++ le_bytes 2 (GoInt.uint16 (GoInt.div (GoInt.mul ch bits) 8))
  ++ le_bytes 2 (GoInt.uint16 bits)
  ++ bytes_of_string "data".

(** The 44 bytes of the container header, given its two size fields. *)
Definition wav_header (sr ch bits : Z) (riffSize dataSize : list Z) : list Z :=
  bytes_of_string "RIFF" ++ riffSize ++ wav_header_mid sr ch bits ++ dataSize.

(** A run of [Acquire] calls, one per element of [outs]; the element is
    what [portaudio.Initialize()] answers if that call reaches it. The
    result is the guard afterwards and what each call returned. *)
Fixpoint acquireAll (outs : list (result unit)) (d : Driver)
  : Driver * list (result unit) :=
  match outs with
  | [] => (d, [])
  | o :: rest =>
      let '(d1, r) := SafePortAudioInit o d in
      let '(d2, rs) := acquireAll rest d1 in
      (d2, r :: rs)
  end.

(** A run of [n] [Release] calls. *)
Definition releaseN (n : nat) (d : Driver) : Driver :=
  Nat.iter n SafePortAudioTerminate d.

(** Two capture recorders created one after the other in a new process. *)
Definition two_recorders : option (LoopbackRecorder.t * LoopbackRecorder.t * Driver) :=
  match LoopbackRecorder.New (Ok tt) Driver0 with
  | (d1, Ok a) =>
      match LoopbackRecorder.New (Ok tt) d1 with
      | (d2, Ok b) => Some (a, b, d2)
      | _ => None
      end
  | _ => None
  end.

(** A session as [NewSession] returns it, over the recorder [r]. *)
Definition new_session (r : LoopbackRecorder.t) (state : webrtc.DataChannelState)
  : Session :=
  mkSession (Some (webrtc.mkPeerConnection false))
            (Some (webrtc.mkDataChannel state [] None))
            (Some (make_chan unit 0))
            (Some r) "" "English" "alloy".

(** A recorder as [NewLoopbackRecorder] returns it, and as [Stop] leaves it. *)
Definition recorder_new : LoopbackRecorder.t :=
  LoopbackRecorder.mk None (make_chan (list float32) 1024) false.
Definition recorder_stopped : LoopbackRecorder.t :=
  LoopbackRecorder.mk None (mkChan [] 1024 true) true.

(** The session of [new_session] after [Stop]. *)
Definition session_stopped : Session :=
  mkSession (Some (webrtc.mkPeerConnection true))
            (Some (webrtc.mkDataChannel webrtc.DataChannelStateClosed
                                        [cancel_event] None))
            None (Some recorder_stopped) "" "English" "alloy".

(** The test of the exact-match pass of the capture recorder. *)
Definition exact_input (label : string) (dev : DeviceInfo) : bool :=
  (MaxInputChannels dev >? 0) && bool_decide (Name dev = label).

(** A small catalog for the examples. *)
Definition rate48k : float64 := binary_normalize 53 1024 48000 0 false.
Definition usb_mic_pro : DeviceInfo := mkDevice 0 "USB Microphone Pro" 2 0 rate48k.
Definition usb_mic : DeviceInfo := mkDevice 1 "USB Microphone" 1 0 rate48k.
Definition blackhole : DeviceInfo := mkDevice 2 "BlackHole 2ch" 2 2 rate48k.
Definition builtin_mic : DeviceInfo := mkDevice 3 "Built-in Microphone" 1 0 rate48k.
Definition speakers : DeviceInfo := mkDevice 4 "Built-in Output" 0 2 rate48k.
Definition loopback_out : DeviceInfo := mkDevice 5 "Loopback Speakers" 0 2 rate48k.

Definition core_audio (devs : list DeviceInfo) : HostApiInfo :=
  mkHostApi "Core Audio" (Some builtin_mic) (Some speakers) devs.

(** A driver that enumerates [devs] and opens and starts any stream. *)
Definition host_of (devs : list DeviceInfo) : Host :=
  mkHost (Ok [core_audio devs]) (Ok (core_audio devs)) (Ok tt) (Ok tt).

Definition output_recorder_new : OutputCaptureRecorder.t :=
  OutputCaptureRecorder.mk None (make_chan (list float32) 1024) false.

(** The process after [NewSession]: one recorder holds the driver, no
    goroutine of the session runs yet. *)
Definition world_new (state : webrtc.DataChannelState) : World :=
  mkWorld (new_session recorder_new state) (mkDriver 1 [PaInitialize true])
          None false false [].

(** One captured buffer: a single sample of amplitude 0.5. *)
Definition half_sample : list float32 := [f32.of_Z_exp 1 (-1)].

(** The data channel is open when [Start] is called; the driver delivers a
    buffer and the send goroutine handles it before the caller of [Start]
    reaches [initializeSession]. *)
Definition schedule_open_before_start : list Action :=
  [HardwareCallback half_sample; SendLoopStep CaseSamples; StartContinues].

(** The data channel opens after [Start] has returned; the send goroutine
    handles a buffer before the open handler runs. *)
Definition schedule_open_after_start : list Action :=
  [TransportOpens; HardwareCallback half_sample; SendLoopStep CaseSamples;
   OpenHandlerRuns].

(** The send path in the words of its description: a sample is clamped,
    scaled by 32767 and converted to a signed 16-bit integer ... *)
Definition sample_int16 (x : float32) : Z :=
  f32.to_int16 (f32.mul (clamp x) (f32.of_Z 32767)).

(** ... which is written as two bytes, the low byte first ... *)
Definition sample_bytes (x : float32) : list Z :=
  le_bytes 2 (GoInt.uint16 (sample_int16 x)).

Definition pcm_le16 (batch : list float32) : list Z :=
  flat_map sample_bytes batch.

(** ... and the bytes of the batch travel base64-encoded in an
    [input_audio_buffer.append] event. *)
Definition append_message (batch : list float32) : Json :=
  append_event (base64.EncodeToString (pcm_le16 batch)).

(** The events on which the receive loop returns: the stop signal, and a
    read error that is [io.EOF] or mentions "closed". *)
Definition terminal (ev : TrackEvent) : bool :=
  match ev with
  | EvDone => true
  | EvReadError e => is_EOF e || strings_Contains (error_message e) "closed"
  | EvPacket _ _ => false
  end.

(** The three slices of [localTrack] keep the sizes they are made with. *)
Definition track_wf (t : Track) : Prop :=
  len (buffer t) = frameSize /\ len (pcm t) = frameSize
  /\ len (samples t) = frameSize * 2.

(** The audio file of [t] is open at its end and holds an unpatched header
    followed by [data]; the running total agrees with the size of [data]. *)
Definition file_holds (t : Track) (data : list Z) : Prop :=
  exists f,
    audioFile t = Some f /\ at_end f
    /\ os.contents f = wav_header sampleRate 1 16 [0; 0; 0; 0] [0; 0; 0; 0] ++ data
    /\ GoInt.uint32 (totalAudioBytes t) = GoInt.uint32 (len data)
    /\ GoInt.uint32 (GoInt.int64 (totalAudioBytes t + 36)) = GoInt.uint32 (len data + 36).

(** A short run of the receive path: a packet of three samples, a packet
    that does not decode, a read error that is not a closure, then the
    closure of the connection. *)
Definition track_setup_ok : TrackSetup := mkTrackSetup (Ok tt) (Ok tt) (Ok tt).

Definition events_before_close : list TrackEvent :=
  [EvPacket [1; 2; 3] (DecodedFrame [1; -2; 300]);
   EvPacket [9] (DecodeError (errorString "corrupted stream"));
   EvReadError (errorString "i/o timeout")].

Definition event_close : TrackEvent :=
  EvReadError (errorString "use of closed network connection").

(** ** The byte buffer ([AudioBuffer], [output_capture.go]) *)

Module AudioBuffer.

(** The mutex makes each method atomic; the condition variable only wakes
    a waiting reader. *)
Record t : Type := mk {
  buffer : list Z
}.

Definition New : t := mk [].

Definition Write (data : list Z) (ab : t) : t :=
  mk (buffer ab ++ data).

(** What a call of [Read(p)] does. *)
Inductive ReadResult : Type :=
  | Waits                           (* the buffer is empty: cond.Wait() *)
  | Returns (p : list Z) (n : Z).   (* the slice [p] afterwards, and [n]; err is nil *)

Definition Read (p : list Z) (ab : t) : t * ReadResult :=
  match buffer ab with
  | [] => (ab, Waits)
  | _ :: _ =>
      (* Read available data *)
      let n := Nat.min (length p) (length (buffer ab)) in
      (mk (drop n (buffer ab)), Returns (go_copy p (buffer ab)) (Z.of_nat n))
  end.

End AudioBuffer.

(** A call on an [AudioBuffer]. *)
Inductive BufferOp : Type :=
  | BufWrite (data : list Z)
  | BufRead (p : list Z).

(** Run the calls in order; the result is the buffer afterwards and the
    bytes the reads returned, in order ([p[:n]] of each). *)
Fixpoint buffer_run (ops : list BufferOp) (ab : AudioBuffer.t)
  : AudioBuffer.t * list Z :=
  match ops with
  | [] => (ab, [])
  | BufWrite data :: rest => buffer_run rest (AudioBuffer.Write data ab)
  | BufRead p :: rest =>
      match AudioBuffer.Read p ab with
      | (ab', AudioBuffer.Returns p' n) =>
          let '(ab'', got) := buffer_run rest ab' in
          (ab'', take (Z.to_nat n) p' ++ got)
      | (ab', AudioBuffer.Waits) => buffer_run rest ab'
      end
  end.

Definition written (ops : list BufferOp) : list Z :=
  flat_map (fun op => match op with BufWrite data => data | BufRead _ => [] end) ops.

(** ** More of the session *)

Definition defaultVoice : string := "alloy".

(** What the collaborators answer while [NewSession] runs. *)
Record SessionEnv : Type := mkSessionEnv {
  MkdirAll : result unit;                  (* os.MkdirAll(audioDir, 0755) *)
  NewPeerConnection : result unit;         (* webrtc.NewPeerConnection(config) *)
  NewTrackLocalStaticSample : result unit; (* webrtc.NewTrackLocalStaticSample(...) *)
  AddTrack : result unit;                  (* pc.AddTrack(track) *)
  CreateDataChannel : result unit;         (* pc.CreateDataChannel("oai-events", nil) *)
  Initialize : result unit                 (* portaudio.Initialize(), if it is called *)
}.

(** NewSession creates and initializes a Session. The state is the
    package-level driver guard. *)
Definition NewSession (env : SessionEnv) (ephemeralKey model targetLang voice : string)
  : M Driver Session := fun d =>
  let voice := if bool_decide (voice = ""%string) then defaultVoice else voice in
  let targetLang :=
    if bool_decide (targetLang = ""%string) then "English"%string else targetLang in
  (* Create audio save directory *)
  match MkdirAll env with
  | Err e => (d, Err (wrapError "failed to create audio save directory" e))
  | Panic msg => (d, Panic msg)
  | Ok _ =>
  (* 1. PeerConnection *)
  match NewPeerConnection env with
  | Err e => (d, Err e)
  | Panic msg => (d, Panic msg)
  | Ok _ =>
  (* 2. Audio Track *)
  match NewTrackLocalStaticSample env with
  | Err e => (d, Err e)
  | Panic msg => (d, Panic msg)
  | Ok _ =>
  match AddTrack env with
  | Err e => (d, Err e)
  | Panic msg => (d, Panic msg)
  | Ok _ =>
  (* 3. DataChannel *)
  match CreateDataChannel env with
  | Err e => (d, Err e)
  | Panic msg => (d, Panic msg)
  | Ok _ =>
  (* 4. Initialize LoopbackRecorder *)
  match LoopbackRecorder.New (Initialize env) d with
  | (d', Err e) => (d', Err (wrapError "failed to initialize audio capturer" e))
  | (d', Panic msg) => (d', Panic msg)
  | (d', Ok recorder) =>
      (d', Ok (mkSession (Some (webrtc.mkPeerConnection false))
                         (Some (webrtc.mkDataChannel webrtc.DataChannelStateConnecting
                                                     [] None))
                         (Some (make_chan unit 0))
                         (Some recorder) "" targetLang voice))
  end end end end end end.

(** SetTargetLanguage sets target translation language. *)
Definition SetTargetLanguage (lang : string) (s : Session) : Session :=
  mkSession (pc s) (dc s) (stopCh s) (recorder s) (systemPrompt s) lang (voice s).

(** SetSystemPrompt directly sets system prompt. *)
Definition SetSystemPrompt (prompt : string) (s : Session) : Session :=
  mkSession (pc s) (dc s) (stopCh s) (recorder s) prompt (targetLang s) (voice s).

(** SetVoice sets voice synthesis voice type. *)
Definition SetVoice (v : string) (s : Session) : Session :=
  mkSession (pc s) (dc s) (stopCh s) (recorder s) (systemPrompt s) (targetLang s) v.

(** The event of [UpdateSessionSettings]: the session object holds the
    voice only. *)
Definition voice_update_event (voice : string) : Json :=
  JObject [("session"%string, JObject [("voice"%string, JString voice)]);
           ("type"%string, JString "session.update")].

(** The event of [UpdateSystemPrompt]: the session object holds the
    instructions only. *)
Definition prompt_update_event (prompt : string) : Json :=
  JObject [("session"%string, JObject [("instructions"%string, JString prompt)]);
           ("type"%string, JString "session.update")].

(** UpdateSessionSettings updates session settings, such as voice type.
    The result of [SendText] is dropped, as in the source. *)
Definition UpdateSessionSettings : M Session unit := fun s =>
  match dc s with
  | None => (s, Err (errorString "data channel not opened"))
  | Some d =>
      if negb (bool_decide (webrtc.ReadyState d = webrtc.DataChannelStateOpen))
      then (s, Err (errorString "data channel not opened"))
      else
        let '(d', _) := webrtc.SendText (voice_update_event (voice s)) d in
        (set_dc s (Some d'), Ok tt)
  end.

(** UpdateSystemPrompt updates system prompt. *)
Definition UpdateSystemPrompt : M Session unit := fun s =>
  match dc s with
  | None => (s, Err (errorString "data channel not opened"))
  | Some d =>
      if negb (bool_decide (webrtc.ReadyState d = webrtc.DataChannelStateOpen))
      then (s, Err (errorString "data channel not opened"))
      else
        let prompt := buildTranslationPrompt s in
        if bool_decide (prompt = ""%string) then (s, Ok tt) (* No prompt to send if none *)
        else
          let '(d', _) := webrtc.SendText (prompt_update_event prompt) d in
          (set_dc s (Some d'), Ok tt)
  end.


(** The batches waiting in the sample channel of the session's recorder. *)
Definition queued (w : World) : list (list float32) :=
  match recorder (session w) with
  | Some r => queue (LoopbackRecorder.Samples r)
  | None => []
  end.

(** The data channel of the session is missing or not open. *)
Definition not_open (s : Session) : Prop :=
  forall d, dc s = Some d -> webrtc.ReadyState d <> webrtc.DataChannelStateOpen.

(** ** The redirect path ([blackHoleTrack]) *)

(** Division of [float32] values. *)
Definition f32_div : float32 -> float32 -> float32 := SFdiv f32.prec f32.emax.

Module BlackHole.

(** What the collaborators answer while [blackHoleTrack] sets up. *)
Record Setup : Type := mkSetup {
  NewDecoder : result unit;     (* opus.NewDecoder(sampleRate, channels) *)
  Initialize : result unit;     (* portaudio.Initialize(), if the guard calls it *)
  host : Host                   (* HostApis, OpenStream and stream.Start *)
}.

(** The calls made on the output stream, oldest first. *)
Inductive StreamCall : Type :=
  | StreamOpened (device : DeviceInfo) (chans : Z) (rate : Z) (framesPerBuffer : Z)
  | StreamStartCalled (ok : bool)
  | StreamStopCalled
  | StreamCloseCalled.

(** The local variables of [blackHoleTrack] that outlive one iteration,
    and what the stream callback has handed to the driver. *)
Record State : Type := mkState {
  buffer : list Z;                      (* []int16, frameSize *)
  pcm : list Z;                         (* []int16, frameSize: decoded PCM data *)
  audioDataChan : Chan (list float32);  (* make(chan []float32, 8) *)
  packetCount : Z;
  hasSoundData : bool;
  played : list (list float32)          (* the [out] buffers after each callback *)
}.

(** Find BlackHole output device: the test of the scan. *)
Definition is_blackhole_output (dev : DeviceInfo) : bool :=
  (MaxOutputChannels dev >? 0) && strings_Contains (Name dev) "BlackHole".

(** [for i := from; i < len(out); i++ { out[i] = 0 }], with [k] rounds to go. *)
Fixpoint fill_silence (k : nat) (i : Z) (out : list float32) : result (list float32) :=
  match k with
  | O => Ok out
  | S k' =>
      match store out i (S754_zero false : float32) with
      | Ok out => fill_silence k' (i + 1) out
      | other => other
      end
  end.

(** The stream callback: [out] is the buffer the driver wants filled. The
    result is the buffer as the callback leaves it. *)
Definition callback (out : list float32) : M (Chan (list float32)) (list float32) :=
  fun ch =>
  match recv ch with
  | (ch', RecvValue newData) =>
      (* Copy new data to output buffer *)
      let n := Z.of_nat (Nat.min (length out) (length newData)) in
      let out := go_copy out newData in
      if n <? len out then
        (* If data is insufficient, fill the remaining part with silence *)
        (ch', fill_silence (Z.to_nat (len out - n)) n out)
      else (ch', Ok out)
  | (ch', RecvClosed) =>
      (* a closed channel delivers the zero value, a nil slice *)
      if 0 <? len out then (ch', fill_silence (Z.to_nat (len out)) 0 out)
      else (ch', Ok out)
  | (ch', RecvBlocks) =>
      (* If no data in channel, output silence *)
      (ch', fill_silence (length out) 0 out)
  end.

(** Convert int16 to float32 range [-1.0, 1.0]. *)
Definition sample_float (b : Z) : float32 :=
  f32_div (f32.of_Z b) (f32.of_Z 32767).

(** [for c := 0; c < channels; c++ { newBuffer[i*channels+c] = val }], from
    [c] on with [k] rounds to go. *)
Fixpoint channel_loop (k : nat) (i c : Z) (val : float32) (newBuffer : list float32)
  : result (list float32) :=
  match k with
  | O => Ok newBuffer
  | S k' =>
      match store newBuffer (GoInt.add (GoInt.mul i channels) c) val with
      | Ok newBuffer => channel_loop k' i (c + 1) val newBuffer
      | other => other
      end
  end.

(** Convert int16 data to float32 for portaudio output: the loop over
    [i < n], from [i] on with [k] rounds to go. *)
Fixpoint float_loop (k : nat) (i : Z) (buffer : list Z) (newBuffer : list float32)
  : result (list float32) :=
  match k with
  | O => Ok newBuffer
  | S k' =>
      match buffer !! Z.to_nat i with
      | None => Panic "index out of range"
      | Some b =>
          let val := sample_float b in
          (* For stereo output, copy to two channels *)
          match channel_loop (Z.to_nat channels) i 0 val newBuffer with
          | Ok newBuffer => float_loop k' (i + 1) buffer newBuffer
          | other => other
          end
      end
  end.

(** One pass through the body of the [for] loop. [Some r] means that
    [blackHoleTrack] returns [r]; [None] that the loop goes round again. *)
Definition iter (ev : TrackEvent) (t : State) : State * option (result unit) :=
  match ev with
  | EvDone => (t, Some (Ok tt)) (* Graceful exit *)
  | EvReadError err =>
      (* Check if it's due to connection closure (EOF) or other serious error *)
      if is_EOF err || strings_Contains (error_message err) "closed" then
        (t, Some (Ok tt)) (* Connection closed, exit directly *)
      else (t, None) (* Other temporarily error, continue to try *)
  | EvPacket payload decoded =>
      match decoded with
      | DecodeError _ => (t, None) (* a decoding error, record but continue *)
      | DecodedFrame frame =>
          if len frame >? len (pcm t) then
            (* the decoder reports that its output buffer is too small *)
            (t, None)
          else
            let n := len frame in
            let pcm' := go_copy (pcm t) frame in
            (* Copy decoded data to playback buffer *)
            let buffer' := go_copy (buffer t) (slice pcm' 0 n) in
            (* Check if it's valid audio (not all 0 or close to 0) *)
            let hasSound := existsb (fun b => abs b >? 0) (slice buffer' 0 n) in
            let hasSoundData' := if hasSound then true else hasSoundData t in
            (* Create new output buffer for PortAudio callback *)
            let newBuffer :=
              replicate (Z.to_nat (GoInt.mul n channels)) (S754_zero false : float32) in
            (* Convert int16 data to float32 for portaudio output *)
            match float_loop (Z.to_nat n) 0 buffer' newBuffer with
            | Err e => (t, Some (Err e))
            | Panic msg => (t, Some (Panic msg))
            | Ok newBuffer =>
                (* Non-blocking send to audio channel *)
                match select_send_default newBuffer (audioDataChan t) with
                | (ch, Panic msg) =>
                    (mkState buffer' pcm' ch (packetCount t) hasSoundData' (played t),
                     Some (Panic msg))
                | (ch, _) =>
                    (* Successfully sent, or channel is full: discard current data *)
                    (mkState buffer' pcm' ch
                             (* Update packet count *)
                             (GoInt.add (packetCount t) 1) hasSoundData' (played t),
                     None)
                end
            end
      end
  end.

(** What happens while the loop runs: the loop makes a pass, or the driver
    calls the stream callback with a buffer to fill. *)
Inductive Event : Type :=
  | Pass (ev : TrackEvent)
  | DriverCallback (out : list float32).

Definition on_callback (out : list float32) (t : State) : State * option (result unit) :=
  match callback out (audioDataChan t) with
  | (ch, Ok out') =>
      (mkState (buffer t) (pcm t) ch (packetCount t) (hasSoundData t)
               (played t ++ [out']), None)
  | (ch, Err e) => (t, Some (Err e))
  | (ch, Panic msg) => (t, Some (Panic msg))
  end.

(** The [for] loop and the callbacks the driver makes meanwhile, over the
    events met. [None] means that the loop is still running when the
    events are used up. *)
Fixpoint loop (evs : list Event) (t : State) : State * option (result unit) :=
  match evs with
  | [] => (t, None)
  | e :: rest =>
      match (match e with
             | Pass ev => iter ev t
             | DriverCallback out => on_callback out t
             end) with
      | (t', None) => loop rest t'
      | (t', Some r) => (t', Some r)
      end
  end.

(** The state in which the loop is entered. *)
Definition State0 : State :=
  mkState (replicate (Z.to_nat frameSize) 0) (replicate (Z.to_nat frameSize) 0)
          (make_chan (list float32) 8) 0 false [].

(** What a run of [blackHoleTrack] leaves behind: the driver guard, the
    calls made on the output stream, the locals if the loop was entered,
    and the returned error ([Ok] for [return nil]) or [None] when the
    function has not returned. *)
Record Outcome : Type := mkOutcome {
  guard : Driver;
  streamCalls : list StreamCall;
  locals : option State;
  returned : option (result unit)
}.

Definition blackHoleTrack (setup : Setup) (evs : list Event) (d : Driver) : Outcome :=
  (* Create Opus decoder *)
  match NewDecoder setup with
  | Err e => mkOutcome d [] None (Some (Err e))
  | Panic msg => mkOutcome d [] None (Some (Panic msg))
  | Ok _ =>
      (* Use portaudio to output to BlackHole *)
      match SafePortAudioInit (Initialize setup) d with
      | (d, Err e) => mkOutcome d [] None (Some (Err e))
      | (d, Panic msg) => mkOutcome d [] None (Some (Panic msg))
      | (d, Ok _) =>
          (* defer SafePortAudioTerminate() *)
          match HostApis (host setup) with
          | Err e => mkOutcome (SafePortAudioTerminate d) [] None (Some (Err e))
          | Panic msg => mkOutcome (SafePortAudioTerminate d) [] None (Some (Panic msg))
          | Ok apis =>
              (* Find BlackHole output device *)
              match scan_apis is_blackhole_output apis None with
              | None =>
                  mkOutcome (SafePortAudioTerminate d) [] None
                            (Some (Err (errorString "no BlackHole device found")))
              | Some outputDevice =>
                  (* Create and start output stream *)
                  match OpenStream (host setup) with
                  | Err e => mkOutcome (SafePortAudioTerminate d) [] None (Some (Err e))
                  | Panic msg =>
                      mkOutcome (SafePortAudioTerminate d) [] None (Some (Panic msg))
                  | Ok _ =>
                      (* defer stream.Close() *)
                      let opened := StreamOpened outputDevice channels sampleRate frameSize in
                      match StreamStart (host setup) with
                      | Err e =>
                          mkOutcome (SafePortAudioTerminate d)
                                    [opened; StreamStartCalled false; StreamCloseCalled]
                                    None (Some (Err e))
                      | Panic msg =>
                          mkOutcome (SafePortAudioTerminate d)
                                    [opened; StreamStartCalled false; StreamCloseCalled]
                                    None (Some (Panic msg))
                      | Ok _ =>
                          (* defer stream.Stop() *)
                          match loop evs State0 with
                          | (t, None) =>
                              mkOutcome d [opened; StreamStartCalled true] (Some t) None
                          | (t, Some r) =>
                              (* the deferred calls, last registered first *)
                              mkOutcome (SafePortAudioTerminate d)
                                        [opened; StreamStartCalled true;
                                         StreamStopCalled; StreamCloseCalled]
                                        (Some t) (Some r)
                          end
                      end
                  end
              end
          end
      end
  end.

End BlackHole.

(** The silence of [n] samples, and a batch cut or padded with silence to
    [n] samples. *)
Definition silence (n : nat) : list float32 := replicate n (S754_zero false : float32).

Definition fit (n : nat) (data : list float32) : list float32 :=
  take n data ++ silence (n - length data).

(** The events of [evs] on which the redirect loop returns. *)
Definition redirect_terminal (e : BlackHole.Event) : bool :=
  match e with
  | BlackHole.Pass ev => terminal ev
  | BlackHole.DriverCallback _ => false
  end.

(** The constants of the sample conversions, evaluated. *)
Definition f32_one : float32 := Eval vm_compute in f32.of_Z 1.
Definition f32_minus_one : float32 := Eval vm_compute in f32.of_Z (-1).
Definition f32_32767 : float32 := Eval vm_compute in f32.of_Z 32767.

(** A sample of the redirect path sent through the conversion of the send
    path: the test of the round trip, and of the range [-1.0, 1.0]. *)
Definition round_trip_check (b : Z) : bool :=
  let x := f32_div (f32.of_Z b) f32_32767 in
  let clamped :=
    if f32.gtb x f32_one then f32_one
    else if f32.ltb x f32_minus_one then f32_minus_one
    else x in
  (f32.to_int16 (f32.mul clamped f32_32767) =? (if b =? -32768 then -32767 else b))
  && eqb (f32.leb x f32_one && f32.leb f32_minus_one x) (negb (b =? -32768)).

(** A test on every [int16] value. *)
Definition all_int16 (p : Z -> bool) : bool :=
  forallb (fun h => forallb (fun l => p (256 * h + l - 32768)) (seqZ 0 256))
          (seqZ 0 256).

(** The slices and the channel of the redirect loop keep their shape. *)
Definition redirect_wf (t : BlackHole.State) : Prop :=
  len (BlackHole.buffer t) = frameSize /\ len (BlackHole.pcm t) = frameSize
  /\ chanClosed (BlackHole.audioDataChan t) = false.

(** ** Further definitions used to state the properties *)

(** One operation on the driver guard. *)
Inductive GuardOp : Type :=
  | Acquire (initialize : result unit)   (* SafePortAudioInit, and what the driver answers *)
  | Release.                             (* SafePortAudioTerminate *)

Definition guard_step (d : Driver) (op : GuardOp) : Driver :=
  match op with
  | Acquire o => fst (SafePortAudioInit o d)
  | Release => SafePortAudioTerminate d
  end.

Definition guard_run (ops : list GuardOp) (d : Driver) : Driver :=
  fold_left guard_step ops d.

(** The driver is initialized: the last call that reached it is a
    successful [portaudio.Initialize()]. *)
Definition physically_initialized (d : Driver) : Prop :=
  last (paCalls d) = Some (PaInitialize true).

(** The capture callback run on each of [inputs] in turn. *)
Definition offerAll (inputs : list (list float32))
    (st : Chan (list float32) * list string) : Chan (list float32) * list string :=
  fold_left (fun st input => fst (LoopbackRecorder.callback input st)) inputs st.

(** The line the capture callback prints when it drops a batch. *)
Definition full_warning : string :=
  "Warning: Sample channel is full, discarding one frame".

(** The unsigned 16-bit little-endian field of [data] at byte offset [off]. *)
Definition field16 (data : list Z) (off : nat) : Z :=
  le_value (take 2 (drop off data)).

(** The bytes of a file outside the two size fields of the header. *)
Definition outside_size_fields (i : nat) : Prop :=
  (i < 4 \/ 8 <= i < 40 \/ 44 <= i)%nat.

(** What a file reads at [i] once it has been extended to [n] bytes: a
    hole reads as zero. *)
Definition read_extended (data : list Z) (n i : nat) : option Z :=
  match data !! i with
  | Some b => Some b
  | None => if (i <? n)%nat then Some 0 else None
  end.

(** The bytes of a frame of [int16] samples: low byte first. *)
Definition frame_bytes (frame : list Z) : list Z :=
  flat_map (fun b => [GoInt.byte b; GoInt.byte (Z.shiftr b 8)]) frame.

(** The frames the receive loop gets out of the decoder: a frame longer
    than the [pcm] slice is a decode error. *)
Definition decoded_frames (evs : list TrackEvent) : list (list Z) :=
  flat_map (fun ev =>
              match ev with
              | EvPacket _ (DecodedFrame frame) =>
                  if len frame >? frameSize then [] else [frame]
              | _ => []
              end) evs.

(** The byte stream of a run of the receive loop. *)
Definition pcm_stream (evs : list TrackEvent) : list Z :=
  concat (map frame_bytes (decoded_frames evs)).

(** A sample that is a number other than zero. *)
Definition is_sound (x : float32) : bool :=
  match x with
  | S754_finite _ _ _ | S754_infinity _ => true
  | S754_zero _ | S754_nan => false
  end.

(** The values the running peak of the send loop takes: a zero, or a
    positive number or infinity. *)
Definition level_ok (x : float32) : bool :=
  match x with
  | S754_zero _ | S754_infinity false | S754_finite false _ _ => true
  | _ => false
  end.

(** * Properties *)

(** ** Machine integers and little-endian fields *)

Lemma to_signed_small w x :
  0 < w -> - 2 ^ (w - 1) <= x < 2 ^ (w - 1) -> GoInt.to_signed w x = x.
Proof.
  intros Hw Hx. unfold GoInt.to_signed.
  assert (E : 2 ^ w = 2 * 2 ^ (w - 1)).
  { replace w with (Z.succ (w - 1)) at 1 by lia. rewrite Z.pow_succ_r; lia. }
  rewrite Z.mod_small; lia.
Qed.

Lemma int_small x : - 2 ^ 63 <= x < 2 ^ 63 -> GoInt.int x = x.
Proof. intros H. apply to_signed_small; simpl; lia. Qed.

Lemma int64_small x : - 2 ^ 63 <= x < 2 ^ 63 -> GoInt.int64 x = x.
Proof. exact (int_small x). Qed.

Lemma mod_mod_mul x a b : 0 < a -> 0 < b -> (x mod (a * b)) mod a = x mod a.
Proof.
  intros Ha Hb.
  rewrite (Z.div_mod x (a * b)) at 2 by lia.
  replace (a * b * (x / (a * b)) + x mod (a * b))
    with (x mod (a * b) + (b * (x / (a * b))) * a) by ring.
  now rewrite Z.mod_add by lia.
Qed.

Lemma to_signed_mod w x : 0 < w -> GoInt.to_signed w x mod 2 ^ w = x mod 2 ^ w.
Proof.
  intros Hw. unfold GoInt.to_signed.
  assert (0 < 2 ^ w) by (apply Z.pow_pos_nonneg; lia).
  assert (E : 2 ^ w = 2 * 2 ^ (w - 1)).
  { replace w with (Z.succ (w - 1)) at 1 by lia. rewrite Z.pow_succ_r; lia. }
  set (h := 2 ^ (w - 1)) in *.
  rewrite Zminus_mod, Zmod_mod, <- Zminus_mod.
  f_equal. lia.
Qed.

(** Narrowing a wrapped 64-bit value to 32 bits forgets the wrap. *)
Lemma uint32_int64 x : GoInt.uint32 (GoInt.int64 x) = GoInt.uint32 x.
Proof.
  unfold GoInt.uint32, GoInt.to_unsigned, GoInt.int64.
  rewrite <- (mod_mod_mul (GoInt.to_signed 64 x) (2 ^ 32) (2 ^ 32)) by lia.
  rewrite <- (mod_mod_mul x (2 ^ 32) (2 ^ 32)) by lia.
  change (2 ^ 32 * 2 ^ 32) with (2 ^ 64).
  now rewrite to_signed_mod by lia.
Qed.

Lemma uint32_add_mod a b :
  GoInt.uint32 (a + b) = GoInt.uint32 (GoInt.uint32 a + b).
Proof.
  unfold GoInt.uint32, GoInt.to_unsigned.
  now rewrite Zplus_mod_idemp_l.
Qed.

Lemma byte_mod x : GoInt.byte x = x mod 256.
Proof.
  unfold GoInt.byte. change 255 with (Z.ones 8).
  now rewrite (Z.land_ones x 8) by lia.
Qed.

Lemma length_le_bytes n v : length (le_bytes n v) = n.
Proof. revert v. induction n; intros; simpl; auto. Qed.

Lemma le_value_le_bytes n v :
  le_value (le_bytes n v) = v mod 2 ^ (8 * Z.of_nat n).
Proof.
  revert v. induction n as [|n IH]; intros v.
  - simpl. now rewrite Z.mod_1_r.
  - cbn [le_bytes le_value]. rewrite IH, byte_mod, Z.shiftr_div_pow2 by lia.
    replace (8 * Z.of_nat (S n)) with (8 + 8 * Z.of_nat n) by lia.
    rewrite Z.pow_add_r by lia. change (2 ^ 8) with 256.
    rewrite Z.rem_mul_r by lia. reflexivity.
Qed.

Lemma le_value_le_bytes_4 v :
  0 <= v < 2 ^ 32 -> le_value (le_bytes 4 v) = v.
Proof.
  intros H. rewrite le_value_le_bytes. change (8 * Z.of_nat 4) with 32.
  now apply Z.mod_small.
Qed.

Lemma uint32_range x : 0 <= GoInt.uint32 x < 2 ^ 32.
Proof. unfold GoInt.uint32, GoInt.to_unsigned. apply Z.mod_pos_bound. lia. Qed.

(** ** The WAV writer *)

Lemma pwrite_at_end data bs : os.pwrite data (length data) bs = data ++ bs.
Proof.
  unfold os.pwrite.
  rewrite firstn_all, Nat.sub_diag, drop_ge by lia.
  simpl. now rewrite app_nil_r.
Qed.

Lemma Write_at_end bs f :
  at_end f -> os.Write bs f = (append_file f bs, Ok (len bs)).
Proof.
  intros [Hc Ho]. unfold os.Write, append_file. rewrite Hc, Ho.
  unfold len at 1. rewrite Nat2Z.id, pwrite_at_end. reflexivity.
Qed.

Lemma at_end_append f bs : at_end f -> at_end (append_file f bs).
Proof.
  intros [Hc Ho]. split; [reflexivity|].
  unfold append_file, len in *. simpl. rewrite length_app. lia.
Qed.

Lemma bind_Write_at_end {A} bs (k : Z -> M os.File A) f :
  at_end f -> bind (os.Write bs) k f = k (len bs) (append_file f bs).
Proof. intros H. unfold bind. now rewrite Write_at_end. Qed.

Lemma at_end_Create : at_end os.Create.
Proof. split; reflexivity. Qed.

Create HintDb wav.
#[local] Hint Resolve at_end_append at_end_Create : wav.

(** The header that [localTrack] writes: 48 kHz, mono, 16 bits. *)
Example writeWavHeader_48k :
  writeWavHeader 48000 1 16 os.Create =
  (os.mkFile [82; 73; 70; 70; 0; 0; 0; 0; 87; 65; 86; 69; 102; 109; 116; 32;
              16; 0; 0; 0; 1; 0; 1; 0; 128; 187; 0; 0; 0; 119; 1; 0;
              2; 0; 16; 0; 100; 97; 116; 97; 0; 0; 0; 0] 44 false, Ok tt).
Proof. vm_compute. reflexivity. Qed.

(** [writeWavHeader] on a new file succeeds and leaves the 44 header bytes,
    both size fields zero. *)
Lemma writeWavHeader_Create sr ch bits :
  writeWavHeader sr ch bits os.Create =
  (os.mkFile (wav_header sr ch bits [0; 0; 0; 0] [0; 0; 0; 0]) 44 false, Ok tt).
Proof.
  unfold writeWavHeader, binary_Write, os.WriteString.
  repeat (rewrite bind_Write_at_end by auto 20 with wav;
          try match goal with |- bind (ret tt) _ _ = _ => unfold bind at 1, ret at 1 end).
  unfold ret, append_file, wav_header, wav_header_mid. simpl os.contents.
  rewrite <- !app_assoc. reflexivity.
Qed.

Lemma length_wav_header_mid sr ch bits : length (wav_header_mid sr ch bits) = 32%nat.
Proof. unfold wav_header_mid. rewrite !length_app, !length_le_bytes. reflexivity. Qed.

Lemma length_wav_header sr ch bits a b :
  length a = 4%nat -> length b = 4%nat ->
  length (wav_header sr ch bits a b) = 44%nat.
Proof.
  intros Ha Hb. unfold wav_header.
  rewrite !length_app, length_wav_header_mid, Ha, Hb. reflexivity.
Qed.

(** Overwriting a stretch in the middle of a file. *)
Lemma pwrite_mid pre old post bs :
  length old = length bs ->
  os.pwrite (pre ++ old ++ post) (length pre) bs = pre ++ bs ++ post.
Proof.
  intros Hl. unfold os.pwrite.
  rewrite take_app_length.
  replace (length pre - length (pre ++ old ++ post))%nat with 0%nat
    by (rewrite !length_app; lia).
  rewrite drop_app_add, (drop_app_length' old post) by lia.
  reflexivity.
Qed.

Lemma field32_at pre a post :
  length a = 4%nat -> field32 (pre ++ a ++ post) (length pre) = le_value a.
Proof.
  intros Ha. unfold field32.
  rewrite drop_app_length, take_app_length' by lia. reflexivity.
Qed.

(** The size fields of a file that starts with a header. *)
Lemma field32_header_4 sr ch bits a b data :
  length a = 4%nat ->
  field32 (wav_header sr ch bits a b ++ data) 4 = le_value a.
Proof.
  intros Ha. unfold wav_header. rewrite <- !app_assoc.
  exact (field32_at (bytes_of_string "RIFF") a _ Ha).
Qed.

Lemma field32_header_40 sr ch bits a b data :
  length a = 4%nat -> length b = 4%nat ->
  field32 (wav_header sr ch bits a b ++ data) 40 = le_value b.
Proof.
  intros Ha Hb. unfold wav_header.
  replace ((bytes_of_string "RIFF" ++ a ++ wav_header_mid sr ch bits ++ b) ++ data)
    with ((bytes_of_string "RIFF" ++ a ++ wav_header_mid sr ch bits) ++ b ++ data)
    by (rewrite <- !app_assoc; reflexivity).
  replace 40%nat with (length (bytes_of_string "RIFF" ++ a ++ wav_header_mid sr ch bits))
    by (rewrite !length_app, length_wav_header_mid, Ha; reflexivity).
  now apply field32_at.
Qed.

(** [updateWavHeader] on an open file that starts with a header: the two
    size fields are replaced, nothing else changes. *)
Lemma updateWavHeader_header sr ch bits a b data off dataSize :
  length a = 4%nat -> length b = 4%nat ->
  updateWavHeader dataSize (os.mkFile (wav_header sr ch bits a b ++ data) off false) =
  (os.mkFile
     (wav_header sr ch bits
        (le_bytes 4 (GoInt.uint32 (GoInt.int64 (dataSize + 36))))
        (le_bytes 4 (GoInt.uint32 dataSize)) ++ data)
     8 false,
   Ok tt).
Proof.
  intros Ha Hb.
  unfold updateWavHeader, binary_Write, bind, os.Seek, os.Write, ret.
  cbn [os.closed os.contents os.offset Z.eqb Z.ltb Z.compare].
  f_equal. f_equal.
  change (Z.to_nat 4) with (length (bytes_of_string "RIFF")).
  unfold wav_header.
  set (mid := wav_header_mid sr ch bits).
  assert (Hm : length mid = 32%nat) by apply length_wav_header_mid.
  set (b' := le_bytes 4 (GoInt.uint32 dataSize)).
  assert (Hb' : length b' = 4%nat) by apply length_le_bytes.
  set (a' := le_bytes 4 (GoInt.uint32 (GoInt.int64 (dataSize + 36)))).
  assert (Ha' : length a' = 4%nat) by apply length_le_bytes.
  replace (os.pwrite ((bytes_of_string "RIFF" ++ a ++ mid ++ b) ++ data) (Z.to_nat 40) b')
    with ((bytes_of_string "RIFF" ++ a ++ mid) ++ b' ++ data).
  - rewrite <- !app_assoc.
    rewrite (pwrite_mid (bytes_of_string "RIFF") a (mid ++ b' ++ data) a') by lia.
    reflexivity.
  - replace (Z.to_nat 40) with (length (bytes_of_string "RIFF" ++ a ++ mid))
      by (rewrite !length_app, Hm, Ha; reflexivity).
    replace ((bytes_of_string "RIFF" ++ a ++ mid ++ b) ++ data)
      with ((bytes_of_string "RIFF" ++ a ++ mid) ++ b ++ data)
      by (rewrite <- !app_assoc; reflexivity).
    rewrite pwrite_mid by lia. reflexivity.
Qed.


Lemma uint32_add_int64_r a b :
  GoInt.uint32 (a + GoInt.int64 b) = GoInt.uint32 (a + b).
Proof.
  rewrite (Z.add_comm a), uint32_add_mod, uint32_int64, <- uint32_add_mod.
  f_equal. lia.
Qed.

Lemma saveAudio_at_end w t f :
  audioFile t = Some f -> at_end f ->
  saveAudio w t =
  mkTrack (Some (append_file f w)) (audioBuffer t) (buffer t) (pcm t) (samples t)
          (packetCount t) (GoInt.int64 (totalAudioBytes t + GoInt.int64 (len w)))
          (hasSoundData t).
Proof.
  intros Hf He. unfold saveAudio. rewrite Hf, Write_at_end by assumption.
  reflexivity.
Qed.

(** After a run of writes the file has grown by exactly the bytes written,
    and the running total agrees with their number in its low 32 bits. *)
Lemma saveAll_at_end writes : forall t f,
  audioFile t = Some f -> at_end f ->
  exists f' total',
    saveAll writes t =
      mkTrack (Some f') (audioBuffer t) (buffer t) (pcm t) (samples t)
              (packetCount t) total' (hasSoundData t)
    /\ at_end f'
    /\ os.contents f' = os.contents f ++ concat writes
    /\ GoInt.uint32 total' = GoInt.uint32 (totalAudioBytes t + len (concat writes))
    /\ GoInt.uint32 (GoInt.int64 (total' + 36))
       = GoInt.uint32 (totalAudioBytes t + len (concat writes) + 36).
Proof.
  induction writes as [|w ws IH]; intros t f Hf He.
  - exists f, (totalAudioBytes t). cbn [saveAll fold_left concat].
    rewrite app_nil_r. unfold len at 1 2. cbn [length Z.of_nat].
    rewrite !Z.add_0_r, uint32_int64.
    destruct t; cbn in *; subst; auto.
  - unfold saveAll. cbn [fold_left]. fold (saveAll ws (saveAudio w t)).
    rewrite (saveAudio_at_end w t f Hf He).
    set (t1 := mkTrack _ _ _ _ _ _ _ _).
    destruct (IH t1 (append_file f w) eq_refl (at_end_append f w He))
      as (f' & total' & Heq & He' & Hc & Ht & Ht36).
    exists f', total'. rewrite Heq. subst t1.
    cbn [audioBuffer buffer pcm samples packetCount hasSoundData totalAudioBytes] in *.
    split; [reflexivity|]. split; [assumption|].
    assert (Hlen : len (concat (w :: ws)) = len w + len (concat ws)).
    { unfold len. cbn [concat]. rewrite length_app. lia. }
    split; [|split].
    + rewrite Hc. unfold append_file. cbn [os.contents concat].
      now rewrite app_assoc.
    + rewrite Ht, Hlen, uint32_add_mod, uint32_int64, uint32_add_int64_r,
        <- uint32_add_mod.
      f_equal. lia.
    + rewrite Ht36, Hlen, <- Z.add_assoc, uint32_add_mod, uint32_int64,
        uint32_add_int64_r, <- uint32_add_mod.
      f_equal. lia.
Qed.

Lemma Track0_file nd nc :
  audioFile (Track0 (mkTrackSetup nd nc (Ok tt))) =
  Some (os.mkFile (wav_header sampleRate 1 16 [0; 0; 0; 0] [0; 0; 0; 0]) 44 false).
Proof.
  unfold Track0. cbn [Create audioFile]. now rewrite writeWavHeader_Create.
Qed.

Lemma le_bytes_4_mod v a :
  GoInt.uint32 v = GoInt.uint32 a ->
  le_value (le_bytes 4 (GoInt.uint32 v)) = a mod 2 ^ 32.
Proof.
  intros H. rewrite le_value_le_bytes_4 by apply uint32_range.
  rewrite H. reflexivity.
Qed.

(** The file that the writes and the finalize step of [localTrack] leave:
    the header with its two size fields patched, then the data. *)
Lemma finalize_file nd nc writes :
  exists f riff data,
    audioFile (finalize (saveAll writes (Track0 (mkTrackSetup nd nc (Ok tt))))) = Some f
    /\ os.contents f = wav_header sampleRate 1 16 riff data ++ concat writes
    /\ length riff = 4%nat /\ length data = 4%nat
    /\ le_value data = len (concat writes) mod 2 ^ 32
    /\ le_value riff = (len (concat writes) + 36) mod 2 ^ 32.
Proof.
  destruct (saveAll_at_end writes _ _ (Track0_file nd nc))
    as (f' & total' & Heq & He' & Hc & Ht & Ht36).
  { split; reflexivity. }
  unfold finalize. rewrite Heq. cbn [audioFile totalAudioBytes set_audioFile].
  destruct f' as [c o cl]. destruct He' as [Hcl Ho].
  cbn [os.closed] in Hcl. cbn [os.contents] in Hc. subst cl c.
  rewrite updateWavHeader_header by reflexivity.
  eexists _, _, _. split; [reflexivity|].
  cbn [fst os.contents]. split; [reflexivity|].
  rewrite !length_le_bytes. split; [reflexivity|]. split; [reflexivity|].
  cbn [totalAudioBytes Track0] in Ht, Ht36. rewrite Z.add_0_l in Ht, Ht36.
  split.
  - now apply le_bytes_4_mod.
  - rewrite le_value_le_bytes_4 by apply uint32_range. exact Ht36.
Qed.

(** C1 (amended). [localTrack] creates the audio file by writing the fixed
    44-byte RIFF/WAVE header with both size fields zero. After any sequence
    of writes totalling [D] bytes and the finalize step, the data follow the
    header unchanged, the 32-bit little-endian field at offset 40 holds
    [D mod 2^32] and the field at offset 4 holds [(D + 36) mod 2^32]; these
    are [D] and [D + 36] as long as [D + 36 < 2^32]. *)
Theorem wav_size_fields_mod (nd nc : result unit) (writes : list (list Z)) :
  let created := Track0 (mkTrackSetup nd nc (Ok tt)) in
  let D := len (concat writes) in
  (exists f0,
      audioFile created = Some f0
      /\ os.contents f0 = wav_header sampleRate 1 16 [0; 0; 0; 0] [0; 0; 0; 0]
      /\ length (os.contents f0) = 44%nat
      /\ take 4 (os.contents f0) = bytes_of_string "RIFF"
      /\ take 4 (drop 8 (os.contents f0)) = bytes_of_string "WAVE"
      /\ field32 (os.contents f0) 4 = 0
      /\ field32 (os.contents f0) 40 = 0)
  /\ exists f,
      audioFile (finalize (saveAll writes created)) = Some f
      /\ length (os.contents f) = (44 + length (concat writes))%nat
      /\ drop 44 (os.contents f) = concat writes
      /\ field32 (os.contents f) 40 = D mod 2 ^ 32
      /\ field32 (os.contents f) 4 = (D + 36) mod 2 ^ 32
      /\ (D + 36 < 2 ^ 32 ->
          field32 (os.contents f) 40 = D /\ field32 (os.contents f) 4 = D + 36).
Proof.
  intros created D. split.
  - eexists. split; [apply Track0_file|]. cbn [os.contents].
    repeat split; vm_compute; reflexivity.
  - destruct (finalize_file nd nc writes) as (f & riff & data & Hf & Hc & Hr & Hd & Vd & Vr).
    exists f. split; [exact Hf|]. rewrite Hc.
    assert (H40 : field32 (wav_header sampleRate 1 16 riff data ++ concat writes) 40
                  = D mod 2 ^ 32)
      by (rewrite field32_header_40 by assumption; exact Vd).
    assert (H4 : field32 (wav_header sampleRate 1 16 riff data ++ concat writes) 4
                 = (D + 36) mod 2 ^ 32)
      by (rewrite field32_header_4 by assumption; exact Vr).
    split; [|split; [|split; [|split]]]; try assumption.
    + rewrite length_app, length_wav_header by assumption. reflexivity.
    + apply drop_app_length'. now rewrite length_wav_header.
    + intros Hsmall. rewrite H40, H4.
      assert (0 <= D) by (unfold D, len; lia).
      rewrite !Z.mod_small by lia. split; reflexivity.
Qed.

Lemma wav_size_fields_mod_witness :
  exists f,
    audioFile (finalize (saveAll [[1; 2]; [3]] (Track0 track_setup_ok))) = Some f
    /\ drop 44 (os.contents f) = [1; 2; 3]
    /\ field32 (os.contents f) 40 = 3
    /\ field32 (os.contents f) 4 = 39.
Proof.
  destruct (wav_size_fields_mod (Ok tt) (Ok tt) [[1; 2]; [3]])
    as (_ & f & Hf & _ & Hd & _ & _ & Hsmall).
  exists f. split; [exact Hf|]. split; [exact Hd|].
  apply Hsmall. vm_compute. reflexivity.
Defined.

(** C1 as stated fails once the data no longer fit the 32-bit field: after
    one write of [2^32] bytes the field at offset 40 holds 0, not [2^32]. *)
Lemma wav_size_field_wraps_at_4GiB :
  let writes := [replicate (Nat.pow 2 32) 0] in
  exists f,
    audioFile (finalize (saveAll writes (Track0 (mkTrackSetup (Ok tt) (Ok tt) (Ok tt)))))
      = Some f
    /\ len (concat writes) = 4294967296
    /\ field32 (os.contents f) 40 = 0
    /\ field32 (os.contents f) 40 <> len (concat writes).
Proof.
  intros writes.
  destruct (finalize_file (Ok tt) (Ok tt) writes)
    as (f & riff & data & Hf & Hc & Hr & Hd & Vd & Vr).
  assert (HD : len (concat writes) = 4294967296).
  { subst writes. unfold len. rewrite concat_cons, concat_nil, app_nil_r.
    rewrite length_replicate, Nat2Z.inj_pow. reflexivity. }
  exists f. split; [exact Hf|]. split; [exact HD|].
  rewrite Hc, field32_header_40, Vd, HD by assumption.
  split; [reflexivity | discriminate].
Qed.

(** ** The driver lifecycle guard *)

Lemma SafePortAudioInit_held o c calls :
  0 < c < GoInt.max_int ->
  SafePortAudioInit o (mkDriver c calls) = (mkDriver (c + 1) calls, Ok tt).
Proof.
  intros Hc. unfold SafePortAudioInit, GoInt.max_int in *. cbn [paInitCount paCalls].
  destruct (Z.eqb_spec c 0) as [->|_]; [lia|].
  unfold GoInt.add. rewrite int_small by lia. reflexivity.
Qed.

Lemma acquireAll_held outs : forall c calls,
  0 < c -> c + len outs <= GoInt.max_int ->
  acquireAll outs (mkDriver c calls) =
  (mkDriver (c + len outs) calls, replicate (length outs) (Ok tt)).
Proof.
  induction outs as [|o outs IH]; intros c calls Hc Hb.
  - cbn. now rewrite Z.add_0_r.
  - cbn [acquireAll length replicate].
    assert (Hl : len (o :: outs) = 1 + len outs) by (unfold len; cbn [length]; lia).
    rewrite Hl in *.
    rewrite SafePortAudioInit_held by (unfold GoInt.max_int in *; unfold len in *; lia).
    rewrite IH by lia. do 2 f_equal. lia.
Qed.

Lemma SafePortAudioTerminate_held c calls :
  1 < c <= GoInt.max_int ->
  SafePortAudioTerminate (mkDriver c calls) = mkDriver (c - 1) calls.
Proof.
  intros Hc. unfold SafePortAudioTerminate, GoInt.sub, GoInt.max_int in *.
  cbn [paInitCount paCalls]. rewrite int_small by lia.
  destruct (Z.leb_spec (c - 1) 0); [lia | reflexivity].
Qed.

Lemma SafePortAudioTerminate_last c calls :
  0 <= c <= 1 ->
  SafePortAudioTerminate (mkDriver c calls) = mkDriver 0 (calls ++ [PaTerminate]).
Proof.
  intros Hc. unfold SafePortAudioTerminate, GoInt.sub.
  cbn [paInitCount paCalls]. rewrite int_small by lia.
  destruct (Z.leb_spec (c - 1) 0); [reflexivity | lia].
Qed.

Lemma releaseN_S n d : releaseN (S n) d = SafePortAudioTerminate (releaseN n d).
Proof. reflexivity. Qed.

Lemma releaseN_held k : forall c calls,
  Z.of_nat k < c <= GoInt.max_int ->
  releaseN k (mkDriver c calls) = mkDriver (c - Z.of_nat k) calls.
Proof.
  induction k as [|k IH]; intros c calls Hc.
  - cbn. f_equal. lia.
  - rewrite releaseN_S, IH by lia.
    rewrite SafePortAudioTerminate_held by lia. f_equal. lia.
Qed.

(** The counter is never negative after a release, whatever it was. *)
Lemma SafePortAudioTerminate_nonneg d : 0 <= paInitCount (SafePortAudioTerminate d).
Proof.
  unfold SafePortAudioTerminate.
  destruct (Z.leb_spec (GoInt.sub (paInitCount d) 1) 0); cbn [paInitCount]; lia.
Qed.

Lemma releaseN_zero k : forall calls,
  paInitCount (releaseN k (mkDriver 0 calls)) = 0.
Proof.
  induction k as [|k IH]; intros calls; [reflexivity|].
  rewrite releaseN_S.
  destruct (releaseN k (mkDriver 0 calls)) as [c cs] eqn:E.
  specialize (IH calls). rewrite E in IH. cbn in IH. subst c.
  now rewrite SafePortAudioTerminate_last by lia.
Qed.

Lemma releaseN_add a b d : releaseN (a + b) d = releaseN b (releaseN a d).
Proof.
  unfold releaseN. rewrite Nat.add_comm. apply Nat.iter_add.
Qed.

(** A failed [portaudio.Initialize()] leaves the counter alone. *)
Lemma SafePortAudioInit_failed o d d' e :
  SafePortAudioInit o d = (d', Err e) -> paInitCount d' = paInitCount d.
Proof.
  unfold SafePortAudioInit.
  destruct (paInitCount d =? 0); [destruct o|]; intros H; inversion H; reflexivity.
Qed.

(** C4. [N >= 1] successful Acquire calls followed by [N] Release calls,
    from the initial state of the process: the driver is initialized once,
    by the first Acquire (counter 0 to 1), and terminated once, by the last
    Release (counter back to 0). Further Release calls leave the counter at
    0, and an Acquire that fails leaves the counter as it was. *)
Theorem guard_reference_counting (outs : list (result unit)) (extra : nat) :
  outs <> [] ->
  len outs <= GoInt.max_int ->
  Forall (fun r => r = Ok tt) (snd (acquireAll outs Driver0)) ->
  let N := length outs in
  let d := fst (acquireAll outs Driver0) in
  fst (acquireAll (take 1 outs) Driver0) = mkDriver 1 [PaInitialize true]
  /\ d = mkDriver (Z.of_nat N) [PaInitialize true]
  /\ (forall k, (k < N)%nat ->
        releaseN k d = mkDriver (Z.of_nat N - Z.of_nat k) [PaInitialize true])
  /\ releaseN N d = mkDriver 0 [PaInitialize true; PaTerminate]
  /\ count_initializes (paCalls (releaseN N d)) = 1%nat
  /\ count_terminates (paCalls (releaseN N d)) = 1%nat
  /\ paInitCount (releaseN (N + extra) d) = 0
  /\ (forall o d0 d' e,
        SafePortAudioInit o d0 = (d', Err e) -> paInitCount d' = paInitCount d0).
Proof.
  intros Hne Hb Hok N d.
  destruct outs as [|o outs]; [congruence|]. clear Hne.
  assert (Ho : SafePortAudioInit o Driver0 = (mkDriver 1 [PaInitialize true], Ok tt)).
  { cbn [acquireAll] in Hok.
    destruct (SafePortAudioInit o Driver0) as [d1 r] eqn:E1.
    destruct (acquireAll outs d1) as [d2 rs]. cbn [snd] in Hok.
    inversion Hok as [|? ? Hr _]; subst.
    unfold SafePortAudioInit, Driver0 in E1. cbn in E1.
    destruct o; inversion E1; reflexivity. }
  assert (Hd : d = mkDriver (Z.of_nat N) [PaInitialize true]).
  { subst d N. cbn [acquireAll]. rewrite Ho.
    unfold len in Hb. cbn [length] in Hb.
    rewrite acquireAll_held by (unfold len; lia).
    cbn [fst length]. f_equal. unfold len. lia. }
  assert (HN : Z.of_nat N <= GoInt.max_int) by exact Hb.
  assert (HN1 : (1 <= N)%nat) by (subst N; cbn; lia).
  assert (Hlast : releaseN N d = mkDriver 0 [PaInitialize true; PaTerminate]).
  { rewrite Hd. replace N with (S (N - 1)) at 1 by lia.
    rewrite releaseN_S, releaseN_held by lia.
    rewrite SafePortAudioTerminate_last by lia. reflexivity. }
  split.
  { cbn [take acquireAll]. now rewrite Ho. }
  split; [exact Hd|]. split.
  { intros k Hk. rewrite Hd. apply releaseN_held. lia. }
  split; [exact Hlast|]. rewrite Hlast.
  split; [reflexivity|]. split; [reflexivity|]. split.
  - rewrite releaseN_add, Hlast. apply releaseN_zero.
  - apply SafePortAudioInit_failed.
Qed.

Lemma guard_reference_counting_witness :
  let outs := [Ok tt; Err EOF; Ok tt] in
  let d := fst (acquireAll outs Driver0) in
  d = mkDriver 3 [PaInitialize true]
  /\ releaseN 2 d = mkDriver 1 [PaInitialize true]
  /\ releaseN 3 d = mkDriver 0 [PaInitialize true; PaTerminate]
  /\ paInitCount (releaseN (3 + 4) d) = 0.
Proof.
  intros outs d.
  assert (H1 : outs <> []) by (subst outs; discriminate).
  assert (H2 : len outs <= GoInt.max_int) by (vm_compute; discriminate).
  assert (H3 : Forall (fun r => r = Ok tt) (snd (acquireAll outs Driver0))).
  { vm_compute. repeat constructor. }
  destruct (guard_reference_counting outs 4 H1 H2 H3)
    as (_ & Hd & Hk & Hl & _ & _ & Hx & _).
  split; [exact Hd|]. split; [apply (Hk 2%nat); vm_compute; lia|].
  split; [exact Hl | exact Hx].
Defined.

(** ** Stopping a recorder or a session *)

(** What holds of a second [Stop]: it returns normally and leaves the
    recorder, its channel included, as the first [Stop] left it; it does
    release the guard once more. *)
Lemma LoopbackRecorder_Stop_again r d r1 d1 :
  LoopbackRecorder.Stop (r, d) = ((r1, d1), Ok tt) ->
  LoopbackRecorder.isClosed r1 = true
  /\ LoopbackRecorder.Stop (r1, d1) = ((r1, SafePortAudioTerminate d1), Ok tt).
Proof.
  unfold LoopbackRecorder.Stop. destruct r as [st ch cl]. cbn.
  destruct cl; cbn.
  - intros H. inversion H; subst. cbn. auto.
  - unfold close. destruct (chanClosed ch) eqn:E; cbn; intros H; inversion H; subst.
    cbn. auto.
Qed.

Lemma OutputCaptureRecorder_Stop_again r d r1 d1 :
  OutputCaptureRecorder.Stop (r, d) = ((r1, d1), Ok tt) ->
  OutputCaptureRecorder.isClosed r1 = true
  /\ OutputCaptureRecorder.Stop (r1, d1) = ((r1, SafePortAudioTerminate d1), Ok tt).
Proof.
  unfold OutputCaptureRecorder.Stop. destruct r as [st ch cl]. cbn.
  destruct cl; cbn.
  - intros H. inversion H; subst. cbn. auto.
  - unfold close. destruct (chanClosed ch) eqn:E; cbn; intros H; inversion H; subst.
    cbn. auto.
Qed.

(** The counter is never negative after a [Stop]. *)
Lemma LoopbackRecorder_Stop_nonneg r d r1 d1 res :
  0 <= paInitCount d ->
  LoopbackRecorder.Stop (r, d) = ((r1, d1), res) -> 0 <= paInitCount d1.
Proof.
  intros Hd. unfold LoopbackRecorder.Stop. destruct r as [st ch cl]. cbn.
  destruct cl; cbn.
  - intros H. inversion H. apply SafePortAudioTerminate_nonneg.
  - destruct (close ch) as [ch' [[]|e|m]]; intros H; inversion H; subst;
      try apply SafePortAudioTerminate_nonneg; assumption.
Qed.

Lemma LoopbackRecorder_Stop_first r d :
  LoopbackRecorder.isClosed r = false ->
  chanClosed (LoopbackRecorder.Samples r) = false ->
  LoopbackRecorder.Stop (r, d) =
  ((LoopbackRecorder.mk None
      (mkChan (queue (LoopbackRecorder.Samples r))
              (capacity (LoopbackRecorder.Samples r)) true) true,
    SafePortAudioTerminate d), Ok tt).
Proof.
  intros Hc Hch. unfold LoopbackRecorder.Stop, close.
  destruct r as [st ch cl]. cbn in *. subst cl. cbn. now rewrite Hch.
Qed.

(** [Session.Stop] on a session as [NewSession] makes it, and once more. *)
Lemma Session_Stop_twice r state d r1 d1 d2 :
  LoopbackRecorder.Stop (r, d) = ((r1, d1), Ok tt) ->
  LoopbackRecorder.Stop (r1, d1) = ((r1, d2), Ok tt) ->
  exists s1,
    Session_Stop (new_session r state, d) = ((s1, d1), Ok tt)
    /\ Session_Stop (s1, d1) = ((s1, d2), Ok tt)
    /\ stopCh s1 = None
    /\ recorder s1 = Some r1.
Proof.
  intros H1 H2.
  exists (mkSession (Some (webrtc.mkPeerConnection true))
            (Some (if bool_decide (state = webrtc.DataChannelStateOpen)
                   then webrtc.mkDataChannel webrtc.DataChannelStateClosed
                                             [cancel_event] None
                   else webrtc.mkDataChannel state [] None))
            None (Some r1) "" "English" "alloy").
  split; [|split; [|split; reflexivity]].
  - unfold Session_Stop, new_session.
    cbn [stopCh recorder dc pc set_stopCh set_recorder set_dc set_pc close make_chan
         chanClosed queue capacity systemPrompt targetLang voice].
    rewrite H1.
    cbn [stopCh recorder dc pc set_stopCh set_recorder set_dc set_pc
         systemPrompt targetLang voice webrtc.ReadyState].
    destruct state; reflexivity.
  - unfold Session_Stop.
    cbn [stopCh recorder dc pc set_stopCh set_recorder set_dc set_pc
         systemPrompt targetLang voice].
    rewrite H2.
    cbn [stopCh recorder dc pc set_stopCh set_recorder set_dc set_pc
         systemPrompt targetLang voice].
    destruct state; reflexivity.
Qed.

(** C2, at the failing input. A recorder [r] shares the driver with other
    users (counter [c >= 2]). Stopping [r] twice raises no panic and closes
    the sample channel once, but the second Stop decrements the counter
    again; from [c = 2] it reaches 0 and the driver is terminated although
    another user still holds it. The counter stays non-negative. The same
    happens when a session over [r] is stopped twice. *)
Theorem stop_twice_releases_guard_twice
    (r : LoopbackRecorder.t) (state : webrtc.DataChannelState)
    (c : Z) (calls : list PaCall) :
  2 <= c <= GoInt.max_int ->
  LoopbackRecorder.isClosed r = false ->
  chanClosed (LoopbackRecorder.Samples r) = false ->
  let d := mkDriver c calls in
  let d1 := mkDriver (c - 1) calls in
  let d2 := if c =? 2 then mkDriver 0 (calls ++ [PaTerminate])
            else mkDriver (c - 2) calls in
  exists r1 s1,
    LoopbackRecorder.Stop (r, d) = ((r1, d1), Ok tt)
    /\ LoopbackRecorder.Stop (r1, d1) = ((r1, d2), Ok tt)
    /\ chanClosed (LoopbackRecorder.Samples r1) = true
    /\ Session_Stop (new_session r state, d) = ((s1, d1), Ok tt)
    /\ Session_Stop (s1, d1) = ((s1, d2), Ok tt)
    /\ recorder s1 = Some r1
    /\ paInitCount d2 = c - 2
    /\ 0 <= paInitCount d2.
Proof.
  intros Hc Hcl Hch d d1 d2.
  assert (Hd1 : SafePortAudioTerminate d = d1).
  { apply SafePortAudioTerminate_held. lia. }
  assert (Hd2 : SafePortAudioTerminate d1 = d2).
  { subst d1 d2. destruct (Z.eqb_spec c 2) as [->|Hne].
    - now apply SafePortAudioTerminate_last.
    - rewrite SafePortAudioTerminate_held by (unfold GoInt.max_int in *; lia).
      f_equal. lia. }
  assert (H1 := LoopbackRecorder_Stop_first r d Hcl Hch). rewrite Hd1 in H1.
  destruct (LoopbackRecorder_Stop_again _ _ _ _ H1) as [_ H2]. rewrite Hd2 in H2.
  destruct (Session_Stop_twice r state d _ d1 d2 H1 H2) as (s1 & S1 & S2 & _ & S4).
  eexists _, s1. split; [exact H1|]. split; [exact H2|].
  split; [reflexivity|]. split; [exact S1|]. split; [exact S2|].
  split; [exact S4|].
  subst d2. destruct (Z.eqb_spec c 2) as [->|Hne]; cbn [paInitCount]; lia.
Qed.

Lemma stop_twice_releases_guard_twice_witness :
  two_recorders = Some (recorder_new, recorder_new, mkDriver 2 [PaInitialize true])
  /\ LoopbackRecorder.Stop (recorder_new, mkDriver 2 [PaInitialize true])
     = ((recorder_stopped, mkDriver 1 [PaInitialize true]), Ok tt)
  /\ LoopbackRecorder.Stop (recorder_stopped, mkDriver 1 [PaInitialize true])
     = ((recorder_stopped, mkDriver 0 [PaInitialize true; PaTerminate]), Ok tt)
  /\ Session_Stop (new_session recorder_new webrtc.DataChannelStateOpen,
                   mkDriver 2 [PaInitialize true])
     = ((session_stopped, mkDriver 1 [PaInitialize true]), Ok tt)
  /\ Session_Stop (session_stopped, mkDriver 1 [PaInitialize true])
     = ((session_stopped, mkDriver 0 [PaInitialize true; PaTerminate]), Ok tt).
Proof.
  split; [vm_compute; reflexivity|].
  destruct (stop_twice_releases_guard_twice recorder_new webrtc.DataChannelStateOpen
              2 [PaInitialize true])
    as (r1 & s1 & H1 & H2 & _ & S1 & S2 & S3 & _);
    [vm_compute; split; discriminate | reflexivity | reflexivity |].
  assert (E1 : r1 = recorder_stopped).
  { assert (H := H1). vm_compute in H. now inversion H. }
  subst r1.
  assert (E2 : s1 = session_stopped).
  { assert (H := S1). vm_compute in H. now inversion H. }
  subst s1.
  repeat split; assumption.
Defined.

(** ** The stream callbacks *)

(** The capture callback never parks the driver thread. *)
Lemma LoopbackRecorder_callback_never_blocks input ch out :
  snd (LoopbackRecorder.callback input (ch, out)) <> Ok Blocked.
Proof.
  unfold LoopbackRecorder.callback, select_send_default.
  destruct ch as [q c [|]]; cbn [chanClosed]; [cbn; discriminate|].
  destruct (chan_full _); cbn; discriminate.
Qed.

(** While there is room, both callbacks deliver a copy of their data. *)
Lemma callbacks_deliver input in_ ch out :
  chanClosed ch = false -> chan_full ch = false ->
  LoopbackRecorder.callback input (ch, out)
    = ((mkChan (queue ch ++ [input]) (capacity ch) false, out), Ok Delivered)
  /\ OutputCaptureRecorder.callback input (in_, ch)
    = ((go_copy in_ input,
        mkChan (queue ch ++ [go_copy in_ input]) (capacity ch) false), Ok Delivered).
Proof.
  intros Hc Hf. split.
  - unfold LoopbackRecorder.callback, select_send_default. rewrite Hc, Hf.
    replace (go_copy (replicate (length input) (S754_zero false : float32)) input)
      with input; [reflexivity|].
    unfold go_copy. rewrite length_replicate, Nat.min_id, firstn_all.
    rewrite drop_ge by (rewrite length_replicate; lia). now rewrite app_nil_r.
  - unfold OutputCaptureRecorder.callback, send. rewrite Hc, Hf. reflexivity.
Qed.

(** C3, at the failing input. On a full pipe the capture recorder drops the
    batch with a warning and leaves the pipe as it is, without a second
    attempt; the output-capture recorder does not: its callback is a plain
    channel send, which parks the driver thread until a consumer makes
    room. *)
Theorem offer_to_full_pipe (input in_ : list float32)
    (ch : Chan (list float32)) (out : list string) :
  chanClosed ch = false ->
  chan_full ch = true ->
  LoopbackRecorder.callback input (ch, out)
    = ((ch, out ++ ["Warning: Sample channel is full, discarding one frame"%string]),
       Ok Dropped)
  /\ OutputCaptureRecorder.callback input (in_, ch)
    = ((go_copy in_ input, ch), Ok Blocked).
Proof.
  intros Hc Hf. split.
  - unfold LoopbackRecorder.callback, select_send_default. now rewrite Hc, Hf.
  - unfold OutputCaptureRecorder.callback, send. now rewrite Hc, Hf.
Qed.

Lemma offer_to_full_pipe_witness :
  let ch := mkChan [[f32.of_Z 0]; [f32.of_Z 1]] 2 false in
  LoopbackRecorder.callback [f32.of_Z 1] (ch, [])
    = ((ch, ["Warning: Sample channel is full, discarding one frame"%string]), Ok Dropped)
  /\ OutputCaptureRecorder.callback [f32.of_Z 1] (OutputCaptureRecorder.make_in 0, ch)
    = ((go_copy (OutputCaptureRecorder.make_in 0) [f32.of_Z 1], ch), Ok Blocked).
Proof.
  intros ch.
  exact (offer_to_full_pipe [f32.of_Z 1] (OutputCaptureRecorder.make_in 0) ch []
           eq_refl eq_refl).
Defined.

(** ** Device selection *)

(** The nested loops pick the first device, in enumeration order, that
    satisfies the test. *)
Lemma scan_devices_find p devs sel :
  scan_devices p devs sel =
  match find p devs with Some d => Some d | None => sel end.
Proof.
  induction devs as [|d devs IH]; [reflexivity|].
  cbn [scan_devices find]. destruct (p d); [reflexivity | exact IH].
Qed.

Lemma find_app_first {A} (p : A -> bool) l k :
  find p (l ++ k) = match find p l with Some d => Some d | None => find p k end.
Proof.
  induction l as [|x l IH]; [reflexivity|].
  cbn [app find]. destruct (p x); [reflexivity | exact IH].
Qed.

Lemma scan_apis_find p apis :
  scan_apis p apis None = find p (all_devices apis).
Proof.
  induction apis as [|api apis IH]; [reflexivity|].
  unfold all_devices in *. cbn [scan_apis map concat].
  rewrite scan_devices_find, find_app_first.
  destruct (find p (Devices api)); [reflexivity | exact IH].
Qed.

Lemma find_first_of_unique {A} (p : A -> bool) l x :
  In x l -> p x = true -> (forall y, In y l -> p y = true -> y = x) ->
  find p l = Some x.
Proof.
  intros Hin Hp Hu. destruct (find p l) as [y|] eqn:E.
  - apply find_some in E as [Hy Hpy]. f_equal. now apply Hu.
  - apply (find_none _ _ E) in Hin. congruence.
Qed.

Lemma find_is_Some {A} (p : A -> bool) l x :
  In x l -> p x = true -> exists y, find p l = Some y.
Proof.
  intros Hin Hp. destruct (find p l) as [y|] eqn:E; [eauto|].
  apply (find_none _ _ E) in Hin. congruence.
Qed.

(** The capture recorder: an input device with exactly the requested name
    wins, whatever else the catalog holds. *)
Lemma LoopbackRecorder_select_exact apis label d :
  find (exact_input label) (all_devices apis) = Some d ->
  LoopbackRecorder.selectDevice apis label = Some d.
Proof.
  intros H. unfold LoopbackRecorder.selectDevice.
  fold (exact_input label). rewrite scan_apis_find, H. reflexivity.
Qed.

(** The capture recorder: no input device matches, so nothing is selected. *)
Lemma LoopbackRecorder_select_none apis label :
  (forall d, In d (all_devices apis) -> 0 < MaxInputChannels d -> Name d <> label) ->
  (label = ""%string \/
   forall d, In d (all_devices apis) -> 0 < MaxInputChannels d ->
             contains (Name d) label = false) ->
  LoopbackRecorder.selectDevice apis label = None.
Proof.
  intros Hex Hsub. unfold LoopbackRecorder.selectDevice.
  fold (exact_input label). rewrite (scan_apis_find (exact_input label)).
  assert (E : find (exact_input label) (all_devices apis) = None).
  { destruct (find (exact_input label) (all_devices apis)) as [d|] eqn:E;
      [|reflexivity].
    apply find_some in E as [Hin Hp]. apply andb_true_iff in Hp as [Hc Hn].
    apply bool_decide_eq_true in Hn. exfalso. apply (Hex d Hin); [lia | exact Hn]. }
  rewrite E. rewrite bool_decide_eq_true_2 by reflexivity.
  cbn [andb]. destruct Hsub as [->|Hsub].
  - rewrite bool_decide_eq_true_2 by reflexivity. reflexivity.
  - destruct (negb _); [|reflexivity]. rewrite scan_apis_find.
    match goal with |- find ?p ?l = None => destruct (find p l) as [d|] eqn:E2 end;
      [|reflexivity].
    apply find_some in E2 as [Hin Hp]. apply andb_true_iff in Hp as [Hc Hn].
    rewrite (Hsub d Hin) in Hn by lia. discriminate.
Qed.

(** The output-capture recorder: the first device with a loopback marker in
    its name is selected, whatever the label and whatever its channels. *)
Lemma OutputCaptureRecorder_select_marker host apis label d :
  find OutputCaptureRecorder.is_loopback_marker (all_devices apis) = Some d ->
  OutputCaptureRecorder.selectDevice host apis label =
  if MaxInputChannels d =? 0 then Err (errorString "所选设备没有输入通道")
  else Ok (d, MaxInputChannels d).
Proof.
  intros H. unfold OutputCaptureRecorder.selectDevice.
  rewrite scan_apis_find, H.
  rewrite bool_decide_eq_false_2 by discriminate. reflexivity.
Qed.

(** The output-capture recorder without a loopback device and without a
    match for the label: the default input device of the default host API. *)
Lemma OutputCaptureRecorder_select_default host apis label :
  find OutputCaptureRecorder.is_loopback_marker (all_devices apis) = None ->
  (label = ""%string \/
   forall d, In d (all_devices apis) -> 0 < MaxInputChannels d ->
             Name d <> label /\ contains (Name d) label = false) ->
  OutputCaptureRecorder.selectDevice host apis label =
  match DefaultHostApi host with
  | Err e => Err (wrapError "获取默认音频API失败" e)
  | Panic msg => Panic msg
  | Ok api =>
      match DefaultInputDevice api with
      | None => Err (errorString "未找到可用的音频环回设备，请安装BlackHole等虚拟音频设备")
      | Some d =>
          if MaxInputChannels d =? 0 then Err (errorString "所选设备没有输入通道")
          else Ok (d, MaxInputChannels d)
      end
  end.
Proof.
  intros Hm Hl. unfold OutputCaptureRecorder.selectDevice.
  rewrite scan_apis_find, Hm. rewrite bool_decide_eq_true_2 by reflexivity.
  cbn [andb].
  assert (E : (if negb (bool_decide (label = ""%string))
               then scan_apis
                      (fun dev => (MaxInputChannels dev >? 0)
                                  && (bool_decide (Name dev = label)
                                      || contains (Name dev) label)) apis None
               else None) = None).
  { destruct Hl as [->|Hl].
    - rewrite bool_decide_eq_true_2 by reflexivity. reflexivity.
    - destruct (negb _); [|reflexivity]. rewrite scan_apis_find.
      match goal with |- find ?p ?l = None => destruct (find p l) as [d|] eqn:E2 end;
        [|reflexivity].
      apply find_some in E2 as [Hin Hp]. apply andb_true_iff in Hp as [Hc Hn].
      destruct (Hl d Hin ltac:(lia)) as [Hne Hco].
      rewrite Hco, orb_false_r in Hn. apply bool_decide_eq_true in Hn. contradiction. }
  rewrite E. destruct (DefaultHostApi host) as [api|e|msg]; reflexivity.
Qed.

Lemma OutputCaptureRecorder_Start_selected host apis label r d c :
  HostApis host = Ok apis -> OpenStream host = Ok tt -> StreamStart host = Ok tt ->
  OutputCaptureRecorder.selectDevice host apis label = Ok (d, c) ->
  OutputCaptureRecorder.Start host label r =
  (OutputCaptureRecorder.mk (Some (mkStream d c false None StreamStarted))
     (OutputCaptureRecorder.Samples r) (OutputCaptureRecorder.isClosed r), Ok tt).
Proof.
  intros Ha Ho Hs Hsel. unfold OutputCaptureRecorder.Start.
  rewrite Ha, Hsel, Ho, Hs. reflexivity.
Qed.

Lemma OutputCaptureRecorder_Start_failed host apis label r e :
  HostApis host = Ok apis ->
  OutputCaptureRecorder.selectDevice host apis label = Err e ->
  OutputCaptureRecorder.Start host label r = (r, Err e).
Proof.
  intros Ha Hsel. unfold OutputCaptureRecorder.Start. rewrite Ha, Hsel. reflexivity.
Qed.

Lemma LoopbackRecorder_Start_selected host apis label r d :
  HostApis host = Ok apis -> OpenStream host = Ok tt -> StreamStart host = Ok tt ->
  LoopbackRecorder.selectDevice apis label = Some d ->
  LoopbackRecorder.Start host label r =
  (LoopbackRecorder.mk
     (Some (mkStream d (MaxInputChannels d) true (Some 512) StreamStarted))
     (LoopbackRecorder.Samples r) (LoopbackRecorder.isClosed r), Ok tt).
Proof.
  intros Ha Ho Hs Hsel. unfold LoopbackRecorder.Start.
  rewrite Ha, Hsel, Ho, Hs. reflexivity.
Qed.

Lemma LoopbackRecorder_Start_not_found host apis label r :
  HostApis host = Ok apis ->
  LoopbackRecorder.selectDevice apis label = None ->
  LoopbackRecorder.Start host label r =
  (r, Err (errorString ("specified input device not found: " ++ label))).
Proof.
  intros Ha Hsel. unfold LoopbackRecorder.Start. rewrite Ha, Hsel. reflexivity.
Qed.

(** C5. The catalog holds an input device named exactly [label], an input
    device whose name contains [label], and one loopback-marker device with
    input channels. The output-capture recorder then opens its stream on
    the loopback-marker device, and the capture recorder on the device with
    the exact name. *)
Theorem selection_precedence (host : Host) (apis : list HostApiInfo) (label : string)
    (exact sub lb : DeviceInfo)
    (cap : LoopbackRecorder.t) (red : OutputCaptureRecorder.t) :
  HostApis host = Ok apis -> OpenStream host = Ok tt -> StreamStart host = Ok tt ->
  In exact (all_devices apis) -> Name exact = label -> 0 < MaxInputChannels exact ->
  (forall d, In d (all_devices apis) ->
             Name d = label -> 0 < MaxInputChannels d -> d = exact) ->
  In sub (all_devices apis) -> Name sub <> label ->
  contains (Name sub) label = true -> 0 < MaxInputChannels sub ->
  In lb (all_devices apis) -> OutputCaptureRecorder.is_loopback_marker lb = true ->
  0 < MaxInputChannels lb ->
  (forall d, In d (all_devices apis) ->
             OutputCaptureRecorder.is_loopback_marker d = true -> d = lb) ->
  OutputCaptureRecorder.Start host label red =
    (OutputCaptureRecorder.mk
       (Some (mkStream lb (MaxInputChannels lb) false None StreamStarted))
       (OutputCaptureRecorder.Samples red) (OutputCaptureRecorder.isClosed red), Ok tt)
  /\ LoopbackRecorder.Start host label cap =
    (LoopbackRecorder.mk
       (Some (mkStream exact (MaxInputChannels exact) true (Some 512) StreamStarted))
       (LoopbackRecorder.Samples cap) (LoopbackRecorder.isClosed cap), Ok tt)
  /\ exact <> sub.
Proof.
  intros Ha Ho Hs Hein Hen Hec Heu Hsin Hsn Hsc Hscap Hlin Hlm Hlc Hlu.
  split; [|split].
  - apply (OutputCaptureRecorder_Start_selected host apis); try assumption.
    rewrite (OutputCaptureRecorder_select_marker host apis label lb).
    + destruct (Z.eqb_spec (MaxInputChannels lb) 0); [lia | reflexivity].
    + now apply find_first_of_unique.
  - apply (LoopbackRecorder_Start_selected host apis); try assumption.
    apply LoopbackRecorder_select_exact.
    apply find_first_of_unique; [assumption | |].
    + unfold exact_input. rewrite bool_decide_eq_true_2 by assumption.
      destruct (Z.gtb_spec (MaxInputChannels exact) 0); [reflexivity | lia].
    + intros d Hd Hp. unfold exact_input in Hp.
      apply andb_true_iff in Hp as [Hc Hn]. apply bool_decide_eq_true in Hn.
      apply Heu; [assumption | assumption | lia].
  - intros ->. contradiction.
Qed.

Lemma selection_precedence_witness :
  let host := host_of [usb_mic_pro; usb_mic; blackhole; speakers] in
  OutputCaptureRecorder.Start host "USB Microphone" output_recorder_new =
    (OutputCaptureRecorder.mk
       (Some (mkStream blackhole 2 false None StreamStarted))
       (make_chan (list float32) 1024) false, Ok tt)
  /\ LoopbackRecorder.Start host "USB Microphone" recorder_new =
    (LoopbackRecorder.mk
       (Some (mkStream usb_mic 1 true (Some 512) StreamStarted))
       (make_chan (list float32) 1024) false, Ok tt)
  /\ usb_mic <> usb_mic_pro.
Proof.
  intros host.
  apply (selection_precedence host [core_audio [usb_mic_pro; usb_mic; blackhole; speakers]]
           "USB Microphone" usb_mic usb_mic_pro blackhole
           recorder_new output_recorder_new);
    try reflexivity.
  - vm_compute. auto.
  - intros d Hd Hn _. vm_compute in Hd.
    destruct Hd as [<-|[<-|[<-|[<-|[]]]]]; try reflexivity; vm_compute in Hn; discriminate.
  - vm_compute. auto.
  - discriminate.
  - vm_compute. auto 10.
  - intros d Hd Hm. vm_compute in Hd.
    destruct Hd as [<-|[<-|[<-|[<-|[]]]]]; try reflexivity; vm_compute in Hm; discriminate.
Defined.

(** C10. When some enumerated device carries "BlackHole" or "Loopback" in
    its name, the output-capture recorder selects the first such device,
    whatever the label and without looking at its input channels; when that
    device has none, [Start] returns an error and tries no other device. *)
Theorem loopback_marker_selected_unchecked (host : Host) (apis : list HostApiInfo)
    (label : string) (d : DeviceInfo) (r : OutputCaptureRecorder.t) :
  HostApis host = Ok apis ->
  find OutputCaptureRecorder.is_loopback_marker (all_devices apis) = Some d ->
  scan_apis OutputCaptureRecorder.is_loopback_marker apis None = Some d
  /\ (MaxInputChannels d <> 0 ->
      OutputCaptureRecorder.selectDevice host apis label = Ok (d, MaxInputChannels d))
  /\ (MaxInputChannels d = 0 ->
      OutputCaptureRecorder.Start host label r =
      (r, Err (errorString "所选设备没有输入通道"))).
Proof.
  intros Ha Hf. split; [now rewrite scan_apis_find|]. split; intros Hc.
  - rewrite (OutputCaptureRecorder_select_marker host apis label d Hf).
    destruct (Z.eqb_spec (MaxInputChannels d) 0); [contradiction | reflexivity].
  - apply (OutputCaptureRecorder_Start_failed host apis); [assumption|].
    rewrite (OutputCaptureRecorder_select_marker host apis label d Hf).
    now rewrite Hc.
Qed.

Lemma loopback_marker_selected_unchecked_witness :
  let host := host_of [usb_mic; loopback_out; blackhole; builtin_mic] in
  scan_apis OutputCaptureRecorder.is_loopback_marker
            [core_audio [usb_mic; loopback_out; blackhole; builtin_mic]] None
    = Some loopback_out
  /\ OutputCaptureRecorder.Start host "USB Microphone" output_recorder_new
    = (output_recorder_new, Err (errorString "所选设备没有输入通道")).
Proof.
  intros host.
  destruct (loopback_marker_selected_unchecked host
              [core_audio [usb_mic; loopback_out; blackhole; builtin_mic]]
              "USB Microphone" loopback_out output_recorder_new eq_refl eq_refl)
    as (H1 & _ & H3).
  split; [exact H1 | apply H3; reflexivity].
Defined.

(** C9 as stated fails for the capture recorder: with the empty label and a
    default input device at hand, [Start] selects nothing and returns the
    not-found error. *)
Lemma capture_start_has_no_default_fallback :
  let host := host_of [builtin_mic; speakers] in
  DefaultHostApi host = Ok (core_audio [builtin_mic; speakers])
  /\ DefaultInputDevice (core_audio [builtin_mic; speakers]) = Some builtin_mic
  /\ 0 < MaxInputChannels builtin_mic
  /\ LoopbackRecorder.Start host "" recorder_new
     = (recorder_new, Err (errorString "specified input device not found: "))
  /\ ~ (exists st,
          LoopbackRecorder.stream (fst (LoopbackRecorder.Start host "" recorder_new))
          = Some st /\ streamDevice st = builtin_mic).
Proof.
  intros host. split; [reflexivity|]. split; [reflexivity|].
  split; [reflexivity|]. split; [vm_compute; reflexivity|].
  intros (st & H & _). vm_compute in H. discriminate.
Qed.

(** C9 (amended). Take a label for which neither exact-name nor substring
    matching selects an input device (the empty label is never matched by
    substring). The output-capture recorder, when no device carries a
    loopback marker, then takes the default input device of the default host
    API and fails if that API cannot be had, if it has no default input
    device, or if that device has no input channels. The capture recorder
    has no fallback: its [Start] returns the not-found error. *)
Theorem default_fallback (host : Host) (apis : list HostApiInfo) (label : string)
    (cap : LoopbackRecorder.t) (red : OutputCaptureRecorder.t) :
  HostApis host = Ok apis ->
  (forall d, In d (all_devices apis) -> 0 < MaxInputChannels d -> Name d <> label) ->
  (label = ""%string \/
   forall d, In d (all_devices apis) -> 0 < MaxInputChannels d ->
             contains (Name d) label = false) ->
  LoopbackRecorder.Start host label cap
    = (cap, Err (errorString ("specified input device not found: " ++ label)))
  /\ (find OutputCaptureRecorder.is_loopback_marker (all_devices apis) = None ->
      match DefaultHostApi host with
      | Err e =>
          OutputCaptureRecorder.Start host label red
          = (red, Err (wrapError "获取默认音频API失败" e))
      | Panic msg => OutputCaptureRecorder.Start host label red = (red, Panic msg)
      | Ok api =>
          match DefaultInputDevice api with
          | None =>
              OutputCaptureRecorder.Start host label red
              = (red, Err (errorString
                             "未找到可用的音频环回设备，请安装BlackHole等虚拟音频设备"))
          | Some dflt =>
              if MaxInputChannels dflt =? 0 then
                OutputCaptureRecorder.Start host label red
                = (red, Err (errorString "所选设备没有输入通道"))
              else
                OutputCaptureRecorder.selectDevice host apis label
                = Ok (dflt, MaxInputChannels dflt)
                /\ (OpenStream host = Ok tt -> StreamStart host = Ok tt ->
                    OutputCaptureRecorder.Start host label red
                    = (OutputCaptureRecorder.mk
                         (Some (mkStream dflt (MaxInputChannels dflt) false None
                                         StreamStarted))
                         (OutputCaptureRecorder.Samples red)
                         (OutputCaptureRecorder.isClosed red), Ok tt))
          end
      end).
Proof.
  intros Ha Hex Hsub. split.
  - apply (LoopbackRecorder_Start_not_found host apis); [assumption|].
    now apply LoopbackRecorder_select_none.
  - intros Hm.
    assert (Hsel := OutputCaptureRecorder_select_default host apis label Hm).
    assert (Hl : label = ""%string \/
                 forall d, In d (all_devices apis) -> 0 < MaxInputChannels d ->
                           Name d <> label /\ contains (Name d) label = false).
    { destruct Hsub as [->|Hsub]; [now left | right]. intros d Hd Hc. split; auto. }
    specialize (Hsel Hl). clear Hl.
    destruct (DefaultHostApi host) as [api|e|msg].
    + destruct (DefaultInputDevice api) as [dflt|].
      * destruct (MaxInputChannels dflt =? 0) eqn:E.
        -- now apply (OutputCaptureRecorder_Start_failed host apis).
        -- split; [exact Hsel|]. intros Ho Hs.
           now apply (OutputCaptureRecorder_Start_selected host apis).
      * now apply (OutputCaptureRecorder_Start_failed host apis).
    + now apply (OutputCaptureRecorder_Start_failed host apis).
    + unfold OutputCaptureRecorder.Start. now rewrite Ha, Hsel.
Qed.

Lemma default_fallback_witness :
  let host := host_of [builtin_mic; speakers] in
  LoopbackRecorder.Start host "" recorder_new
    = (recorder_new, Err (errorString "specified input device not found: "))
  /\ OutputCaptureRecorder.Start host "" output_recorder_new
    = (OutputCaptureRecorder.mk
         (Some (mkStream builtin_mic 1 false None StreamStarted))
         (make_chan (list float32) 1024) false, Ok tt).
Proof.
  intros host.
  assert (Hex : forall d, In d (all_devices [core_audio [builtin_mic; speakers]]) ->
                          0 < MaxInputChannels d -> Name d <> ""%string).
  { intros d Hd _. vm_compute in Hd. destruct Hd as [<-|[<-|[]]]; discriminate. }
  destruct (default_fallback host [core_audio [builtin_mic; speakers]] ""
              recorder_new output_recorder_new eq_refl Hex (or_introl eq_refl))
    as [H1 H2].
  split; [exact H1|].
  specialize (H2 eq_refl). cbn in H2. destruct H2 as [_ H2].
  exact (H2 eq_refl eq_refl).
Defined.

(** ** The send path *)

(** The send loop hands nothing to the transport unless the data channel
    is open: this is the only condition it tests. *)
Lemma sendBatch_gated_on_open samples s l :
  (forall d, dc s = Some d -> webrtc.ReadyState d <> webrtc.DataChannelStateOpen) ->
  dc (fst (fst (sendBatch samples (s, l)))) = dc s.
Proof.
  intros H. unfold sendBatch. cbv beta iota.
  destruct (dc s) as [d|] eqn:E; [|exact E].
  rewrite bool_decide_eq_false_2 by (now apply H). exact E.
Qed.

(** C6, at the failing input. In both schedules the first message on the
    transport is an [input_audio_buffer.append], sent before the
    [session.update] of [initializeSession]: the send loop waits for the
    data channel to be open, not for the session to be configured. *)
Theorem audio_sent_before_session_update :
  (exists w1,
      Start_launch (host_of [usb_mic]) "USB Microphone"
                   (world_new webrtc.DataChannelStateOpen) = (w1, Ok tt)
      /\ transport_log w1 = []
      /\ map event_type (transport_log (run schedule_open_before_start w1))
         = [Some "input_audio_buffer.append"%string; Some "session.update"%string])
  /\ (exists w1,
      Session_Start (host_of [usb_mic]) "USB Microphone"
                    (world_new webrtc.DataChannelStateConnecting) = (w1, Ok tt)
      /\ transport_log w1 = []
      /\ map event_type (transport_log (run schedule_open_after_start w1))
         = [Some "input_audio_buffer.append"%string; Some "session.update"%string])
  /\ nth_error
       (transport_log
          (run schedule_open_before_start
             (fst (Start_launch (host_of [usb_mic]) "USB Microphone"
                                (world_new webrtc.DataChannelStateOpen))))) 0
     = Some (append_event "/z8=").
Proof.
  split; [|split].
  - exists (fst (Start_launch (host_of [usb_mic]) "USB Microphone"
                              (world_new webrtc.DataChannelStateOpen))).
    repeat split; vm_compute; reflexivity.
  - exists (fst (Session_Start (host_of [usb_mic]) "USB Microphone"
                               (world_new webrtc.DataChannelStateConnecting))).
    repeat split; vm_compute; reflexivity.
  - vm_compute. reflexivity.
Qed.

(** The samples 1.0, 0.5, -1.0, 5.0 and 0.0 as 16-bit PCM. *)
Example pcm_example :
  pcm_of_samples [f32.of_Z 1; f32.of_Z_exp 1 (-1); f32.of_Z (-1); f32.of_Z 5; f32.of_Z 0]
  = Ok [255; 127; 255; 63; 1; 128; 255; 127; 0; 0].
Proof. vm_compute. reflexivity. Qed.

(** The test vectors of RFC 4648. *)
Example base64_rfc4648 :
  map (fun s => base64.EncodeToString (bytes_of_string s))
      [""; "f"; "fo"; "foo"; "foob"; "fooba"; "foobar"]%string
  = [""; "Zg=="; "Zm8="; "Zm9v"; "Zm9vYg=="; "Zm9vYmE="; "Zm9vYmFy"]%string.
Proof. vm_compute. reflexivity. Qed.

Lemma sample_bytes_code x :
  sample_bytes x =
  [GoInt.byte (sample_int16 x); GoInt.byte (Z.shiftr (sample_int16 x) 8)].
Proof.
  unfold sample_bytes. set (v := sample_int16 x). cbn [le_bytes].
  unfold GoInt.uint16, GoInt.to_unsigned.
  rewrite !byte_mod, !Z.shiftr_div_pow2 by lia.
  change (2 ^ 16) with (256 * 256). change (2 ^ 8) with 256.
  rewrite mod_mod_mul by lia.
  rewrite Z.rem_mul_r by lia.
  replace ((v mod 256 + 256 * ((v / 256) mod 256)) / 256) with ((v / 256) mod 256).
  - now rewrite Z.mod_mod by lia.
  - rewrite Z.add_comm, Z.mul_comm, Z.div_add_l by lia.
    rewrite (Z.div_small (v mod 256)) by (apply Z.mod_pos_bound; lia). lia.
Qed.

Lemma store_app_head {A} (pre : list A) a rest v :
  store (pre ++ a :: rest) (len pre) v = Ok (pre ++ v :: rest).
Proof.
  unfold store, len. rewrite length_app. cbn [length].
  destruct (Z.leb_spec 0 (Z.of_nat (length pre))); [|lia].
  destruct (Z.ltb_spec (Z.of_nat (length pre)) (Z.of_nat (length pre + S (length rest))));
    [|lia].
  cbn [andb]. rewrite Nat2Z.id.
  replace (length pre) with (length pre + 0)%nat at 1 by lia.
  now rewrite insert_app_r.
Qed.

(** The conversion loop fills the byte slice pair by pair and never leaves
    its bounds. *)
Lemma pcm_loop_fills batch : forall (pre rest : list Z) (i : Z),
  len pre = i * 2 ->
  length rest = (2 * length batch)%nat ->
  pcm_loop batch i (pre ++ rest) = Ok (pre ++ pcm_le16 batch).
Proof.
  induction batch as [|x batch IH]; intros pre rest i Hp Hr.
  - destruct rest; [|discriminate]. reflexivity.
  - destruct rest as [|a [|b rest]]; try (cbn in Hr; lia).
    cbn [pcm_loop]. fold (sample_int16 x).
    rewrite <- Hp, store_app_head.
    replace (pre ++ GoInt.byte (sample_int16 x) :: b :: rest)
      with ((pre ++ [GoInt.byte (sample_int16 x)]) ++ b :: rest)
      by (now rewrite <- app_assoc).
    replace (len pre + 1) with (len (pre ++ [GoInt.byte (sample_int16 x)]))
      by (unfold len; rewrite length_app; cbn [length]; lia).
    rewrite store_app_head.
    replace ((pre ++ [GoInt.byte (sample_int16 x)])
             ++ GoInt.byte (Z.shiftr (sample_int16 x) 8) :: rest)
      with ((pre ++ sample_bytes x) ++ rest)
      by (rewrite sample_bytes_code, <- !app_assoc; reflexivity).
    rewrite IH.
    + unfold pcm_le16. cbn [flat_map]. now rewrite <- app_assoc.
    + unfold len in *. rewrite length_app, sample_bytes_code. cbn [length]. lia.
    + cbn [length] in Hr. lia.
Qed.

Lemma pcm_of_samples_spec batch :
  len batch * 2 <= GoInt.max_int ->
  pcm_of_samples batch = Ok (pcm_le16 batch).
Proof.
  intros Hb. unfold pcm_of_samples, GoInt.mul.
  rewrite int_small by (unfold GoInt.max_int, len in *; lia).
  apply (pcm_loop_fills batch [] _ 0); [reflexivity|].
  rewrite length_replicate. unfold len. lia.
Qed.

Lemma length_pcm_le16 batch : length (pcm_le16 batch) = (2 * length batch)%nat.
Proof.
  induction batch as [|x batch IH]; [reflexivity|].
  unfold pcm_le16 in *. cbn [flat_map]. rewrite length_app, IH.
  unfold sample_bytes. rewrite length_le_bytes. cbn [length]. lia.
Qed.

Lemma pcm_le16_lookup batch : forall i x,
  batch !! i = Some x ->
  pcm_le16 batch !! (2 * i)%nat = Some (sample_int16 x mod 256)
  /\ pcm_le16 batch !! (2 * i + 1)%nat = Some ((sample_int16 x / 256) mod 256).
Proof.
  induction batch as [|y batch IH]; intros i x Hi; [discriminate|].
  unfold pcm_le16 in *. cbn [flat_map]. rewrite sample_bytes_code.
  destruct i as [|i].
  - cbn in Hi. inversion Hi; subst.
    rewrite !byte_mod, Z.shiftr_div_pow2 by lia. split; reflexivity.
  - cbn in Hi. destruct (IH i x Hi) as [H0 H1].
    replace (2 * S i)%nat with (S (S (2 * i))) by lia.
    replace (2 * S i + 1)%nat with (S (S (2 * i + 1))) by lia.
    split; assumption.
Qed.

Lemma sample_int16_range x : - 32768 <= sample_int16 x <= 32767.
Proof.
  unfold sample_int16, f32.to_int16.
  destruct (f32.trunc _) as [z|]; [|lia].
  unfold GoInt.int16, GoInt.to_signed.
  change (2 ^ (16 - 1)) with 32768. change (2 ^ 16) with 65536.
  pose proof (Z.mod_pos_bound (z + 32768) 65536). lia.
Qed.

(** Clamping leaves every sample that is a number inside [-1.0, 1.0]. *)
Lemma clamp_range x :
  x <> S754_nan ->
  f32.leb (f32.of_Z (-1)) (clamp x) = true /\ f32.leb (clamp x) (f32.of_Z 1) = true.
Proof.
  intros Hn. unfold clamp, f32.gtb, f32.ltb, f32.leb.
  change (f32.of_Z 1) with (S754_finite false 8388608 (-23)).
  change (f32.of_Z (-1)) with (S754_finite true 8388608 (-23)).
  destruct x as [s|s| |s m e]; [destruct s; vm_compute; auto ..| | ].
  - congruence.
  - unfold SFltb, SFleb. destruct s.
    + cbn [SFcompare].
      destruct (e ?= -23) eqn:Ee;
        [destruct (PosDef.Pos.compare_cont Eq m 8388608) eqn:Em|..];
        cbn [CompOpp SFcompare];
        rewrite ?(Z.compare_antisym e (-23)), ?Ee; cbn [CompOpp];
        rewrite ?(Pos.compare_cont_antisym 8388608 m Eq); cbn [CompOpp];
        rewrite ?Em; auto.
    + cbn [SFcompare].
      destruct (-23 ?= e) eqn:Ee;
        [destruct (PosDef.Pos.compare_cont Eq 8388608 m) eqn:Em|..];
        cbn [CompOpp SFcompare];
        rewrite ?(Z.compare_antisym (-23) e), ?Ee; cbn [CompOpp];
        rewrite ?(ZC4 m 8388608), ?Em; cbn [CompOpp]; auto.
Qed.

(** C8. A batch that is sent (the data channel is open) reaches the
    transport as one [input_audio_buffer.append] event whose audio field is
    the base64 text of the batch's PCM bytes: two bytes per sample, the low
    byte first, of the signed 16-bit integer obtained from the clamped
    sample times 32767. *)
Theorem send_batch_message (batch : list float32) (s : Session) (l : SendLoop)
    (d : webrtc.DataChannel) :
  dc s = Some d ->
  webrtc.ReadyState d = webrtc.DataChannelStateOpen ->
  len batch * 2 <= GoInt.max_int ->
  snd (sendBatch batch (s, l)) = Ok tt
  /\ dc (fst (fst (sendBatch batch (s, l))))
     = Some (webrtc.mkDataChannel webrtc.DataChannelStateOpen
               (webrtc.sent d ++ [append_message batch]) (webrtc.onOpen d))
  /\ pcm_of_samples batch = Ok (pcm_le16 batch)
  /\ length (pcm_le16 batch) = (2 * length batch)%nat
  /\ (forall i x, batch !! i = Some x ->
        - 32768 <= sample_int16 x <= 32767
        /\ pcm_le16 batch !! (2 * i)%nat = Some (sample_int16 x mod 256)
        /\ pcm_le16 batch !! (2 * i + 1)%nat = Some ((sample_int16 x / 256) mod 256))
  /\ (forall x, x <> S754_nan ->
        f32.leb (f32.of_Z (-1)) (clamp x) = true
        /\ f32.leb (clamp x) (f32.of_Z 1) = true).
Proof.
  intros Hd Ho Hb.
  assert (E : sendBatch batch (s, l) =
              ((set_dc s (Some (webrtc.mkDataChannel webrtc.DataChannelStateOpen
                                  (webrtc.sent d ++ [append_message batch])
                                  (webrtc.onOpen d))),
                mkSendLoop (GoInt.add (sampleCount l) (len batch))
                           (if f32.gtb (peak batch (f32.of_Z 0)) (f32.of_Z 0)
                            then true else hasSoundInput l)
                           (peak batch (f32.of_Z 0))),
               Ok tt)).
  { unfold sendBatch. cbv beta iota. rewrite Hd, Ho.
    rewrite bool_decide_eq_true_2 by reflexivity. cbn [negb].
    rewrite pcm_of_samples_spec by assumption.
    unfold webrtc.SendText. rewrite Ho.
    rewrite bool_decide_eq_true_2 by reflexivity. reflexivity. }
  rewrite E. cbn [fst snd dc set_dc].
  split; [reflexivity|]. split; [reflexivity|].
  split; [now apply pcm_of_samples_spec|].
  split; [apply length_pcm_le16|]. split.
  - intros i x Hi. split; [apply sample_int16_range|].
    now apply pcm_le16_lookup.
  - apply clamp_range.
Qed.

Lemma send_batch_message_witness :
  let batch := [f32.of_Z 1; f32.of_Z_exp 1 (-1); f32.of_Z (-1); f32.of_Z 5] in
  let s := new_session recorder_new webrtc.DataChannelStateOpen in
  dc (fst (fst (sendBatch batch (s, SendLoop0))))
  = Some (webrtc.mkDataChannel webrtc.DataChannelStateOpen
            [append_event "/3//PwGA/38="] None)
  /\ pcm_le16 batch = [255; 127; 255; 63; 1; 128; 255; 127].
Proof.
  intros batch s.
  destruct (send_batch_message batch s SendLoop0
              (webrtc.mkDataChannel webrtc.DataChannelStateOpen [] None))
    as (_ & H & _); [reflexivity | reflexivity | vm_compute; discriminate |].
  split; [|vm_compute; reflexivity].
  rewrite H. vm_compute. reflexivity.
Defined.

(** ** The receive path *)

Lemma length_go_copy {A} (dst src : list A) : length (go_copy dst src) = length dst.
Proof.
  unfold go_copy. rewrite length_app, length_take, length_drop. lia.
Qed.

Lemma len_go_copy {A} (dst src : list A) : len (go_copy dst src) = len dst.
Proof. unfold len. now rewrite length_go_copy. Qed.

Lemma store_ok {A} (b : list A) i v :
  0 <= i < len b ->
  exists b', store b i v = Ok b' /\ len b' = len b.
Proof.
  intros Hi. unfold store.
  destruct (Z.leb_spec 0 i); [|lia]. destruct (Z.ltb_spec i (len b)); [|lia].
  eexists. split; [reflexivity|]. unfold len. now rewrite length_insert.
Qed.

(** The byte conversion loop stays inside both slices. *)
Lemma bytes_loop_ok k : forall i buffer samples,
  0 <= i -> i + Z.of_nat k <= len buffer -> (i + Z.of_nat k) * 2 <= len samples ->
  exists samples',
    bytes_loop k i buffer samples = Ok samples' /\ len samples' = len samples.
Proof.
  induction k as [|k IH]; intros i buffer samples Hi Hb Hs.
  - eexists. split; reflexivity.
  - cbn [bytes_loop].
    destruct (buffer !! Z.to_nat i) as [b|] eqn:E.
    2:{ apply lookup_ge_None in E. unfold len in Hb. lia. }
    destruct (store_ok samples (i * 2) (GoInt.byte b)) as (s1 & -> & L1); [lia|].
    destruct (store_ok s1 (i * 2 + 1) (GoInt.byte (Z.shiftr b 8))) as (s2 & -> & L2);
      [lia|].
    destruct (IH (i + 1) buffer s2) as (s3 & -> & L3); try lia.
    exists s3. split; [reflexivity | lia].
Qed.

Lemma localTrack_iter_terminal ev t :
  terminal ev = true -> localTrack_iter ev t = (finalize t, Some (Ok tt)).
Proof.
  destruct ev as [|e|payload decoded]; cbn [terminal localTrack_iter].
  - reflexivity.
  - now intros ->.
  - discriminate.
Qed.

(** Decode failures and read errors that are neither EOF nor a closure are
    skipped: the state is untouched and the loop goes round again. *)
Lemma localTrack_iter_skips t :
  (forall payload e, localTrack_iter (EvPacket payload (DecodeError e)) t = (t, None))
  /\ (forall e, terminal (EvReadError e) = false ->
                localTrack_iter (EvReadError e) t = (t, None)).
Proof.
  split; [reflexivity|]. intros e H. cbn [terminal] in H.
  cbn [localTrack_iter]. now rewrite H.
Qed.

Lemma file_holds_saveAudio w t data :
  file_holds t data -> file_holds (saveAudio w t) (data ++ w).
Proof.
  intros (f & Hf & He & Hc & Ht & Ht36).
  rewrite (saveAudio_at_end w t f Hf He).
  exists (append_file f w). cbn [audioFile totalAudioBytes].
  split; [reflexivity|]. split; [now apply at_end_append|].
  assert (Hl : len (data ++ w) = len data + len w).
  { unfold len. rewrite length_app. lia. }
  split; [|split].
  - unfold append_file. cbn [os.contents]. now rewrite Hc, app_assoc.
  - rewrite uint32_int64, uint32_add_int64_r, uint32_add_mod, Ht, <- uint32_add_mod.
    now rewrite Hl.
  - rewrite uint32_int64.
    replace (GoInt.int64 (totalAudioBytes t + GoInt.int64 (len w)) + 36)
      with (36 + GoInt.int64 (totalAudioBytes t + GoInt.int64 (len w))) by lia.
    rewrite uint32_add_int64_r.
    replace (36 + (totalAudioBytes t + GoInt.int64 (len w)))
      with ((36 + totalAudioBytes t) + GoInt.int64 (len w)) by lia.
    rewrite uint32_add_int64_r.
    replace (36 + totalAudioBytes t + len w) with (totalAudioBytes t + (36 + len w)) by lia.
    rewrite uint32_add_mod, Ht, <- uint32_add_mod. f_equal. lia.
Qed.

(** Every event on which the loop does not return keeps the slices in
    shape and the file a header followed by the data saved so far. *)
Lemma localTrack_iter_continues ev t :
  track_wf t -> terminal ev = false ->
  exists t',
    localTrack_iter ev t = (t', None)
    /\ track_wf t'
    /\ (audioFile t = None -> audioFile t' = None)
    /\ (forall data, file_holds t data -> exists w, file_holds t' (data ++ w)).
Proof.
  intros (Hb & Hp & Hs) Hterm.
  assert (Hsame : exists t', (t, @None (result unit)) = (t', None)
                    /\ track_wf t' /\ (audioFile t = None -> audioFile t' = None)
                    /\ (forall data, file_holds t data -> exists w, file_holds t' (data ++ w))).
  { exists t. split; [reflexivity|]. split; [now split|]. split; [auto|].
    intros data H. exists []. now rewrite app_nil_r. }
  destruct ev as [|e|payload [e|frame]]; cbn [terminal] in Hterm.
  - discriminate.
  - cbn [localTrack_iter]. rewrite Hterm. exact Hsame.
  - exact Hsame.
  - cbn [localTrack_iter].
    destruct (Z.gtb_spec (len frame) (len (pcm t))) as [Hgt|Hle]; [exact Hsame|].
    set (n := len frame). set (pcm' := go_copy (pcm t) frame).
    set (buffer' := go_copy (buffer t) (slice pcm' 0 n)).
    assert (Hn : 0 <= n) by (unfold n, len; lia).
    destruct (bytes_loop_ok (Z.to_nat n) 0 buffer' (samples t)) as (s' & -> & Ls);
      [lia | | |].
    { unfold buffer'. rewrite len_go_copy. lia. }
    { unfold frameSize in *. lia. }
    cbv zeta.
    match goal with |- context [saveAudio ?x ?y] =>
      set (t0 := y); set (w := x) in * end.
    eexists. split; [reflexivity|].
    assert (Hsave : buffer (saveAudio w t0) = buffer' /\ pcm (saveAudio w t0) = pcm'
                    /\ samples (saveAudio w t0) = s').
    { unfold saveAudio. destruct (audioFile t0) as [f|]; [|now subst t0].
      destruct (os.Write w f) as [f' [bw|e|m]]; now subst t0. }
    destruct Hsave as (-> & -> & ->).
    split; [|split].
    + unfold track_wf. cbn [buffer pcm samples].
      unfold buffer', pcm'. rewrite !len_go_copy. repeat split; lia.
    + intros Hnone. cbn [audioFile]. unfold saveAudio. subst t0. cbn [audioFile].
      now rewrite Hnone.
    + intros data (f & Hf & He & Hc & Ht & Ht36). exists w.
      assert (Hold : file_holds t0 data).
      { exists f. subst t0. cbn [audioFile totalAudioBytes]. auto. }
      destruct (file_holds_saveAudio w t0 data Hold) as (f' & Hf' & He' & Hc' & Ht' & Ht36').
      exists f'. cbn [audioFile totalAudioBytes]. auto.
Qed.

Lemma localTrack_loop_continues evs : forall t,
  track_wf t -> existsb terminal evs = false ->
  exists t',
    localTrack_loop evs t = (t', None)
    /\ track_wf t'
    /\ (audioFile t = None -> audioFile t' = None)
    /\ (forall data, file_holds t data -> exists w, file_holds t' (data ++ w)).
Proof.
  induction evs as [|ev evs IH]; intros t Hwf Hex.
  - exists t. split; [reflexivity|]. split; [assumption|]. split; [auto|].
    intros data H. exists []. now rewrite app_nil_r.
  - cbn [existsb] in Hex. apply orb_false_iff in Hex as [Hev Hevs].
    destruct (localTrack_iter_continues ev t Hwf Hev) as (t1 & E1 & W1 & N1 & F1).
    destruct (IH t1 W1 Hevs) as (t2 & E2 & W2 & N2 & F2).
    exists t2. cbn [localTrack_loop]. rewrite E1. split; [exact E2|].
    split; [exact W2|]. split; [auto|].
    intros data H. destruct (F1 data H) as (w1 & H1).
    destruct (F2 _ H1) as (w2 & H2). exists (w1 ++ w2). now rewrite app_assoc.
Qed.

Lemma localTrack_loop_app pre : forall rest t t0,
  localTrack_loop pre t = (t0, None) ->
  localTrack_loop (pre ++ rest) t = localTrack_loop rest t0.
Proof.
  induction pre as [|ev pre IH]; intros rest t t0 H.
  - cbn in H. now inversion H.
  - cbn [localTrack_loop app] in *.
    destruct (localTrack_iter ev t) as [t1 [r|]]; [discriminate|].
    now apply IH.
Qed.

Lemma existsb_first {A} (p : A -> bool) l :
  existsb p l = true ->
  exists pre x post, l = pre ++ x :: post /\ existsb p pre = false /\ p x = true.
Proof.
  induction l as [|a l IH]; [discriminate|]. cbn [existsb].
  destruct (p a) eqn:Ea.
  - intros _. exists [], a, l. auto.
  - cbn [orb]. intros H. destruct (IH H) as (pre & x & post & -> & Hp & Hx).
    exists (a :: pre), x, post. cbn [existsb app]. rewrite Ea. auto.
Qed.

Lemma Track0_wf setup : track_wf (Track0 setup).
Proof.
  unfold track_wf, Track0, len. cbn [buffer pcm samples].
  rewrite !length_replicate. repeat split; reflexivity.
Qed.

Lemma Track0_file_holds setup : Create setup = Ok tt -> file_holds (Track0 setup) [].
Proof.
  intros Hc. destruct setup as [nd nc cr]. cbn [Create] in Hc. subst cr.
  eexists. split; [apply Track0_file|]. split; [split; reflexivity|].
  cbn [os.contents]. rewrite app_nil_r. split; [reflexivity|].
  split; reflexivity.
Qed.

(** Finalizing patches both size fields of the header from the running
    total. *)
Lemma finalize_patches t data :
  file_holds t data ->
  exists f,
    audioFile (finalize t) = Some f
    /\ os.contents f =
       wav_header sampleRate 1 16
         (le_bytes 4 (GoInt.uint32 (GoInt.int64 (totalAudioBytes t + 36))))
         (le_bytes 4 (GoInt.uint32 (totalAudioBytes t))) ++ data
    /\ field32 (os.contents f) 40 = len data mod 2 ^ 32
    /\ field32 (os.contents f) 4 = (len data + 36) mod 2 ^ 32.
Proof.
  intros (f & Hf & [Hcl Ho] & Hc & Ht & Ht36).
  unfold finalize. rewrite Hf. cbn [set_audioFile audioFile].
  destruct f as [c o cl]. cbn [os.closed os.contents] in *. subst cl c.
  rewrite updateWavHeader_header by reflexivity.
  eexists. split; [reflexivity|]. cbn [fst os.contents].
  split; [reflexivity|]. split.
  - rewrite field32_header_40 by apply length_le_bytes.
    now apply le_bytes_4_mod.
  - rewrite field32_header_4 by apply length_le_bytes.
    rewrite le_value_le_bytes_4 by apply uint32_range. exact Ht36.
Qed.

(** C7. The receive loop returns only on the stop signal or on a read
    error that is EOF or a closure, and then with [nil], after finalizing
    the audio file: both size fields of the header are patched before the
    deferred close. Decode failures and all other read errors leave the
    state as it is and the loop running. *)
Theorem receive_loop_exits (setup : TrackSetup) (evs : list TrackEvent) :
  NewDecoder setup = Ok tt ->
  NewContext setup = Ok tt ->
  snd (localTrack setup evs) = (if existsb terminal evs then Some (Ok tt) else None)
  /\ (forall pre ev post,
        evs = pre ++ ev :: post -> existsb terminal pre = false -> terminal ev = true ->
        exists t0,
          localTrack setup pre = (Some t0, None)
          /\ localTrack setup evs = (Some (close_deferred (finalize t0)), Some (Ok tt))
          /\ (Create setup = Ok tt ->
              exists f data,
                audioFile (finalize t0) = Some f
                /\ os.closed f = false
                /\ os.contents f =
                   wav_header sampleRate 1 16
                     (le_bytes 4 (GoInt.uint32 (GoInt.int64 (totalAudioBytes t0 + 36))))
                     (le_bytes 4 (GoInt.uint32 (totalAudioBytes t0))) ++ data
                /\ field32 (os.contents f) 40 = len data mod 2 ^ 32
                /\ field32 (os.contents f) 4 = (len data + 36) mod 2 ^ 32))
  /\ (forall t payload e,
        localTrack_iter (EvPacket payload (DecodeError e)) t = (t, None))
  /\ (forall t e,
        is_EOF e = false -> strings_Contains (error_message e) "closed" = false ->
        localTrack_iter (EvReadError e) t = (t, None)).
Proof.
  intros Hd Hc.
  assert (Hsplit : forall pre ev post,
            existsb terminal pre = false -> terminal ev = true ->
            exists t0,
              localTrack_loop pre (Track0 setup) = (t0, None)
              /\ localTrack_loop (pre ++ ev :: post) (Track0 setup)
                 = (close_deferred (finalize t0), Some (Ok tt))
              /\ (Create setup = Ok tt -> exists data, file_holds t0 data)).
  { intros pre ev post Hpre Hev.
    destruct (localTrack_loop_continues pre _ (Track0_wf setup) Hpre)
      as (t0 & E0 & W0 & N0 & F0).
    exists t0. split; [exact E0|]. split.
    - rewrite (localTrack_loop_app pre _ _ _ E0). cbn [localTrack_loop].
      now rewrite localTrack_iter_terminal.
    - intros Hcr. destruct (F0 [] (Track0_file_holds setup Hcr)) as (w & Hw).
      eauto. }
  unfold localTrack. rewrite Hd, Hc.
  split; [|split; [|split]].
  - destruct (existsb terminal evs) eqn:Eex.
    + destruct (existsb_first _ _ Eex) as (pre & ev & post & -> & Hpre & Hev).
      destruct (Hsplit pre ev post Hpre Hev) as (t0 & _ & E & _).
      now rewrite E.
    + destruct (localTrack_loop_continues evs _ (Track0_wf setup) Eex) as (t' & E & _).
      now rewrite E.
  - intros pre ev post -> Hpre Hev.
    destruct (Hsplit pre ev post Hpre Hev) as (t0 & E0 & E & Hfile).
    exists t0. rewrite E0, E. split; [reflexivity|]. split; [reflexivity|].
    intros Hcr. destruct (Hfile Hcr) as (data & Hh).
    destruct (finalize_patches t0 data Hh) as (f & Hf & Hcont & H40 & H4).
    exists f, data. split; [exact Hf|]. split; [|auto].
    destruct Hh as (f0 & Hf0 & [Hcl _] & Hc0 & _).
    unfold finalize in Hf. rewrite Hf0 in Hf. cbn [set_audioFile audioFile] in Hf.
    destruct f0 as [c o cl]. cbn [os.closed os.contents] in *. subst cl c.
    rewrite updateWavHeader_header in Hf by reflexivity.
    cbn [fst] in Hf. inversion Hf. reflexivity.
  - reflexivity.
  - intros t e He Hcl. cbn [localTrack_iter]. now rewrite He, Hcl.
Qed.

Lemma receive_loop_exits_witness :
  let evs := events_before_close ++ [event_close; EvDone] in
  snd (localTrack track_setup_ok evs) = Some (Ok tt)
  /\ exists t0,
      localTrack track_setup_ok events_before_close = (Some t0, None)
      /\ localTrack track_setup_ok evs
         = (Some (close_deferred (finalize t0)), Some (Ok tt)).
Proof.
  intros evs.
  destruct (receive_loop_exits track_setup_ok evs eq_refl eq_refl) as (H1 & H2 & _).
  split.
  - rewrite H1. vm_compute. reflexivity.
  - destruct (H2 events_before_close event_close [EvDone] eq_refl)
      as (t0 & E0 & E & _); [vm_compute; reflexivity ..|].
    exists t0. split; assumption.
Defined.

(** The file this run leaves: six data bytes, the sizes 42 and 6 in the
    header, closed. *)
Example receive_loop_file :
  audioFile <$> fst (localTrack track_setup_ok (events_before_close ++ [event_close]))
  = Some (Some (os.mkFile
       (wav_header sampleRate 1 16 [42; 0; 0; 0] [6; 0; 0; 0]
        ++ [1; 0; 254; 255; 44; 1]) 8 true)).
Proof. vm_compute. reflexivity. Qed.

(** ** The substring test of the recorders *)

Lemma slice_take_drop {A} (s : list A) (i m : nat) :
  slice s (Z.of_nat i) (Z.of_nat i + Z.of_nat m) = take m (drop i s).
Proof.
  unfold slice. rewrite Nat2Z.id. f_equal. lia.
Qed.

Lemma contains_loop_spec fuel : forall (s substr : list ascii) (i : nat),
  len s <= GoInt.max_int -> len substr <= GoInt.max_int ->
  (length s + 1 <= fuel + i)%nat ->
  contains_loop fuel s substr (Z.of_nat i) = true <->
  exists j, (i <= j)%nat /\ (j + length substr <= length s)%nat
            /\ take (length substr) (drop j s) = substr.
Proof.
  induction fuel as [|fuel IH]; intros s substr i Hs Hsub Hf.
  - cbn [contains_loop]. split; [discriminate|]. intros (j & Hj & Hl & _). lia.
  - cbn [contains_loop]. unfold GoInt.sub.
    rewrite int_small by (unfold GoInt.max_int, len in *; lia).
    unfold len at 3. rewrite slice_take_drop. unfold bytes_eqb, len.
    destruct (Z.leb_spec (Z.of_nat i) (Z.of_nat (length s) - Z.of_nat (length substr)))
      as [Hle|Hgt].
    + destruct (bool_decide (take (length substr) (drop i s) = substr)) eqn:E.
      * apply bool_decide_eq_true in E. split; [|reflexivity].
        intros _. exists i. split; [lia|]. split; [lia | exact E].
      * apply bool_decide_eq_false in E.
        replace (Z.of_nat i + 1) with (Z.of_nat (S i)) by lia.
        rewrite (IH s substr (S i)) by (assumption || lia).
        split; intros (j & Hj & Hl & Ht); exists j.
        -- split; [lia|]. auto.
        -- split; [|auto]. destruct (Nat.eq_dec j i) as [->|]; [contradiction | lia].
    + split; [discriminate|]. intros (j & Hj & Hl & _). lia.
Qed.

(** X26. [contains] decides that [substr] occurs in [s] as a run of
    consecutive bytes. In particular the empty string is contained in
    every string, and a [substr] longer than [s] is answered with false,
    without a slice out of range. *)
Lemma contains_spec (s substr : string) :
  len (list_ascii_of_string s) <= GoInt.max_int ->
  len (list_ascii_of_string substr) <= GoInt.max_int ->
  contains s substr = true <->
  exists pre post,
    list_ascii_of_string s = pre ++ list_ascii_of_string substr ++ post.
Proof.
  intros Hs Hsub. unfold contains.
  change 0 with (Z.of_nat 0).
  rewrite contains_loop_spec by (assumption || lia).
  set (l := list_ascii_of_string s). set (p := list_ascii_of_string substr).
  split.
  - intros (j & _ & Hl & Ht). exists (take j l), (drop (length p) (drop j l)).
    rewrite <- Ht at 1. now rewrite !take_drop.
  - intros (pre & post & E). exists (length pre). split; [lia|].
    rewrite E, !length_app. split; [lia|].
    now rewrite drop_app_length, take_app_length.
Qed.

Example contains_examples :
  contains "BlackHole 2ch" "BlackHole" = true
  /\ contains "Loopback Audio" "Loopback" = true
  /\ contains "Built-in Microphone" "Loopback" = false
  /\ contains "Mic" "Microphone" = false
  /\ contains "Mic" "" = true.
Proof. repeat split; vm_compute; reflexivity. Qed.

(** * Further properties *)

(** ** The helpers of [utils.go] *)

(** X1. [abs] on an [int16]: the absolute value, except at -32768, which it
    returns unchanged since 32768 does not fit. So [abs(x) > 0], the test
    for sound of the receive loops, holds exactly for the samples other
    than 0 and -32768. *)
Theorem abs_int16 (x : Z) :
  - 32768 <= x <= 32767 ->
  abs x = (if x =? - 32768 then - 32768 else Z.abs x)
  /\ (abs x >? 0) = negb (x =? 0) && negb (x =? - 32768).
Proof.
  intros Hx. unfold abs.
  destruct (Z.ltb_spec x 0) as [Hn|Hp].
  - destruct (Z.eqb_spec x (-32768)) as [->|Hne].
    + split; reflexivity.
    + unfold GoInt.int16. rewrite to_signed_small by (simpl; lia).
      split; [lia|]. destruct (Z.eqb_spec x 0); [lia|].
      cbn [negb andb]. lia.
  - destruct (Z.eqb_spec x (-32768)); [lia|]. split; [lia|].
    destruct (Z.eqb_spec x 0); cbn [negb andb]; lia.
Qed.

Lemma abs_int16_witness :
  abs (- 5) = 5 /\ (abs (- 5) >? 0) = true.
Proof.
  destruct (abs_int16 (- 5)) as [H1 H2]; [lia|].
  split; [exact H1 | exact H2].
Defined.

(** X2. [absFloat32] is the IEEE absolute value on every input but negative
    zero, which it returns with its sign. *)
Theorem absFloat32_is_SFabs (x : float32) :
  x <> S754_zero true ->
  absFloat32 x = SFabs x
  /\ absFloat32 (S754_zero true) = S754_zero true
  /\ SFabs (S754_zero true) = S754_zero false.
Proof.
  intros Hx. split; [|split; reflexivity].
  unfold absFloat32, f32.ltb, f32.neg, SFltb.
  change (f32.of_Z 0) with (S754_zero false).
  destruct x as [[|]|[|]| |[|] m e]; try reflexivity. congruence.
Qed.

Lemma absFloat32_is_SFabs_witness :
  absFloat32 (f32.of_Z (- 1)) = f32.of_Z 1.
Proof.
  destruct (absFloat32_is_SFabs (f32.of_Z (- 1))) as [H _]; [discriminate|].
  rewrite H. reflexivity.
Defined.

(** ** The driver guard under any sequence of calls *)

Lemma guard_step_invariant d op k :
  0 <= paInitCount d <= k -> k < GoInt.max_int ->
  (0 < paInitCount d <-> physically_initialized d) ->
  0 <= paInitCount (guard_step d op) <= k + 1
  /\ (0 < paInitCount (guard_step d op) <-> physically_initialized (guard_step d op)).
Proof.
  intros Hc Hk Hinv. unfold physically_initialized in *.
  destruct d as [c calls]. cbn [paInitCount paCalls] in *.
  unfold GoInt.max_int in Hk.
  destruct op as [o|]; cbn [guard_step].
  - unfold SafePortAudioInit. cbn [paInitCount paCalls].
    destruct (Z.eqb_spec c 0) as [->|Hne].
    + destruct o as [[]|e|m]; cbn [fst paInitCount paCalls]; rewrite last_snoc.
      * unfold GoInt.add. rewrite int_small by lia. split; [lia|]. split; auto. lia.
      * split; [lia|]. split; [lia | discriminate].
      * split; [lia|]. split; [lia | discriminate].
    + cbn [fst paInitCount paCalls]. unfold GoInt.add. rewrite int_small by lia.
      split; [lia|]. split; [intros _; apply Hinv; lia | lia].
  - unfold SafePortAudioTerminate, GoInt.sub. cbn [paInitCount paCalls].
    rewrite int_small by lia.
    destruct (Z.leb_spec (c - 1) 0); cbn [paInitCount paCalls].
    + rewrite last_snoc. split; [lia|]. split; [lia | discriminate].
    + split; [lia|]. split; [intros _; apply Hinv; lia | lia].
Qed.

Lemma guard_run_invariant ops : forall d k,
  0 <= paInitCount d <= k -> k + len ops <= GoInt.max_int ->
  (0 < paInitCount d <-> physically_initialized d) ->
  0 <= paInitCount (guard_run ops d) <= k + len ops
  /\ (0 < paInitCount (guard_run ops d) <-> physically_initialized (guard_run ops d)).
Proof.
  induction ops as [|op ops IH]; intros d k Hc Hk Hinv.
  - cbn. unfold len. cbn. rewrite Z.add_0_r. auto.
  - assert (Hl : len (op :: ops) = 1 + len ops) by (unfold len; cbn [length]; lia).
    rewrite Hl in *. assert (0 <= len ops) by (unfold len; lia).
    destruct (guard_step_invariant d op k Hc ltac:(lia) Hinv) as [Hc' Hinv'].
    unfold guard_run. cbn [fold_left]. fold (guard_run ops (guard_step d op)).
    destruct (IH (guard_step d op) (k + 1) Hc' ltac:(lia) Hinv') as [H1 H2].
    split; [lia | exact H2].
Qed.

(** X3. Whatever Acquire and Release calls a process makes, in any order and
    with any outcome of the driver's own initialization, the counter is
    never negative, never exceeds the number of calls, and is positive
    exactly when the driver is initialized. *)
Theorem guard_counter_tracks_driver (ops : list GuardOp) :
  len ops <= GoInt.max_int ->
  0 <= paInitCount (guard_run ops Driver0) <= len ops
  /\ (0 < paInitCount (guard_run ops Driver0)
      <-> physically_initialized (guard_run ops Driver0)).
Proof.
  intros Hb.
  destruct (guard_run_invariant ops Driver0 0) as [H1 H2]; cbn [paInitCount Driver0];
    try lia.
  - unfold physically_initialized. cbn. split; [lia | discriminate].
  - split; [lia | exact H2].
Qed.

Lemma guard_counter_tracks_driver_witness :
  let ops := [Release; Acquire (Err EOF); Acquire (Ok tt); Acquire (Ok tt);
              Release; Release; Release] in
  0 <= paInitCount (guard_run ops Driver0) <= 7
  /\ (0 < paInitCount (guard_run ops Driver0)
      <-> physically_initialized (guard_run ops Driver0)).
Proof.
  intros ops.
  exact (guard_counter_tracks_driver ops ltac:(vm_compute; discriminate)).
Defined.

(** X4. Once at most one reference is held, every further Release reaches the
    driver: each of them runs [portaudio.Terminate()], whether or not the
    driver is initialized, and the counter stays 0. *)
Theorem release_without_acquire (k : nat) (d : Driver) :
  0 <= paInitCount d <= 1 ->
  releaseN (S k) d = mkDriver 0 (paCalls d ++ replicate (S k) PaTerminate).
Proof.
  intros Hd. destruct d as [c calls]. cbn [paInitCount paCalls] in *.
  induction k as [|k IH].
  - apply SafePortAudioTerminate_last. exact Hd.
  - rewrite releaseN_S, IH, SafePortAudioTerminate_last by lia.
    f_equal. rewrite <- app_assoc. f_equal.
    change (replicate (S k) PaTerminate ++ [PaTerminate]
            = PaTerminate :: replicate (S k) PaTerminate).
    symmetry. apply replicate_cons_app.
Qed.

Lemma release_without_acquire_witness :
  releaseN 3 Driver0 = mkDriver 0 [PaTerminate; PaTerminate; PaTerminate].
Proof.
  exact (release_without_acquire 2 Driver0 ltac:(cbn; lia)).
Defined.

(** ** The sample pipe *)

Lemma LoopbackRecorder_callback_open input ch out :
  chanClosed ch = false ->
  fst (LoopbackRecorder.callback input (ch, out)) =
  if chan_full ch then (ch, out ++ [full_warning])
  else (mkChan (queue ch ++ [input]) (capacity ch) false, out).
Proof.
  intros Hc. destruct (chan_full ch) eqn:Hf.
  - unfold LoopbackRecorder.callback, select_send_default. now rewrite Hc, Hf.
  - now rewrite (proj1 (callbacks_deliver input [] ch out Hc Hf)).
Qed.

(** X5. The capture pipe keeps the oldest batches: after any run of callbacks
    the channel holds the first [capacity] batches of what it held plus
    what was offered, in order, and one warning was printed for each batch
    beyond that. *)
Theorem pipe_keeps_oldest (inputs : list (list float32))
    (ch : Chan (list float32)) (out : list string) :
  chanClosed ch = false ->
  (length (queue ch) <= capacity ch)%nat ->
  offerAll inputs (ch, out) =
  (mkChan (take (capacity ch) (queue ch ++ inputs)) (capacity ch) false,
   out ++ replicate (length (queue ch ++ inputs) - capacity ch) full_warning).
Proof.
  revert ch out. induction inputs as [|input inputs IH]; intros ch out Hc Hl.
  - cbn [offerAll fold_left]. rewrite !app_nil_r.
    replace (length (queue ch) - capacity ch)%nat with 0%nat by lia.
    cbn [replicate]. rewrite app_nil_r, take_ge by lia.
    destruct ch; cbn in *; now subst.
  - unfold offerAll. cbn [fold_left].
    rewrite LoopbackRecorder_callback_open by assumption.
    fold (offerAll inputs). unfold chan_full.
    destruct (Nat.ltb_spec (length (queue ch)) (capacity ch)) as [Hlt|Hge]; cbn [negb].
    + rewrite IH; cbn [chanClosed queue capacity]; [|reflexivity|].
      * rewrite <- !app_assoc. reflexivity.
      * rewrite length_app. cbn [length]. lia.
    + rewrite IH by assumption.
      assert (Heq : length (queue ch) = capacity ch) by lia.
      rewrite !take_app_length' by lia.
      rewrite <- app_assoc. do 2 f_equal.
      rewrite !length_app. cbn [length].
      replace (length (queue ch) + S (length inputs) - capacity ch)%nat
        with (S (length (queue ch) + length inputs - capacity ch)) by lia.
      reflexivity.
Qed.

Lemma pipe_keeps_oldest_witness :
  let b (n : Z) : list float32 := [f32.of_Z n] in
  offerAll [b 2; b 3; b 4] (mkChan [b 1] 2 false, [])
  = (mkChan [b 1; b 2] 2 false, [full_warning; full_warning]).
Proof.
  intros b.
  exact (pipe_keeps_oldest [b 2; b 3; b 4] (mkChan [b 1] 2 false) []
           eq_refl ltac:(cbn; lia)).
Defined.

(** X6. The output-capture callback always sends a batch as long as its own
    buffer. Over two callbacks with room in the channel, the second with
    fewer samples than the first: the second batch is the new samples
    followed by the tail of the first. *)
Theorem output_capture_resends_tail (in_ input1 input2 : list float32)
    (ch : Chan (list float32)) :
  chanClosed ch = false ->
  (length (queue ch) + 2 <= capacity ch)%nat ->
  length input1 = length in_ ->
  (length input2 <= length in_)%nat ->
  exists st1,
    OutputCaptureRecorder.callback input1 (in_, ch) = (st1, Ok Delivered)
    /\ OutputCaptureRecorder.callback input2 st1
       = ((input2 ++ drop (length input2) input1,
           mkChan (queue ch ++ [input1; input2 ++ drop (length input2) input1])
                  (capacity ch) false),
          Ok Delivered)
    /\ length (input2 ++ drop (length input2) input1) = length in_.
Proof.
  intros Hc Hcap H1 H2.
  assert (G1 : go_copy in_ input1 = input1).
  { unfold go_copy. rewrite H1, Nat.min_id, <- H1, firstn_all.
    rewrite drop_ge by lia. apply app_nil_r. }
  assert (G2 : go_copy input1 input2 = input2 ++ drop (length input2) input1).
  { unfold go_copy. rewrite Nat.min_r by lia. now rewrite firstn_all. }
  eexists. split.
  - apply (callbacks_deliver input1 in_ ch []); [assumption|].
    unfold chan_full. destruct (Nat.ltb_spec (length (queue ch)) (capacity ch)); [reflexivity | lia].
  - rewrite G1. split.
    + set (ch1 := mkChan (queue ch ++ [input1]) (capacity ch) false).
      destruct (callbacks_deliver input2 input1 ch1 []) as [_ E]; [reflexivity| |].
      { unfold chan_full, ch1. cbn [queue capacity]. rewrite length_app. cbn [length].
        destruct (Nat.ltb_spec (length (queue ch) + 1) (capacity ch)); [reflexivity | lia]. }
      rewrite E, G2. unfold ch1. cbn [queue capacity]. now rewrite <- app_assoc.
    + rewrite length_app, length_drop. lia.
Qed.

Lemma output_capture_resends_tail_witness :
  let b (n : Z) : float32 := f32.of_Z n in
  OutputCaptureRecorder.callback [b 5]
    (fst (OutputCaptureRecorder.callback [b 1; b 2; b 3]
            ([b 0; b 0; b 0], make_chan (list float32) 8)))
  = (([b 5; b 2; b 3], mkChan [[b 1; b 2; b 3]; [b 5; b 2; b 3]] 8 false), Ok Delivered).
Proof.
  intros b.
  destruct (output_capture_resends_tail [b 0; b 0; b 0] [b 1; b 2; b 3] [b 5]
              (make_chan (list float32) 8))
    as (st1 & E1 & E2 & _); [reflexivity | cbn; lia | reflexivity | cbn; lia |].
  rewrite E1. exact E2.
Defined.

(** ** Stopping and restarting a recorder *)

(** X7. A stopped capture recorder can be started again, since [Start] does
    not look at [isClosed]; its sample channel stays closed, so the first
    buffer the driver delivers makes the callback panic. *)
Theorem restart_after_stop_panics (host : Host) (apis : list HostApiInfo)
    (label : string) (dev : DeviceInfo) (r : LoopbackRecorder.t) (d : Driver)
    (input : list float32) (out : list string) :
  LoopbackRecorder.isClosed r = false ->
  chanClosed (LoopbackRecorder.Samples r) = false ->
  HostApis host = Ok apis -> OpenStream host = Ok tt -> StreamStart host = Ok tt ->
  LoopbackRecorder.selectDevice apis label = Some dev ->
  exists r1 d1 r2,
    LoopbackRecorder.Stop (r, d) = ((r1, d1), Ok tt)
    /\ LoopbackRecorder.Start host label r1 = (r2, Ok tt)
    /\ (exists st, LoopbackRecorder.stream r2 = Some st
                   /\ streamState st = StreamStarted)
    /\ LoopbackRecorder.isClosed r2 = true
    /\ snd (LoopbackRecorder.callback input (LoopbackRecorder.Samples r2, out))
       = Panic "send on closed channel".
Proof.
  intros Hcl Hch Ha Ho Hs Hsel.
  eexists _, _, _. split; [now apply LoopbackRecorder_Stop_first|].
  split; [exact (LoopbackRecorder_Start_selected host apis label _ dev Ha Ho Hs Hsel)|].
  cbn [LoopbackRecorder.stream LoopbackRecorder.isClosed LoopbackRecorder.Samples].
  split; [eexists; split; reflexivity|]. split; [reflexivity|].
  reflexivity.
Qed.

Lemma restart_after_stop_panics_witness :
  exists r2,
    LoopbackRecorder.Start (host_of [usb_mic]) "USB Microphone" recorder_stopped
    = (r2, Ok tt)
    /\ snd (LoopbackRecorder.callback half_sample (LoopbackRecorder.Samples r2, []))
       = Panic "send on closed channel".
Proof.
  destruct (restart_after_stop_panics (host_of [usb_mic]) [core_audio [usb_mic]]
              "USB Microphone" usb_mic recorder_new Driver0 half_sample [])
    as (r1 & d1 & r2 & E1 & E2 & _ & _ & E5); try reflexivity.
  assert (r1 = recorder_stopped) by (vm_compute in E1; now inversion E1).
  subst r1. exists r2. split; assumption.
Defined.

(** ** The byte buffer *)

Lemma AudioBuffer_Read_some p ab :
  AudioBuffer.buffer ab <> [] ->
  exists p',
    AudioBuffer.Read p ab
    = (AudioBuffer.mk (drop (length p) (AudioBuffer.buffer ab)),
       AudioBuffer.Returns p' (Z.of_nat (Nat.min (length p) (length (AudioBuffer.buffer ab)))))
    /\ take (Nat.min (length p) (length (AudioBuffer.buffer ab))) p'
       = take (length p) (AudioBuffer.buffer ab)
    /\ length p' = length p.
Proof.
  intros Hne. unfold AudioBuffer.Read.
  destruct (AudioBuffer.buffer ab) as [|b bs] eqn:E; [congruence|].
  set (buf := b :: bs). eexists. split; [|split].
  - f_equal. f_equal.
    destruct (Nat.le_ge_cases (length p) (length buf)).
    + now rewrite Nat.min_l.
    + rewrite Nat.min_r, !drop_ge by lia. reflexivity.
  - unfold go_copy. rewrite take_app_le by (rewrite length_take; lia).
    rewrite take_take, Nat.min_id.
    destruct (Nat.le_ge_cases (length p) (length buf)).
    + now rewrite Nat.min_l.
    + rewrite Nat.min_r, !take_ge by lia. reflexivity.
  - apply length_go_copy.
Qed.

(** X8. The buffer neither loses, repeats nor reorders bytes: after any calls
    of Write and Read, the bytes returned by the reads followed by the
    bytes still buffered are the bytes buffered at first followed by the
    bytes written. *)
Theorem audio_buffer_conserves (ops : list BufferOp) (ab : AudioBuffer.t) :
  snd (buffer_run ops ab) ++ AudioBuffer.buffer (fst (buffer_run ops ab))
  = AudioBuffer.buffer ab ++ written ops.
Proof.
  revert ab. induction ops as [|[data|p] ops IH]; intros ab.
  - cbn. now rewrite app_nil_r.
  - cbn [buffer_run written flat_map]. rewrite IH. cbn [AudioBuffer.Write AudioBuffer.buffer].
    fold (written ops). now rewrite app_assoc.
  - cbn [buffer_run written flat_map app]. fold (written ops).
    destruct (AudioBuffer.buffer ab) as [|b bs] eqn:E.
    + unfold AudioBuffer.Read. rewrite E. rewrite IH, E. reflexivity.
    + destruct (AudioBuffer_Read_some p ab) as (p' & Er & Ht & _); [congruence|].
      rewrite Er, Nat2Z.id.
      destruct (buffer_run ops _) as [ab'' got] eqn:Erun.
      cbn [fst snd]. specialize (IH (AudioBuffer.mk (drop (length p) (AudioBuffer.buffer ab)))).
      rewrite Erun in IH. cbn [fst snd AudioBuffer.buffer] in IH.
      rewrite <- app_assoc, IH, Ht, app_assoc, take_drop, E. reflexivity.
Qed.

(** X9. A read of a buffer that holds data never returns without bytes unless
    the caller's slice is empty, and a slice at least as long as the
    buffered data takes all of it. *)
Theorem audio_buffer_read (p : list Z) (ab : AudioBuffer.t) :
  AudioBuffer.buffer ab <> [] ->
  exists ab' p' n,
    AudioBuffer.Read p ab = (ab', AudioBuffer.Returns p' n)
    /\ n = Z.min (len p) (len (AudioBuffer.buffer ab))
    /\ (p <> [] -> 0 < n)
    /\ take (Z.to_nat n) p' = take (length p) (AudioBuffer.buffer ab)
    /\ AudioBuffer.buffer ab' = drop (length p) (AudioBuffer.buffer ab)
    /\ ((length (AudioBuffer.buffer ab) <= length p)%nat ->
        AudioBuffer.buffer ab' = []
        /\ take (Z.to_nat n) p' = AudioBuffer.buffer ab).
Proof.
  intros Hne. destruct (AudioBuffer_Read_some p ab Hne) as (p' & Er & Ht & Hl).
  eexists _, p', _. split; [exact Er|]. unfold len. rewrite <- Nat2Z.inj_min.
  split; [reflexivity|]. split.
  - intros Hp. destruct p; [congruence|].
    destruct (AudioBuffer.buffer ab); [congruence|]. cbn [length]. lia.
  - rewrite Nat2Z.id. split; [exact Ht|]. cbn [AudioBuffer.buffer].
    split; [reflexivity|]. intros Hle. rewrite Ht.
    rewrite drop_ge, take_ge by lia. auto.
Qed.

Lemma audio_buffer_read_witness :
  AudioBuffer.Read [0; 0] (AudioBuffer.Write [7; 8; 9] AudioBuffer.New)
  = (AudioBuffer.mk [9], AudioBuffer.Returns [7; 8] 2).
Proof.
  destruct (audio_buffer_read [0; 0] (AudioBuffer.Write [7; 8; 9] AudioBuffer.New))
    as (ab' & p' & n & E & Hn & _); [discriminate|].
  rewrite E. vm_compute in E. symmetry. exact E.
Defined.

(** ** Creating and configuring a session *)

Lemma buildTranslationPrompt_nonempty s : buildTranslationPrompt s <> ""%string.
Proof. unfold buildTranslationPrompt. discriminate. Qed.

(** X10. The prompt set with [SetSystemPrompt] is never sent: on an open
    channel [initializeSession] and [UpdateSystemPrompt] both send the
    built translation prompt, which depends on the target language only. *)
Theorem system_prompt_is_never_sent (p : string) (s : Session)
    (d : webrtc.DataChannel) :
  dc s = Some d ->
  webrtc.ReadyState d = webrtc.DataChannelStateOpen ->
  let sent_after (evt : Json) :=
    Some (webrtc.mkDataChannel webrtc.DataChannelStateOpen
            (webrtc.sent d ++ [evt]) (webrtc.onOpen d)) in
  dc (fst (initializeSession (SetSystemPrompt p s)))
    = sent_after (session_update_event (voice s) (buildTranslationPrompt s))
  /\ dc (fst (UpdateSystemPrompt (SetSystemPrompt p s)))
    = sent_after (prompt_update_event (buildTranslationPrompt s))
  /\ buildTranslationPrompt (SetSystemPrompt p s) = buildTranslationPrompt s
  /\ buildTranslationPrompt s <> ""%string.
Proof.
  intros Hd Ho sent_after.
  assert (Hb : buildTranslationPrompt (SetSystemPrompt p s) = buildTranslationPrompt s)
    by reflexivity.
  split; [|split; [|split; [exact Hb | apply buildTranslationPrompt_nonempty]]].
  - unfold initializeSession. rewrite Hb.
    rewrite bool_decide_eq_false_2 by apply buildTranslationPrompt_nonempty.
    cbn [dc SetSystemPrompt voice]. rewrite Hd.
    unfold webrtc.SendText. rewrite Ho, bool_decide_eq_true_2 by reflexivity.
    reflexivity.
  - unfold UpdateSystemPrompt. rewrite Hb.
    cbn [dc SetSystemPrompt]. rewrite Hd, Ho, bool_decide_eq_true_2 by reflexivity.
    cbn [negb].
    rewrite bool_decide_eq_false_2 by apply buildTranslationPrompt_nonempty.
    unfold webrtc.SendText. rewrite Ho, bool_decide_eq_true_2 by reflexivity.
    reflexivity.
Qed.

Lemma system_prompt_is_never_sent_witness :
  let s := new_session recorder_new webrtc.DataChannelStateOpen in
  dc (fst (initializeSession (SetSystemPrompt "Answer in Latin." s)))
  = dc (fst (initializeSession s)).
Proof.
  intros s.
  destruct (system_prompt_is_never_sent "Answer in Latin." s
              (webrtc.mkDataChannel webrtc.DataChannelStateOpen [] None)
              eq_refl eq_refl) as (H & _).
  rewrite H. vm_compute. reflexivity.
Defined.

(** X11. A new voice or target language reaches the provider only through the
    update calls. The setters send nothing. On an open data channel
    [UpdateSessionSettings] after [SetVoice] sends one [session.update]
    that carries the new voice and nothing else, and [UpdateSystemPrompt]
    after [SetTargetLanguage] one that carries the prompt built for the new
    language; while the channel is missing or not open both return the
    error "data channel not opened" and the change is not sent, then or
    later. *)
Theorem settings_sent_only_by_update (s : Session) (v lang : string) :
  dc (SetVoice v s) = dc s /\ dc (SetTargetLanguage lang s) = dc s
  /\ (forall d,
        dc s = Some d -> webrtc.ReadyState d = webrtc.DataChannelStateOpen ->
        let sent_after (evt : Json) :=
          Some (webrtc.mkDataChannel webrtc.DataChannelStateOpen
                  (webrtc.sent d ++ [evt]) (webrtc.onOpen d)) in
        UpdateSessionSettings (SetVoice v s)
        = (set_dc (SetVoice v s) (sent_after (voice_update_event v)), Ok tt)
        /\ UpdateSystemPrompt (SetTargetLanguage lang s)
           = (set_dc (SetTargetLanguage lang s)
                (sent_after (prompt_update_event
                               (buildTranslationPrompt (SetTargetLanguage lang s)))),
              Ok tt))
  /\ (not_open s ->
      UpdateSessionSettings (SetVoice v s)
      = (SetVoice v s, Err (errorString "data channel not opened"))
      /\ UpdateSystemPrompt (SetTargetLanguage lang s)
         = (SetTargetLanguage lang s, Err (errorString "data channel not opened"))).
Proof.
  split; [reflexivity|]. split; [reflexivity|]. split.
  - intros d Hd Ho sent_after. unfold UpdateSessionSettings, UpdateSystemPrompt.
    cbn [dc SetVoice SetTargetLanguage voice]. rewrite Hd.
    rewrite bool_decide_eq_true_2 by assumption. cbn [negb].
    rewrite bool_decide_eq_false_2 by apply buildTranslationPrompt_nonempty.
    unfold webrtc.SendText. rewrite Ho, bool_decide_eq_true_2 by reflexivity.
    split; reflexivity.
  - intros Hno. unfold UpdateSessionSettings, UpdateSystemPrompt.
    cbn [dc SetVoice SetTargetLanguage].
    destruct (dc s) as [d|] eqn:Hd; [|split; reflexivity].
    rewrite bool_decide_eq_false_2 by (now apply Hno). split; reflexivity.
Qed.

(** X12. [NewSession] accounts for the driver guard: when it returns a session
    the counter has gone up by one and the session holds a new recorder,
    an open stop channel and non-empty voice and language; when it returns
    an error the counter is as before. *)
Theorem NewSession_guard (env : SessionEnv)
    (ephemeralKey model lang0 voice0 : string) (d : Driver) :
  0 <= paInitCount d < GoInt.max_int ->
  match NewSession env ephemeralKey model lang0 voice0 d with
  | (d', Ok s) =>
      paInitCount d' = paInitCount d + 1
      /\ recorder s = Some recorder_new
      /\ stopCh s = Some (make_chan unit 0)
      /\ voice s = (if bool_decide (voice0 = ""%string) then "alloy"%string else voice0)
      /\ targetLang s
         = (if bool_decide (lang0 = ""%string) then "English"%string else lang0)
      /\ voice s <> ""%string /\ targetLang s <> ""%string
  | (d', Err _) => paInitCount d' = paInitCount d
  | (d', Panic _) => paInitCount d' = paInitCount d
  end.
Proof.
  intros Hc. unfold NewSession.
  destruct (MkdirAll env) as [[]|e|m]; try reflexivity.
  destruct (NewPeerConnection env) as [[]|e|m]; try reflexivity.
  destruct (NewTrackLocalStaticSample env) as [[]|e|m]; try reflexivity.
  destruct (AddTrack env) as [[]|e|m]; try reflexivity.
  destruct (CreateDataChannel env) as [[]|e|m]; try reflexivity.
  unfold LoopbackRecorder.New, SafePortAudioInit.
  destruct d as [c calls]. cbn [paInitCount paCalls] in *.
  unfold GoInt.max_int in Hc.
  destruct (Z.eqb_spec c 0) as [->|Hne].
  - destruct (Initialize env) as [[]|e|m]; cbn [paInitCount]; try reflexivity.
    cbn [recorder stopCh voice targetLang].
    repeat split; try reflexivity.
    + destruct (bool_decide (voice0 = ""%string)) eqn:E; [discriminate|].
      now apply bool_decide_eq_false in E.
    + destruct (bool_decide (lang0 = ""%string)) eqn:E; [discriminate|].
      now apply bool_decide_eq_false in E.
  - cbn [paInitCount recorder stopCh voice targetLang].
    unfold GoInt.add. rewrite int_small by lia.
    repeat split; try reflexivity.
    + destruct (bool_decide (voice0 = ""%string)) eqn:E; [discriminate|].
      now apply bool_decide_eq_false in E.
    + destruct (bool_decide (lang0 = ""%string)) eqn:E; [discriminate|].
      now apply bool_decide_eq_false in E.
Qed.

Lemma NewSession_guard_witness :
  let env := mkSessionEnv (Ok tt) (Ok tt) (Ok tt) (Ok tt) (Ok tt) (Ok tt) in
  exists s,
    NewSession env "key" "gpt-4o-mini-realtime-preview" "" "" Driver0
    = (mkDriver 1 [PaInitialize true], Ok s)
    /\ voice s = "alloy"%string /\ targetLang s = "English"%string.
Proof.
  intros env.
  pose proof (NewSession_guard env "key" "gpt-4o-mini-realtime-preview" "" "" Driver0
                ltac:(vm_compute; split; [discriminate | reflexivity])) as H.
  destruct (NewSession env "key" "gpt-4o-mini-realtime-preview" "" "" Driver0)
    as [d' [s|e|m]] eqn:E; try (vm_compute in E; discriminate).
  destruct H as (_ & _ & _ & Hv & Hl & _).
  exists s. split; [|split; assumption].
  vm_compute in E. inversion E. reflexivity.
Defined.

(** ** The send goroutine around the opening and the stop of the session *)

Lemma sendBatch_not_open batch s l :
  not_open s ->
  exists l', sendBatch batch (s, l) = ((s, l'), Ok tt).
Proof.
  intros H. unfold sendBatch. cbv beta iota.
  destruct (dc s) as [d|] eqn:E; [|eexists; reflexivity].
  rewrite bool_decide_eq_false_2 by (now apply H). eexists. reflexivity.
Qed.

(** X13. A batch that the send loop takes from the pipe while the data channel
    is not open is gone: it leaves the queue and nothing reaches the
    transport. *)
Theorem batch_taken_before_open_is_lost (w : World) (l : SendLoop)
    (r : LoopbackRecorder.t) (batch : list float32) (rest : list (list float32)) :
  sender w = Some l ->
  recorder (session w) = Some r ->
  queue (LoopbackRecorder.Samples r) = batch :: rest ->
  not_open (session w) ->
  let w' := step (SendLoopStep CaseSamples) w in
  queued w' = rest
  /\ transport_log w' = transport_log w
  /\ dc (session w') = dc (session w)
  /\ (exists l', sender w' = Some l').
Proof.
  intros Hs Hr Hq Hno w'. subst w'. cbn [step]. rewrite Hs.
  unfold sendLoop_step. rewrite Hr. unfold recv. rewrite Hq.
  set (r' := LoopbackRecorder.mk _ _ _).
  assert (Hno' : not_open (set_recorder (session w) (Some r'))) by exact Hno.
  destruct (sendBatch_not_open batch _ l Hno') as (l' & E). rewrite E.
  unfold queued, transport_log. cbn [session sender recorder set_recorder dc].
  repeat split; eauto.
Qed.

Lemma batch_taken_before_open_is_lost_witness :
  let w := step (HardwareCallback half_sample)
             (fst (Session_Start (host_of [usb_mic]) "USB Microphone"
                                 (world_new webrtc.DataChannelStateConnecting))) in
  queued w = [half_sample]
  /\ queued (step (SendLoopStep CaseSamples) w) = []
  /\ transport_log (step (SendLoopStep CaseSamples) w) = [].
Proof.
  intros w. split; [vm_compute; reflexivity|].
  destruct (batch_taken_before_open_is_lost w SendLoop0
              (LoopbackRecorder.mk
                 (Some (mkStream usb_mic 1 true (Some 512) StreamStarted))
                 (mkChan [half_sample] 1024 false) false)
              half_sample [])
    as (H1 & H2 & _); try (vm_compute; reflexivity).
  - intros d Hd. vm_compute in Hd. inversion Hd. discriminate.
  - split; [exact H1|]. rewrite H2. vm_compute. reflexivity.
Defined.





(** ** The WAV header *)

Lemma div_small a : 0 <= a < 2 ^ 63 -> GoInt.div a 8 = a / 8.
Proof.
  intros Ha. unfold GoInt.div. rewrite Z.quot_div_nonneg by lia.
  apply int_small. split.
  - assert (0 <= a / 8) by (apply Z.div_pos; lia). lia.
  - assert (a / 8 <= a) by (apply Z.div_le_upper_bound; lia). lia.
Qed.

(** X15. The header that [writeWavHeader] writes to a new file describes the
    stream it was asked for: 44 bytes, the four chunk tags in place, PCM
    format, and the channel count, sample rate, byte rate, block alignment
    and bit depth in their little-endian fields; both size fields are 0. *)
Theorem writeWavHeader_fields (sr ch bits : Z) :
  0 <= sr < 2 ^ 32 -> 0 <= ch < 2 ^ 16 -> 0 <= bits < 2 ^ 16 ->
  sr * ch * bits < 2 ^ 63 ->
  exists h,
    writeWavHeader sr ch bits os.Create = (os.mkFile h 44 false, Ok tt)
    /\ length h = 44%nat
    /\ take 4 h = bytes_of_string "RIFF"
    /\ take 8 (drop 8 h) = bytes_of_string "WAVEfmt "
    /\ take 4 (drop 36 h) = bytes_of_string "data"
    /\ field32 h 4 = 0 /\ field32 h 40 = 0
    /\ field32 h 16 = 16 /\ field16 h 20 = 1
    /\ field16 h 22 = ch
    /\ field32 h 24 = sr
    /\ field32 h 28 = (sr * ch * bits / 8) mod 2 ^ 32
    /\ field16 h 32 = (ch * bits / 8) mod 2 ^ 16
    /\ field16 h 34 = bits.
Proof.
  intros Hsr Hch Hbits Hprod.
  assert (Hcb : 0 <= ch * bits < 2 ^ 63) by nia.
  assert (Hsc : 0 <= sr * ch < 2 ^ 63) by nia.
  assert (Hscb : 0 <= sr * ch * bits) by nia.
  eexists. split; [apply writeWavHeader_Create|].
  unfold wav_header, wav_header_mid.
  unfold GoInt.mul. rewrite !(int_small (ch * bits)) by lia.
  rewrite (int_small (sr * ch)) by lia.
  rewrite (int_small (sr * ch * bits)) by lia.
  rewrite !div_small by lia.
  set (br := GoInt.uint32 (sr * ch * bits / 8)).
  set (ba := GoInt.uint16 (ch * bits / 8)).
  assert (E16 : forall v, [GoInt.byte v; GoInt.byte (Z.shiftr v 8)] = le_bytes 2 v)
    by reflexivity.
  assert (E32 : forall v, [GoInt.byte v; GoInt.byte (Z.shiftr v 8);
                           GoInt.byte (Z.shiftr (Z.shiftr v 8) 8);
                           GoInt.byte (Z.shiftr (Z.shiftr (Z.shiftr v 8) 8) 8)]
                          = le_bytes 4 v) by reflexivity.
  assert (V16 : forall v, 0 <= v < 2 ^ 16 -> le_value (le_bytes 2 v) = v).
  { intros v Hv. rewrite le_value_le_bytes. apply Z.mod_small. simpl; lia. }
  assert (U16 : forall v, le_value (le_bytes 2 (GoInt.uint16 v)) = v mod 2 ^ 16).
  { intros v. rewrite le_value_le_bytes. unfold GoInt.uint16, GoInt.to_unsigned.
    change (2 ^ (8 * Z.of_nat 2)) with (2 ^ 16). apply Z.mod_mod. lia. }
  assert (U32 : forall v, le_value (le_bytes 4 (GoInt.uint32 v)) = v mod 2 ^ 32).
  { intros v. rewrite le_value_le_bytes_4 by apply uint32_range. reflexivity. }
  unfold field32, field16.
  cbn [bytes_of_string list_ascii_of_string map app le_bytes take drop length
       firstn skipn].
  rewrite ?E32, ?E16.
  repeat split; try reflexivity.
  - rewrite U16. apply Z.mod_small. lia.
  - rewrite U32. apply Z.mod_small. lia.
  - unfold br. apply U32.
  - unfold ba. apply U16.
  - rewrite U16. apply Z.mod_small. lia.
Qed.

Lemma writeWavHeader_fields_witness :
  exists h,
    writeWavHeader 48000 1 16 os.Create = (os.mkFile h 44 false, Ok tt)
    /\ field16 h 22 = 1 /\ field32 h 24 = 48000 /\ field32 h 28 = 96000
    /\ field16 h 32 = 2 /\ field16 h 34 = 16.
Proof.
  destruct (writeWavHeader_fields 48000 1 16) as (h & E & H); try lia.
  exists h. split; [exact E|].
  destruct H as (_ & _ & _ & _ & _ & _ & _ & _ & H22 & H24 & H28 & H32 & H34).
  repeat split; assumption.
Defined.

(** ** Patching the header in place *)

Lemma pwrite_lookup data off bs i :
  os.pwrite data off bs !! i =
  if (i <? off)%nat then read_extended data off i
  else if (i <? off + length bs)%nat then bs !! (i - off)%nat
  else data !! i.
Proof.
  unfold os.pwrite, read_extended.
  assert (Hl : length (take off data ++ replicate (off - length data) 0) = off).
  { rewrite length_app, length_take, length_replicate. lia. }
  rewrite app_assoc.
  destruct (Nat.ltb_spec i off) as [Hlt|Hge].
  - rewrite lookup_app_l by lia.
    destruct (data !! i) as [b|] eqn:E.
    + apply lookup_lt_Some in E as Hi.
      rewrite lookup_app_l by (rewrite length_take; lia).
      rewrite lookup_take_lt by lia. exact E.
    + apply lookup_ge_None in E as Hi.
      rewrite lookup_app_r by (rewrite length_take; lia).
      rewrite lookup_replicate_2; [reflexivity|]. rewrite length_take. lia.
  - rewrite lookup_app_r by lia. rewrite Hl.
    destruct (Nat.ltb_spec i (off + length bs)) as [Hlt|Hge2].
    + rewrite lookup_app_l by lia. reflexivity.
    + rewrite lookup_app_r by lia. rewrite lookup_drop. f_equal. lia.
Qed.

Lemma length_pwrite data off bs :
  length (os.pwrite data off bs) = Nat.max (off + length bs) (length data).
Proof.
  unfold os.pwrite.
  rewrite !length_app, length_take, length_replicate, length_drop. lia.
Qed.

Lemma updateWavHeader_lookup (f : os.File) (dataSize : Z) :
  os.closed f = false ->
  exists c',
    updateWavHeader dataSize f = (os.mkFile c' 8 false, Ok tt)
    /\ length c' = Nat.max 44 (length (os.contents f))
    /\ forall i,
         c' !! i =
         if (4 <=? i)%nat && (i <? 8)%nat
         then le_bytes 4 (GoInt.uint32 (GoInt.int64 (dataSize + 36))) !! (i - 4)%nat
         else if (40 <=? i)%nat && (i <? 44)%nat
         then le_bytes 4 (GoInt.uint32 dataSize) !! (i - 40)%nat
         else read_extended (os.contents f) 44 i.
Proof.
  intros Hc. destruct f as [c off cl]. cbn [os.closed os.contents] in *. subst cl.
  set (b4 := le_bytes 4 (GoInt.uint32 (GoInt.int64 (dataSize + 36)))).
  set (b40 := le_bytes 4 (GoInt.uint32 dataSize)).
  exists (os.pwrite (os.pwrite c 40 b40) 4 b4).
  split; [reflexivity|]. split.
  - rewrite !length_pwrite. unfold b4, b40. rewrite !length_le_bytes. lia.
  - intros i. rewrite !pwrite_lookup. unfold b4, b40. rewrite !length_le_bytes.
    unfold read_extended. rewrite !pwrite_lookup. rewrite !length_le_bytes.
    unfold read_extended.
    destruct (Nat.ltb_spec i 4), (Nat.leb_spec 4 i), (Nat.ltb_spec i 8),
      (Nat.ltb_spec i (4 + 4)), (Nat.ltb_spec i 40), (Nat.leb_spec 40 i),
      (Nat.ltb_spec i 44), (Nat.ltb_spec i (40 + 4)); try lia;
      cbn [andb]; try reflexivity;
      destruct (c !! i); reflexivity.
Qed.

Lemma take_drop_lookup {A} (l b : list A) (off n : nat) :
  length b = n -> (forall i, (i < n)%nat -> l !! (off + i)%nat = b !! i) ->
  take n (drop off l) = b.
Proof.
  intros Hb H. apply list_eq. intros i.
  destruct (Nat.lt_ge_cases i n) as [Hlt|Hge].
  - rewrite lookup_take_lt by lia. rewrite lookup_drop. now apply H.
  - rewrite lookup_take_ge by lia. symmetry. apply lookup_ge_None. lia.
Qed.

(** X16. [updateWavHeader] on an open file rewrites the two size fields and
    nothing else: every other byte reads as before (a file shorter than a
    header is extended with zeros to 44 bytes), the fields hold the data
    size and the data size plus 36 modulo [2^32], the offset is left at 8,
    and a second call with the same size changes nothing. *)
Theorem updateWavHeader_patches_in_place (f : os.File) (dataSize : Z) :
  os.closed f = false ->
  exists c',
    updateWavHeader dataSize f = (os.mkFile c' 8 false, Ok tt)
    /\ length c' = Nat.max 44 (length (os.contents f))
    /\ (forall i, outside_size_fields i ->
                  c' !! i = read_extended (os.contents f) 44 i)
    /\ field32 c' 40 = dataSize mod 2 ^ 32
    /\ field32 c' 4 = (dataSize + 36) mod 2 ^ 32
    /\ updateWavHeader dataSize (os.mkFile c' 8 false) = (os.mkFile c' 8 false, Ok tt).
Proof.
  intros Hc.
  destruct (updateWavHeader_lookup f dataSize Hc) as (c' & E & Hl & Hi).
  exists c'. split; [exact E|]. split; [exact Hl|].
  assert (F40 : take 4 (drop 40 c') = le_bytes 4 (GoInt.uint32 dataSize)).
  { apply take_drop_lookup; [apply length_le_bytes|]. intros i Hlt. rewrite Hi.
    replace ((4 <=? 40 + i)%nat && (40 + i <? 8)%nat) with false
      by (symmetry; apply andb_false_iff; right; apply Nat.ltb_ge; lia).
    replace ((40 <=? 40 + i)%nat && (40 + i <? 44)%nat) with true
      by (symmetry; apply andb_true_iff; split;
          [apply Nat.leb_le | apply Nat.ltb_lt]; lia).
    f_equal. lia. }
  assert (F4 : take 4 (drop 4 c')
               = le_bytes 4 (GoInt.uint32 (GoInt.int64 (dataSize + 36)))).
  { apply take_drop_lookup; [apply length_le_bytes|]. intros i Hlt. rewrite Hi.
    replace ((4 <=? 4 + i)%nat && (4 + i <? 8)%nat) with true
      by (symmetry; apply andb_true_iff; split;
          [apply Nat.leb_le | apply Nat.ltb_lt]; lia).
    f_equal. lia. }
  split; [|split; [|split]].
  - intros i Ho. rewrite Hi. unfold outside_size_fields in Ho.
    replace ((4 <=? i)%nat && (i <? 8)%nat) with false.
    2:{ symmetry. apply andb_false_iff.
        destruct (Nat.lt_ge_cases i 4); [left; apply Nat.leb_gt | right; apply Nat.ltb_ge]; lia. }
    replace ((40 <=? i)%nat && (i <? 44)%nat) with false.
    2:{ symmetry. apply andb_false_iff.
        destruct (Nat.lt_ge_cases i 40); [left; apply Nat.leb_gt | right; apply Nat.ltb_ge]; lia. }
    reflexivity.
  - unfold field32. rewrite F40, le_value_le_bytes_4 by apply uint32_range. reflexivity.
  - unfold field32. rewrite F4, le_value_le_bytes_4 by apply uint32_range.
    now rewrite uint32_int64.
  - destruct (updateWavHeader_lookup (os.mkFile c' 8 false) dataSize eq_refl)
      as (c2 & E2 & Hl2 & Hi2).
    rewrite E2. do 2 f_equal. cbn [os.contents] in *.
    apply list_eq. intros i. rewrite Hi2, Hi.
    destruct ((4 <=? i)%nat && (i <? 8)%nat) eqn:E4; [reflexivity|].
    destruct ((40 <=? i)%nat && (i <? 44)%nat) eqn:E40; [reflexivity|].
    unfold read_extended at 1. rewrite Hi, E4, E40.
    unfold read_extended.
    destruct (os.contents f !! i); [reflexivity|].
    destruct (i <? 44)%nat; reflexivity.
Qed.

Lemma updateWavHeader_patches_in_place_witness :
  exists c',
    updateWavHeader 6 (os.mkFile [82; 73; 70] 3 false) = (os.mkFile c' 8 false, Ok tt)
    /\ length c' = 44%nat
    /\ field32 c' 40 = 6 /\ field32 c' 4 = 42.
Proof.
  destruct (updateWavHeader_patches_in_place (os.mkFile [82; 73; 70] 3 false) 6 eq_refl)
    as (c' & E & Hl & _ & H40 & H4 & _).
  exists c'. repeat split; assumption.
Defined.

(** ** Device selection *)

(** X17. What the two matching passes of [LoopbackRecorder.Start] leave in
    [selected]. A selected device is in the catalog, has input channels,
    and its name is the label or, for a label that is not empty, contains
    it. When nothing is selected no device of the catalog qualifies. *)
Theorem capture_selection_sound (apis : list HostApiInfo) (label : string) :
  match LoopbackRecorder.selectDevice apis label with
  | Some dev =>
      In dev (all_devices apis) /\ 0 < MaxInputChannels dev
      /\ (Name dev = label
          \/ (label <> ""%string /\ contains (Name dev) label = true
              /\ forall d, In d (all_devices apis) -> 0 < MaxInputChannels d ->
                           Name d <> label))
  | None =>
      forall d, In d (all_devices apis) -> 0 < MaxInputChannels d ->
                Name d <> label
                /\ (label = ""%string \/ contains (Name d) label = false)
  end.
Proof.
  unfold LoopbackRecorder.selectDevice. rewrite !scan_apis_find.
  set (exact := fun dev => (MaxInputChannels dev >? 0) && bool_decide (Name dev = label)).
  set (partial := fun dev => (MaxInputChannels dev >? 0) && contains (Name dev) label).
  assert (Hex : forall d, exact d = true <-> 0 < MaxInputChannels d /\ Name d = label).
  { intros d. unfold exact. rewrite andb_true_iff, bool_decide_eq_true.
    destruct (Z.gtb_spec (MaxInputChannels d) 0); intuition (lia || discriminate). }
  assert (Hpa : forall d, partial d = true
                          <-> 0 < MaxInputChannels d /\ contains (Name d) label = true).
  { intros d. unfold partial. rewrite andb_true_iff.
    destruct (Z.gtb_spec (MaxInputChannels d) 0); intuition (lia || discriminate). }
  destruct (find exact (all_devices apis)) as [dev|] eqn:E.
  - cbn [bool_decide andb]. rewrite bool_decide_eq_false_2 by discriminate.
    cbn [andb]. apply find_some in E as [Hin Hp]. apply Hex in Hp as [Hc Hn].
    auto.
  - assert (Hno : forall d, In d (all_devices apis) -> 0 < MaxInputChannels d ->
                            Name d <> label).
    { intros d Hin Hc Hn.
      pose proof (find_none _ _ E d Hin) as Hf.
      assert (exact d = true) by (apply Hex; auto). congruence. }
    rewrite bool_decide_eq_true_2 by reflexivity. cbn [andb].
    destruct (bool_decide (label = ""%string)) eqn:El; cbn [negb].
    + apply bool_decide_eq_true in El. cbv beta iota. intros d Hin Hc. split; [auto | now left].
    + apply bool_decide_eq_false in El. fold partial. rewrite scan_apis_find.
      destruct (find partial (all_devices apis)) as [dev|] eqn:E2.
      * apply find_some in E2 as [Hin Hp]. apply Hpa in Hp as [Hc Hn].
        cbv beta iota.
        split; [assumption|]. split; [assumption|]. right. auto.
      * cbv beta iota. intros d Hin Hc. split; [auto|]. right.
        pose proof (find_none _ _ E2 d Hin) as Hf.
        destruct (contains (Name d) label) eqn:Ec; [|reflexivity].
        assert (partial d = true) by (apply Hpa; auto). congruence.
Qed.

Lemma find_none_iff {A} (p : A -> bool) l :
  find p l = None <-> forall x, In x l -> p x = false.
Proof.
  split; [intros H x; now apply find_none|].
  induction l as [|x l IH]; intros H; [reflexivity|]. cbn [find].
  rewrite (H x) by now left. apply IH. intros y Hy. apply H. now right.
Qed.

(** X18. The named pass of [OutputCaptureRecorder.Start] has no exact-match
    priority: with no loopback marker in the catalog and a label that is
    not empty, the first device in enumeration order that has input
    channels and whose name equals or contains the label is selected,
    whatever comes after it. *)
Theorem output_capture_first_match (host : Host) (apis : list HostApiInfo)
    (label : string) (pre post : list DeviceInfo) (dev : DeviceInfo) :
  all_devices apis = pre ++ dev :: post ->
  (forall d, In d (all_devices apis) ->
             OutputCaptureRecorder.is_loopback_marker d = false) ->
  (forall d, In d pre ->
             MaxInputChannels d <= 0
             \/ (Name d <> label /\ contains (Name d) label = false)) ->
  label <> ""%string ->
  0 < MaxInputChannels dev ->
  Name dev = label \/ contains (Name dev) label = true ->
  OutputCaptureRecorder.selectDevice host apis label = Ok (dev, MaxInputChannels dev).
Proof.
  intros Hall Hmark Hpre Hlabel Hc Hname.
  unfold OutputCaptureRecorder.selectDevice. rewrite scan_apis_find.
  rewrite (proj2 (find_none_iff _ _) Hmark).
  rewrite bool_decide_eq_true_2 by reflexivity.
  rewrite bool_decide_eq_false_2 by assumption. cbn [negb andb].
  rewrite scan_apis_find, Hall, find_app_first.
  match goal with |- context [find ?p pre] => set (named := p) end.
  assert (Hp : find named pre = None).
  { apply find_none_iff. intros d Hd. unfold named.
    destruct (Hpre d Hd) as [Hle|[Hne Hco]].
    - destruct (Z.gtb_spec (MaxInputChannels d) 0); [lia | reflexivity].
    - rewrite bool_decide_eq_false_2 by assumption. rewrite Hco.
      now rewrite andb_false_r. }
  rewrite Hp. cbn [find].
  assert (Hd : named dev = true).
  { unfold named. destruct (Z.gtb_spec (MaxInputChannels dev) 0); [|lia].
    destruct Hname as [He|Hco].
    - now rewrite bool_decide_eq_true_2.
    - rewrite Hco. now rewrite orb_true_r. }
  rewrite Hd.
  destruct (Z.eqb_spec (MaxInputChannels dev) 0); [lia | reflexivity].
Qed.

Lemma output_capture_first_match_witness :
  OutputCaptureRecorder.selectDevice (host_of [usb_mic_pro; usb_mic])
    [core_audio [usb_mic_pro; usb_mic]] "USB Microphone" = Ok (usb_mic_pro, 2)
  /\ LoopbackRecorder.selectDevice [core_audio [usb_mic_pro; usb_mic]] "USB Microphone"
     = Some usb_mic.
Proof.
  split; [|vm_compute; reflexivity].
  apply (output_capture_first_match _ _ _ [] [usb_mic]).
  - reflexivity.
  - intros d [<-|[<-|[]]]; vm_compute; reflexivity.
  - intros d [].
  - discriminate.
  - cbn; lia.
  - right. vm_compute. reflexivity.
Defined.


(** ** The byte stream of the receive loop *)

Lemma length_frame_bytes frame : length (frame_bytes frame) = (2 * length frame)%nat.
Proof.
  unfold frame_bytes. induction frame as [|b frame IH]; [reflexivity|].
  cbn [flat_map app length]. rewrite IH. lia.
Qed.

(** The conversion loop writes the samples [i .. i+k) of [buffer] to the
    bytes [2i .. 2(i+k)) of [samples] and touches nothing else. *)
Lemma bytes_loop_result k : forall (i : nat) (buffer samples : list Z),
  (i + k <= length buffer)%nat -> (2 * (i + k) <= length samples)%nat ->
  bytes_loop k (Z.of_nat i) buffer samples =
  Ok (take (2 * i) samples ++ frame_bytes (take k (drop i buffer))
        ++ drop (2 * (i + k)) samples).
Proof.
  induction k as [|k IH]; intros i buffer samples Hb Hs.
  - cbn [bytes_loop]. rewrite take_0. cbn [frame_bytes flat_map app].
    rewrite Nat.add_0_r, take_drop. reflexivity.
  - cbn [bytes_loop]. rewrite Nat2Z.id.
    destruct (buffer !! i) as [b|] eqn:E.
    2:{ apply lookup_ge_None in E. lia. }
    unfold store at 1. unfold len.
    destruct (Z.leb_spec 0 (Z.of_nat i * 2)); [|lia].
    destruct (Z.ltb_spec (Z.of_nat i * 2) (Z.of_nat (length samples))); [|lia].
    cbn [andb]. unfold store at 1. unfold len. rewrite length_insert.
    destruct (Z.leb_spec 0 (Z.of_nat i * 2 + 1)); [|lia].
    destruct (Z.ltb_spec (Z.of_nat i * 2 + 1) (Z.of_nat (length samples))); [|lia].
    cbn [andb].
    replace (Z.to_nat (Z.of_nat i * 2)) with (2 * i)%nat by lia.
    replace (Z.to_nat (Z.of_nat i * 2 + 1)) with (S (2 * i)) by lia.
    replace (Z.of_nat i + 1) with (Z.of_nat (S i)) by lia.
    rewrite IH by (rewrite ?length_insert; lia).
    f_equal.
    rewrite (drop_S buffer b i E), firstn_cons. cbn [frame_bytes flat_map app].
    fold (frame_bytes (take k (drop (S i) buffer))).
    replace (2 * S i)%nat with (S (S (2 * i))) by lia.
    set (lo := GoInt.byte b). set (hi := GoInt.byte (Z.shiftr b 8)).
    rewrite (take_S_r _ (S (2 * i)) hi)
      by (apply list_lookup_insert_eq; rewrite length_insert; lia).
    rewrite take_insert_ge by lia.
    rewrite (take_S_r _ (2 * i) lo) by (apply list_lookup_insert_eq; lia).
    rewrite take_insert_ge by lia.
    rewrite !drop_insert_lt by lia.
    rewrite <- !app_assoc. cbn [app].
    do 5 f_equal. lia.
Qed.

Lemma slice_go_copy (dst frame : list Z) :
  (length frame <= length dst)%nat ->
  slice (go_copy dst frame) 0 (len frame) = frame.
Proof.
  intros H. unfold slice, go_copy, len.
  rewrite Nat.min_r by lia. rewrite firstn_all.
  replace (Z.to_nat (Z.of_nat (length frame) - 0)) with (length frame) by lia.
  change (Z.to_nat 0) with 0%nat. rewrite drop_0.
  now rewrite take_app_length.
Qed.

(** A decoded frame that fits: its bytes go to the player and to the
    file, and the sound flag is raised if [abs] of a sample is positive. *)
Lemma localTrack_iter_frame payload frame t :
  track_wf t -> len frame <= frameSize ->
  exists t',
    localTrack_iter (EvPacket payload (DecodedFrame frame)) t = (t', None)
    /\ track_wf t'
    /\ audioBuffer t' = audioBuffer t ++ frame_bytes frame
    /\ hasSoundData t' = existsb (fun b => abs b >? 0) frame || hasSoundData t
    /\ (audioFile t = None -> audioFile t' = None)
    /\ (forall data, file_holds t data -> file_holds t' (data ++ frame_bytes frame)).
Proof.
  intros (Hb & Hp & Hs) Hfit. cbn [localTrack_iter].
  destruct (Z.gtb_spec (len frame) (len (pcm t))) as [Hgt|_]; [lia|].
  unfold frameSize in *.
  rewrite (slice_go_copy (pcm t) frame) by (unfold len in *; lia).
  set (pcm' := go_copy (pcm t) frame).
  set (buffer' := go_copy (buffer t) frame).
  assert (Hsl : slice buffer' 0 (len frame) = frame)
    by (apply slice_go_copy; unfold len in *; lia).
  rewrite Hsl. unfold len in *. rewrite Nat2Z.id.
  assert (Hbuf : take (length frame) (drop 0 buffer') = frame).
  { rewrite drop_0. unfold buffer', go_copy. rewrite Nat.min_r by lia.
    rewrite firstn_all. now rewrite take_app_length. }
  change 0 with (Z.of_nat 0).
  rewrite (bytes_loop_result (length frame) 0 buffer' (samples t))
    by (unfold buffer'; rewrite ?length_go_copy; lia).
  rewrite Hbuf. change (2 * 0)%nat with 0%nat. rewrite take_0. cbn [app].
  set (s' := frame_bytes frame ++ drop (2 * (0 + length frame)) (samples t)).
  assert (Hw : slice s' (Z.of_nat 0) (Z.of_nat (length frame) * 2) = frame_bytes frame).
  { unfold slice, s'. change (Z.to_nat (Z.of_nat 0)) with 0%nat. rewrite drop_0.
    replace (Z.to_nat (Z.of_nat (length frame) * 2 - Z.of_nat 0))
      with (length (frame_bytes frame)) by (rewrite length_frame_bytes; lia).
    now rewrite take_app_length. }
  rewrite Hw.
  match goal with |- context [saveAudio ?x ?y] => set (t0 := y) end.
  assert (Hsave : audioBuffer (saveAudio (frame_bytes frame) t0) = audioBuffer t0
                  /\ buffer (saveAudio (frame_bytes frame) t0) = buffer'
                  /\ pcm (saveAudio (frame_bytes frame) t0) = pcm'
                  /\ samples (saveAudio (frame_bytes frame) t0) = s'
                  /\ hasSoundData (saveAudio (frame_bytes frame) t0) = hasSoundData t0).
  { unfold saveAudio. destruct (audioFile t0) as [f|]; [|now subst t0].
    destruct (os.Write (frame_bytes frame) f) as [f' [bw|e|m]]; now subst t0. }
  destruct Hsave as (Ha & Hbf & Hpc & Hsm & Hh).
  eexists. split; [reflexivity|].
  cbn [audioBuffer buffer pcm samples hasSoundData audioFile].
  rewrite Ha, Hbf, Hpc, Hsm, Hh.
  split; [|split; [|split; [|split]]].
  - unfold track_wf. cbn [buffer pcm samples]. unfold len, frameSize.
    unfold buffer', pcm', s'. rewrite !length_go_copy, length_app, length_drop,
      length_frame_bytes. lia.
  - reflexivity.
  - subst t0. cbn [hasSoundData].
    destruct (existsb (fun b => abs b >? 0) frame); reflexivity.
  - intros Hnone. unfold saveAudio. subst t0. cbn [audioFile]. now rewrite Hnone.
  - intros data (f & Hf & He & Hc & Ht & Ht36).
    assert (Hold : file_holds t0 data).
    { exists f. subst t0. cbn [audioFile totalAudioBytes]. auto. }
    destruct (file_holds_saveAudio (frame_bytes frame) t0 data Hold)
      as (f' & Hf' & He' & Hc' & Ht' & Ht36').
    exists f'. cbn [audioFile totalAudioBytes]. auto.
Qed.

Lemma localTrack_loop_stream evs : forall t,
  track_wf t -> existsb terminal evs = false ->
  exists t',
    localTrack_loop evs t = (t', None)
    /\ track_wf t'
    /\ audioBuffer t' = audioBuffer t ++ pcm_stream evs
    /\ hasSoundData t'
       = existsb (fun b => abs b >? 0) (concat (decoded_frames evs)) || hasSoundData t
    /\ (forall data, file_holds t data -> file_holds t' (data ++ pcm_stream evs)).
Proof.
  induction evs as [|ev evs IH]; intros t Hwf Hex.
  - exists t. split; [reflexivity|]. split; [assumption|].
    unfold pcm_stream. cbn. rewrite app_nil_r. split; [reflexivity|].
    split; [reflexivity|]. intros data H. now rewrite app_nil_r.
  - cbn [existsb] in Hex. apply orb_false_iff in Hex as [Hev Hevs].
    assert (Hstep : exists t1 fs,
              localTrack_iter ev t = (t1, None) /\ track_wf t1
              /\ decoded_frames (ev :: evs) = fs ++ decoded_frames evs
              /\ audioBuffer t1 = audioBuffer t ++ concat (map frame_bytes fs)
              /\ hasSoundData t1
                 = existsb (fun b => abs b >? 0) (concat fs) || hasSoundData t
              /\ (forall data, file_holds t data ->
                               file_holds t1 (data ++ concat (map frame_bytes fs)))).
    { assert (Hsame : localTrack_iter ev t = (t, None) ->
                      decoded_frames (ev :: evs) = [] ++ decoded_frames evs ->
                      exists t1 fs,
                        localTrack_iter ev t = (t1, None) /\ track_wf t1
                        /\ decoded_frames (ev :: evs) = fs ++ decoded_frames evs
                        /\ audioBuffer t1 = audioBuffer t ++ concat (map frame_bytes fs)
                        /\ hasSoundData t1
                           = existsb (fun b => abs b >? 0) (concat fs) || hasSoundData t
                        /\ (forall data, file_holds t data ->
                              file_holds t1 (data ++ concat (map frame_bytes fs)))).
      { intros E1 E2. exists t, []. cbn [map concat existsb orb].
        rewrite app_nil_r. repeat split; try assumption; try apply Hwf.
        intros data H. now rewrite app_nil_r. }
      destruct ev as [|e|payload [e|frame]]; cbn [terminal] in Hev.
      - discriminate.
      - apply Hsame; [|reflexivity]. cbn [localTrack_iter]. now rewrite Hev.
      - apply Hsame; reflexivity.
      - destruct (Z.gtb_spec (len frame) frameSize) as [Hgt|Hle].
        + apply Hsame.
          * cbn [localTrack_iter]. destruct Hwf as (_ & Hp & _). rewrite Hp.
            destruct (Z.gtb_spec (len frame) frameSize); [reflexivity | lia].
          * unfold decoded_frames. cbn [flat_map].
            destruct (Z.gtb_spec (len frame) frameSize); [reflexivity | lia].
        + destruct (localTrack_iter_frame payload frame t Hwf Hle)
            as (t1 & E1 & W1 & A1 & H1 & _ & F1).
          exists t1, [frame]. cbn [map concat]. rewrite !app_nil_r.
          repeat split; try assumption; try apply W1.
          unfold decoded_frames. cbn [flat_map].
          destruct (Z.gtb_spec (len frame) frameSize); [lia | reflexivity]. }
    destruct Hstep as (t1 & fs & E1 & W1 & D1 & A1 & H1 & F1).
    destruct (IH t1 W1 Hevs) as (t2 & E2 & W2 & A2 & H2 & F2).
    exists t2. cbn [localTrack_loop]. rewrite E1. split; [exact E2|].
    split; [exact W2|]. unfold pcm_stream in *. rewrite D1, map_app, !concat_app.
    split; [|split].
    + rewrite A2, A1. now rewrite app_assoc.
    + rewrite H2, H1, existsb_app.
      destruct (existsb _ (concat fs)), (existsb _ (concat (decoded_frames evs)));
        reflexivity.
    + intros data H. rewrite app_assoc. apply F2, F1, H.
Qed.

(** X19. While the receive loop runs, the player's buffer and the audio file
    hold the same byte stream: the decoded frames in arrival order, each
    sample as two little-endian bytes; decode failures, oversized frames
    and skipped read errors contribute nothing. The file holds it after the
    44-byte header, and [hasSoundData] tells whether [abs] of some decoded
    sample was positive. *)
Theorem receive_loop_stream (setup : TrackSetup) (evs : list TrackEvent) :
  NewDecoder setup = Ok tt -> NewContext setup = Ok tt ->
  existsb terminal evs = false ->
  exists t,
    localTrack setup evs = (Some t, None)
    /\ audioBuffer t = pcm_stream evs
    /\ hasSoundData t = existsb (fun b => abs b >? 0) (concat (decoded_frames evs))
    /\ (Create setup = Ok tt ->
        exists f,
          audioFile t = Some f
          /\ os.contents f
             = wav_header sampleRate 1 16 [0; 0; 0; 0] [0; 0; 0; 0] ++ pcm_stream evs).
Proof.
  intros Hd Hc Hex.
  destruct (localTrack_loop_stream evs (Track0 setup) (Track0_wf setup) Hex)
    as (t & E & _ & A & H & F).
  exists t. unfold localTrack. rewrite Hd, Hc, E. split; [reflexivity|].
  split; [exact A|]. split; [now rewrite H, orb_false_r|].
  intros Hcr. destruct (F [] (Track0_file_holds setup Hcr)) as (f & Hf & _ & Hcont & _).
  exists f. split; [exact Hf | exact Hcont].
Qed.

Lemma receive_loop_stream_witness :
  exists t f,
    localTrack track_setup_ok events_before_close = (Some t, None)
    /\ audioBuffer t = [1; 0; 254; 255; 44; 1]
    /\ hasSoundData t = true
    /\ audioFile t = Some f
    /\ drop 44 (os.contents f) = [1; 0; 254; 255; 44; 1].
Proof.
  destruct (receive_loop_stream track_setup_ok events_before_close)
    as (t & E & A & H & F); try reflexivity.
  destruct (F eq_refl) as (f & Hf & Hc).
  exists t, f. split; [exact E|]. split; [exact A|]. split; [exact H|].
  split; [exact Hf|]. rewrite Hc. reflexivity.
Defined.


(** ** Sound detection on the send path *)

Lemma peak_positive samples : forall lvl,
  level_ok lvl = true ->
  f32.gtb (peak samples lvl) (f32.of_Z 0)
  = existsb is_sound samples || f32.gtb lvl (f32.of_Z 0).
Proof.
  change (f32.of_Z 0) with (S754_zero false).
  induction samples as [|x samples IH]; intros lvl Hl; [reflexivity|].
  cbn [peak existsb].
  assert (Hstep : let lvl' := if f32.gtb (absFloat32 x) lvl then absFloat32 x else lvl in
                  level_ok lvl' = true
                  /\ f32.gtb lvl' (S754_zero false)
                     = is_sound x || f32.gtb lvl (S754_zero false)).
  { unfold absFloat32. change (f32.of_Z 0) with (S754_zero false).
    destruct x as [[|]|[|]| |[|] m e], lvl as [[|]|[|]| |[|] m' e'];
      try discriminate Hl; cbn [f32.ltb SFltb SFcompare f32.neg SFopp negb is_sound orb];
      try (split; reflexivity);
      match goal with
      | |- context [f32.gtb ?a ?b] =>
          destruct (f32.gtb a b); split; reflexivity
      end. }
  destruct Hstep as [Hok Hgt].
  rewrite IH by exact Hok. rewrite Hgt.
  destruct (is_sound x), (existsb is_sound samples); reflexivity.
Qed.

(** X20. The send loop raises [hasSoundInput] on a batch exactly when some
    sample of it is a number other than zero (a NaN is never the peak),
    whether or not the batch is then sent; once raised the flag stays. *)
Theorem sendBatch_detects_sound (samples : list float32) (s : Session) (l : SendLoop) :
  hasSoundInput (snd (fst (sendBatch samples (s, l))))
  = existsb is_sound samples || hasSoundInput l.
Proof.
  assert (H := peak_positive samples (f32.of_Z 0) eq_refl).
  change (f32.gtb (f32.of_Z 0) (f32.of_Z 0)) with false in H.
  rewrite orb_false_r in H.
  unfold sendBatch. rewrite H.
  assert (E : (if existsb is_sound samples then true else hasSoundInput l)
              = existsb is_sound samples || hasSoundInput l)
    by (destruct (existsb is_sound samples); reflexivity).
  rewrite E.
  destruct (dc s) as [d|]; [|reflexivity].
  destruct (negb _); [reflexivity|].
  destruct (pcm_of_samples samples); try reflexivity.
  destruct (webrtc.SendText _ d). reflexivity.
Qed.

(** ** The stream callback of the redirect path *)

Lemma fill_silence_result k : forall (i : nat) (out : list float32),
  (i + k <= length out)%nat ->
  BlackHole.fill_silence k (Z.of_nat i) out
  = Ok (take i out ++ silence k ++ drop (i + k) out).
Proof.
  induction k as [|k IH]; intros i out H.
  - cbn [BlackHole.fill_silence silence replicate app].
    rewrite Nat.add_0_r, take_drop. reflexivity.
  - cbn [BlackHole.fill_silence]. unfold store, len.
    destruct (Z.leb_spec 0 (Z.of_nat i)); [|lia].
    destruct (Z.ltb_spec (Z.of_nat i) (Z.of_nat (length out))); [|lia].
    cbn [andb]. rewrite Nat2Z.id.
    replace (Z.of_nat i + 1) with (Z.of_nat (S i)) by lia.
    rewrite IH by (rewrite length_insert; lia). f_equal.
    rewrite (take_S_r _ i (S754_zero false : float32))
      by (apply list_lookup_insert_eq; unfold float32 in *; lia).
    rewrite take_insert_ge by lia. rewrite drop_insert_lt by lia.
    unfold silence. cbn [replicate]. rewrite <- app_assoc. cbn [app].
    do 4 f_equal. lia.
Qed.

Lemma redirect_callback_eq (out : list float32) (ch : Chan (list float32)) :
  BlackHole.callback out ch
  = (fst (recv ch),
     Ok (match queue ch with
         | newData :: _ => fit (length out) newData
         | [] => silence (length out)
         end)).
Proof.
  unfold BlackHole.callback, recv.
  destruct (queue ch) as [|newData rest] eqn:Eq.
  - assert (Hall : BlackHole.fill_silence (length out) 0 out
                   = Ok (silence (length out))).
    { change 0 with (Z.of_nat 0). rewrite fill_silence_result by lia.
      rewrite take_0, Nat.add_0_l, drop_all. cbn [app]. now rewrite app_nil_r. }
    destruct (chanClosed ch); cbn [fst].
    + unfold len. destruct (Z.ltb_spec 0 (Z.of_nat (length out))) as [Hlt|Hge].
      * rewrite Nat2Z.id. now rewrite Hall.
      * destruct out; [reflexivity | cbn [length] in Hge; lia].
    + now rewrite Hall.
  - cbn [fst]. unfold len. rewrite length_go_copy. unfold fit.
    destruct (Z.ltb_spec (Z.of_nat (length out `min` length newData))
                         (Z.of_nat (length out))) as [Hlt|Hge].
    + replace (Z.to_nat (Z.of_nat (length out)
                         - Z.of_nat (length out `min` length newData)))
        with (length out - length newData)%nat by lia.
      rewrite fill_silence_result by (rewrite length_go_copy; lia).
      f_equal. f_equal.
      unfold go_copy. rewrite Nat.min_r by lia.
      rewrite firstn_all, take_app_length. rewrite drop_ge.
      * rewrite app_nil_r. f_equal. rewrite take_ge by lia. reflexivity.
      * rewrite length_app, length_drop. lia.
    + f_equal. f_equal. unfold go_copy. rewrite Nat.min_l by lia.
      rewrite drop_all, app_nil_r.
      replace (length out - length newData)%nat with 0%nat by lia.
      unfold silence. cbn [replicate]. now rewrite app_nil_r.
Qed.

(** X21. The callback of the redirect stream takes at most one batch from the
    channel and fills the whole output buffer: with the batch, cut to the
    buffer or padded with silence, or with silence when the channel is
    empty. It never fails, and what it leaves in the buffer does not
    depend on what the buffer held. *)
Theorem redirect_callback_output (out : list float32) (ch : Chan (list float32)) :
  exists out',
    BlackHole.callback out ch = (fst (recv ch), Ok out')
    /\ length out' = length out
    /\ out' = match queue ch with
              | newData :: _ => fit (length out) newData
              | [] => silence (length out)
              end
    /\ (forall other, length other = length out ->
                      BlackHole.callback other ch = (fst (recv ch), Ok out')).
Proof.
  eexists. split; [apply redirect_callback_eq|]. split; [|split; [reflexivity|]].
  - destruct (queue ch) as [|newData rest].
    + apply length_replicate.
    + unfold fit, silence. rewrite length_app, length_take, length_replicate. lia.
  - intros other Hl. rewrite redirect_callback_eq, Hl. reflexivity.
Qed.

(** ** Frames on the redirect path *)

Lemma float_loop_result k : forall (i : nat) (buffer : list Z) (nb : list float32),
  (i + k <= length buffer)%nat -> (i + k <= length nb)%nat ->
  len nb <= GoInt.max_int ->
  BlackHole.float_loop k (Z.of_nat i) buffer nb
  = Ok (take i nb ++ map BlackHole.sample_float (take k (drop i buffer))
          ++ drop (i + k) nb).
Proof.
  induction k as [|k IH]; intros i buffer nb Hb Hn Hmax.
  - cbn [BlackHole.float_loop]. rewrite take_0. cbn [map app].
    rewrite Nat.add_0_r, take_drop. reflexivity.
  - cbn [BlackHole.float_loop]. rewrite Nat2Z.id.
    destruct (buffer !! i) as [b|] eqn:E.
    2:{ apply lookup_ge_None in E. lia. }
    change (Z.to_nat channels) with 1%nat. cbn [BlackHole.channel_loop].
    unfold GoInt.max_int, len in Hmax.
    assert (Hidx : GoInt.add (GoInt.mul (Z.of_nat i) channels) 0 = Z.of_nat i).
    { unfold GoInt.add, GoInt.mul, channels.
      rewrite Z.mul_1_r, (int_small (Z.of_nat i)) by lia.
      rewrite Z.add_0_r. apply int_small. lia. }
    rewrite Hidx. unfold store, len.
    destruct (Z.leb_spec 0 (Z.of_nat i)); [|lia].
    destruct (Z.ltb_spec (Z.of_nat i) (Z.of_nat (length nb))); [|lia].
    cbn [andb]. rewrite Nat2Z.id.
    replace (Z.of_nat i + 1) with (Z.of_nat (S i)) by lia.
    rewrite IH by (unfold len, GoInt.max_int; rewrite ?length_insert; lia).
    f_equal.
    rewrite (drop_S buffer b i E), firstn_cons. cbn [map].
    rewrite (take_S_r _ i (BlackHole.sample_float b))
      by (apply list_lookup_insert_eq; lia).
    rewrite take_insert_ge by lia. rewrite drop_insert_lt by lia.
    rewrite <- app_assoc. cbn [app]. do 4 f_equal. lia.
Qed.

(** A decoded frame that fits is offered to the channel as one batch, each
    sample divided by 32767; the packet is counted whether the channel
    took the batch or not, and nothing is printed when it is dropped. *)
Lemma redirect_iter_frame payload frame t :
  redirect_wf t -> len frame <= frameSize ->
  BlackHole.iter (EvPacket payload (DecodedFrame frame)) t
  = (BlackHole.mkState
       (go_copy (BlackHole.buffer t) frame) (go_copy (BlackHole.pcm t) frame)
       (if chan_full (BlackHole.audioDataChan t) then BlackHole.audioDataChan t
        else mkChan (queue (BlackHole.audioDataChan t)
                       ++ [map BlackHole.sample_float frame])
                    (capacity (BlackHole.audioDataChan t)) false)
       (GoInt.add (BlackHole.packetCount t) 1)
       (existsb (fun b => abs b >? 0) frame || BlackHole.hasSoundData t)
       (BlackHole.played t),
     None).
Proof.
  intros (Hb & Hp & Hc) Hfit. cbn [BlackHole.iter].
  destruct (Z.gtb_spec (len frame) (len (BlackHole.pcm t))) as [Hgt|_]; [lia|].
  unfold frameSize in *.
  assert (Hsl1 : slice (go_copy (BlackHole.pcm t) frame) 0 (len frame) = frame).
  { unfold slice, go_copy, len in *. rewrite Nat.min_r by lia. rewrite firstn_all.
    replace (Z.to_nat (Z.of_nat (length frame) - 0)) with (length frame) by lia.
    change (Z.to_nat 0) with 0%nat. rewrite drop_0. now rewrite take_app_length. }
  rewrite Hsl1.
  set (buffer' := go_copy (BlackHole.buffer t) frame).
  assert (Hsl2 : slice buffer' 0 (len frame) = frame).
  { unfold buffer', slice, go_copy, len in *. rewrite Nat.min_r by lia. rewrite firstn_all.
    replace (Z.to_nat (Z.of_nat (length frame) - 0)) with (length frame) by lia.
    change (Z.to_nat 0) with 0%nat. rewrite drop_0. now rewrite take_app_length. }
  rewrite Hsl2.
  assert (Hmul : GoInt.mul (len frame) channels = len frame).
  { unfold GoInt.mul, channels, len in *. rewrite Z.mul_1_r. apply int_small. lia. }
  rewrite Hmul. unfold len at 1. rewrite !Nat2Z.id.
  assert (Hbuf : take (length frame) (drop 0 buffer') = frame).
  { rewrite drop_0. unfold buffer', go_copy, len in *. rewrite Nat.min_r by lia.
    rewrite firstn_all. now rewrite take_app_length. }
  change 0 with (Z.of_nat 0) at 1.
  rewrite (float_loop_result (length frame) 0 buffer')
    by (unfold buffer', len, GoInt.max_int in *;
        rewrite ?length_go_copy, ?length_replicate; lia).
  rewrite Hbuf, take_0. cbn [app].
  rewrite drop_ge by (unfold len; rewrite length_replicate, Nat2Z.id; lia).
  rewrite app_nil_r.
  unfold select_send_default. rewrite Hc.
  destruct (chan_full (BlackHole.audioDataChan t));
    destruct (existsb (fun b => abs b >? 0) frame); reflexivity.
Qed.

Lemma redirect_iter_continues ev t :
  redirect_wf t -> terminal ev = false ->
  exists t', BlackHole.iter ev t = (t', None) /\ redirect_wf t'.
Proof.
  intros Hwf Hterm.
  destruct ev as [|e|payload [e|frame]]; cbn [terminal] in Hterm.
  - discriminate.
  - exists t. cbn [BlackHole.iter]. now rewrite Hterm.
  - exists t. now split.
  - destruct (Z.gtb_spec (len frame) frameSize) as [Hgt|Hle].
    + exists t. split; [|assumption]. cbn [BlackHole.iter].
      destruct Hwf as (_ & Hp & _). rewrite Hp.
      destruct (Z.gtb_spec (len frame) frameSize); [reflexivity | lia].
    + rewrite (redirect_iter_frame payload frame t Hwf Hle).
      eexists. split; [reflexivity|].
      destruct Hwf as (Hb & Hp & Hc).
      unfold redirect_wf. cbn [BlackHole.buffer BlackHole.pcm BlackHole.audioDataChan].
      rewrite !len_go_copy. split; [assumption|]. split; [assumption|].
      destruct (chan_full (BlackHole.audioDataChan t)); [assumption | reflexivity].
Qed.

Lemma redirect_on_callback out t :
  redirect_wf t ->
  exists t', BlackHole.on_callback out t = (t', None) /\ redirect_wf t'.
Proof.
  intros (Hb & Hp & Hc). unfold BlackHole.on_callback.
  rewrite redirect_callback_eq. eexists. split; [reflexivity|].
  unfold redirect_wf. cbn [BlackHole.buffer BlackHole.pcm BlackHole.audioDataChan].
  split; [assumption|]. split; [assumption|].
  unfold recv. destruct (queue (BlackHole.audioDataChan t)); cbn [fst chanClosed]; assumption.
Qed.

Lemma redirect_loop_result evs : forall t,
  redirect_wf t ->
  snd (BlackHole.loop evs t)
  = if existsb redirect_terminal evs then Some (Ok tt) else None.
Proof.
  induction evs as [|e evs IH]; intros t Hwf; [reflexivity|].
  cbn [BlackHole.loop existsb].
  destruct e as [ev|out]; cbn [redirect_terminal].
  - destruct (terminal ev) eqn:Hterm.
    + destruct ev as [|err|payload decoded]; cbn [terminal] in Hterm.
      * reflexivity.
      * cbn [BlackHole.iter]. rewrite Hterm. reflexivity.
      * discriminate.
    + destruct (redirect_iter_continues ev t Hwf Hterm) as (t' & -> & Hwf').
      cbn [orb]. now apply IH.
  - destruct (redirect_on_callback out t Hwf) as (t' & -> & Hwf').
    cbn [orb]. now apply IH.
Qed.

Lemma State0_wf : redirect_wf BlackHole.State0.
Proof. repeat split. Qed.

(** X22. [blackHoleTrack] gives back what it takes from the driver guard: when
    it has returned, on any path, the counter is what it was at the call
    and the driver was terminated if this call initialized it, and a
    stream that was opened has been closed last. While the loop runs the
    function holds one reference and a started stream on a device of
    1 channel, 48000 Hz and 960 frames per buffer. *)
Theorem blackHoleTrack_guard (setup : BlackHole.Setup) (evs : list BlackHole.Event)
    (d : Driver) :
  0 <= paInitCount d < GoInt.max_int ->
  let o := BlackHole.blackHoleTrack setup evs d in
  match BlackHole.returned o with
  | Some _ =>
      paInitCount (BlackHole.guard o) = paInitCount d
      /\ (paCalls (BlackHole.guard o) = paCalls d
          \/ paCalls (BlackHole.guard o) = paCalls d ++ [PaInitialize false]
          \/ paCalls (BlackHole.guard o) = paCalls d ++ [PaInitialize true; PaTerminate])
      /\ (BlackHole.streamCalls o = []
          \/ last (BlackHole.streamCalls o) = Some BlackHole.StreamCloseCalled)
  | None =>
      paInitCount (BlackHole.guard o) = paInitCount d + 1
      /\ exists dev,
           BlackHole.streamCalls o
           = [BlackHole.StreamOpened dev 1 48000 960; BlackHole.StreamStartCalled true]
  end.
Proof.
  intros Hd o. subst o. unfold BlackHole.blackHoleTrack.
  destruct (BlackHole.NewDecoder setup) as [[]|e|m]; cbn; auto.
  unfold GoInt.max_int in Hd.
  assert (Hterm : forall calls,
            SafePortAudioTerminate (mkDriver (GoInt.add (paInitCount d) 1) calls)
            = if paInitCount d =? 0 then mkDriver 0 (calls ++ [PaTerminate])
              else mkDriver (paInitCount d) calls).
  { intros calls. unfold SafePortAudioTerminate, GoInt.add, GoInt.sub.
    cbn [paInitCount paCalls]. rewrite (int_small (paInitCount d + 1)) by lia.
    rewrite int_small by lia.
    replace (paInitCount d + 1 - 1) with (paInitCount d) by lia.
    destruct (Z.eqb_spec (paInitCount d) 0) as [->|Hne]; [reflexivity|].
    destruct (Z.leb_spec (paInitCount d) 0); [lia | reflexivity]. }
  assert (Hreleased : forall d1,
            SafePortAudioInit (BlackHole.Initialize setup) d = (d1, Ok tt) ->
            paInitCount d1 = paInitCount d + 1
            /\ paInitCount (SafePortAudioTerminate d1) = paInitCount d
            /\ (paCalls (SafePortAudioTerminate d1) = paCalls d
                \/ paCalls (SafePortAudioTerminate d1) = paCalls d ++ [PaInitialize false]
                \/ paCalls (SafePortAudioTerminate d1)
                   = paCalls d ++ [PaInitialize true; PaTerminate])).
  { intros d1 E. unfold SafePortAudioInit in E.
    destruct (Z.eqb_spec (paInitCount d) 0) as [H0|Hne].
    - destruct (BlackHole.Initialize setup) as [[]|e|m]; inversion E; subst d1.
      rewrite Hterm. rewrite H0. cbn [Z.eqb paInitCount paCalls].
      split; [unfold GoInt.add; rewrite int_small; lia|]. split; [reflexivity|].
      right. right. now rewrite <- app_assoc.
    - inversion E; subst d1. rewrite Hterm.
      destruct (Z.eqb_spec (paInitCount d) 0); [contradiction|].
      cbn [paInitCount paCalls]. split; [unfold GoInt.add; rewrite int_small; lia|].
      split; [reflexivity | now left]. }
  destruct (SafePortAudioInit (BlackHole.Initialize setup) d) as [d1 [[]|e|m]] eqn:Einit.
  2,3: cbn [BlackHole.returned BlackHole.guard BlackHole.streamCalls];
    unfold SafePortAudioInit in Einit;
    destruct (paInitCount d =? 0); [destruct (BlackHole.Initialize setup)|];
    inversion Einit; subst d1; cbn [paInitCount paCalls]; auto.
  destruct (Hreleased d1 eq_refl) as (Hheld & Hcount & Hcalls).
  destruct (HostApis (BlackHole.host setup)) as [apis|e|m];
    [|cbn [BlackHole.returned BlackHole.guard BlackHole.streamCalls]; auto..].
  destruct (scan_apis BlackHole.is_blackhole_output apis None) as [dev|];
    [|cbn [BlackHole.returned BlackHole.guard BlackHole.streamCalls]; auto].
  destruct (OpenStream (BlackHole.host setup)) as [[]|e|m];
    [|cbn [BlackHole.returned BlackHole.guard BlackHole.streamCalls]; auto..].
  destruct (StreamStart (BlackHole.host setup)) as [[]|e|m];
    [|cbn [BlackHole.returned BlackHole.guard BlackHole.streamCalls last]; auto..].
  destruct (BlackHole.loop evs BlackHole.State0) as [t [r|]];
    cbn [BlackHole.returned BlackHole.guard BlackHole.streamCalls last]; auto.
  split; [assumption|]. exists dev. reflexivity.
Qed.

Lemma blackHoleTrack_guard_witness :
  let setup := BlackHole.mkSetup (Ok tt) (Ok tt) (host_of [blackhole]) in
  let held := mkDriver 1 [PaInitialize true] in
  BlackHole.guard (BlackHole.blackHoleTrack setup [BlackHole.Pass EvDone] held) = held
  /\ paInitCount (BlackHole.guard (BlackHole.blackHoleTrack setup [] held)) = 2.
Proof.
  intros setup held.
  pose proof (blackHoleTrack_guard setup [] held
                ltac:(cbn; unfold GoInt.max_int; lia)) as H2.
  split; [vm_compute; reflexivity|].
  exact (proj1 H2).
Defined.

(** X23. With a decoder, the driver and a stream that start, [blackHoleTrack]
    plays to the first device in enumeration order that has output
    channels and "BlackHole" in its name, and fails with "no BlackHole
    device found" without opening a stream when there is none. Once
    started it returns only at the first stop signal or closure of the
    connection, and then [nil]: no packet, decode failure, read error or
    callback ends it. *)
Theorem blackHoleTrack_runs (setup : BlackHole.Setup) (evs : list BlackHole.Event)
    (d : Driver) (apis : list HostApiInfo) :
  BlackHole.NewDecoder setup = Ok tt ->
  snd (SafePortAudioInit (BlackHole.Initialize setup) d) = Ok tt ->
  HostApis (BlackHole.host setup) = Ok apis ->
  OpenStream (BlackHole.host setup) = Ok tt ->
  StreamStart (BlackHole.host setup) = Ok tt ->
  let o := BlackHole.blackHoleTrack setup evs d in
  match find BlackHole.is_blackhole_output (all_devices apis) with
  | None =>
      BlackHole.returned o = Some (Err (errorString "no BlackHole device found"))
      /\ BlackHole.streamCalls o = []
  | Some dev =>
      In dev (all_devices apis) /\ 0 < MaxOutputChannels dev
      /\ strings_Contains (Name dev) "BlackHole" = true
      /\ BlackHole.returned o
         = (if existsb redirect_terminal evs then Some (Ok tt) else None)
      /\ exists rest,
           BlackHole.streamCalls o
           = BlackHole.StreamOpened dev 1 48000 960
               :: BlackHole.StreamStartCalled true :: rest
  end.
Proof.
  intros Hdec Hinit Hapis Hopen Hstart o. subst o.
  unfold BlackHole.blackHoleTrack. rewrite Hdec.
  destruct (SafePortAudioInit (BlackHole.Initialize setup) d) as [d1 r].
  cbn [snd] in Hinit. subst r. rewrite Hapis, scan_apis_find.
  destruct (find BlackHole.is_blackhole_output (all_devices apis)) as [dev|] eqn:E.
  - apply find_some in E as [Hin Hp]. unfold BlackHole.is_blackhole_output in Hp.
    apply andb_true_iff in Hp as [Hc Hn].
    split; [assumption|]. split; [lia|]. split; [assumption|].
    rewrite Hopen, Hstart.
    pose proof (redirect_loop_result evs BlackHole.State0 State0_wf) as Hl.
    destruct (BlackHole.loop evs BlackHole.State0) as [t [r|]]; cbn [snd] in Hl;
      cbn [BlackHole.returned BlackHole.streamCalls]; rewrite <- Hl;
      (split; [reflexivity | eexists; reflexivity]).
  - split; reflexivity.
Qed.

Lemma blackHoleTrack_runs_witness :
  let setup := BlackHole.mkSetup (Ok tt) (Ok tt) (host_of [usb_mic; blackhole]) in
  BlackHole.returned
    (BlackHole.blackHoleTrack setup
       [BlackHole.Pass (EvPacket [7] (DecodedFrame [1; -2]));
        BlackHole.DriverCallback [];
        BlackHole.Pass (EvReadError (errorString "i/o timeout"))] Driver0) = None.
Proof.
  intros setup.
  pose proof (blackHoleTrack_runs setup
                [BlackHole.Pass (EvPacket [7] (DecodedFrame [1; -2]));
                 BlackHole.DriverCallback [];
                 BlackHole.Pass (EvReadError (errorString "i/o timeout"))]
                Driver0 [core_audio [usb_mic; blackhole]]
                eq_refl eq_refl eq_refl eq_refl eq_refl) as H.
  exact (proj1 (proj2 (proj2 (proj2 H)))).
Defined.

(** X24. A frame offered to an empty channel is what the next callback plays:
    each sample divided by 32767, cut or padded with silence to the size
    of the driver's buffer. A frame that finds the channel full is dropped
    without a message, and is still counted as a packet. *)
Theorem redirect_frame_played (payload : list Z) (frame : list Z)
    (out : list float32) (t : BlackHole.State) :
  redirect_wf t -> len frame <= frameSize ->
  let pkt := BlackHole.Pass (EvPacket payload (DecodedFrame frame)) in
  (queue (BlackHole.audioDataChan t) = [] ->
   (0 < capacity (BlackHole.audioDataChan t))%nat ->
   exists t',
     BlackHole.loop [pkt; BlackHole.DriverCallback out] t = (t', None)
     /\ BlackHole.played t'
        = BlackHole.played t ++ [fit (length out) (map BlackHole.sample_float frame)]
     /\ queue (BlackHole.audioDataChan t') = [])
  /\ (chan_full (BlackHole.audioDataChan t) = true ->
      exists t',
        BlackHole.loop [pkt] t = (t', None)
        /\ BlackHole.audioDataChan t' = BlackHole.audioDataChan t
        /\ BlackHole.played t' = BlackHole.played t
        /\ BlackHole.packetCount t' = GoInt.add (BlackHole.packetCount t) 1).
Proof.
  intros Hwf Hfit pkt. subst pkt. split.
  - intros Hq Hcap. cbn [BlackHole.loop].
    rewrite (redirect_iter_frame payload frame t Hwf Hfit).
    unfold chan_full. rewrite Hq. cbn [length app].
    destruct (Nat.ltb_spec 0 (capacity (BlackHole.audioDataChan t))); [|lia].
    cbn [negb]. unfold BlackHole.on_callback. cbn [BlackHole.audioDataChan].
    rewrite redirect_callback_eq. cbn [queue recv fst].
    eexists. split; [reflexivity|]. split; reflexivity.
  - intros Hfull. cbn [BlackHole.loop].
    rewrite (redirect_iter_frame payload frame t Hwf Hfit), Hfull.
    eexists. split; [reflexivity|]. repeat split.
Qed.

Lemma redirect_frame_played_witness :
  exists t',
    BlackHole.loop [BlackHole.Pass (EvPacket [7] (DecodedFrame [32767; 0]));
                    BlackHole.DriverCallback (silence 3)] BlackHole.State0 = (t', None)
    /\ BlackHole.played t' = [[f32.of_Z 1; f32.of_Z 0; f32.of_Z 0]].
Proof.
  destruct (redirect_frame_played [7] [32767; 0] (silence 3) BlackHole.State0 State0_wf)
    as [H _]; [vm_compute; discriminate|].
  destruct (H eq_refl ltac:(cbn; lia)) as (t' & E & P & _).
  exists t'. split; [exact E|]. rewrite P. vm_compute. reflexivity.
Defined.

(** ** The sample conversions of the two paths *)

Lemma all_int16_spec p :
  all_int16 p = true -> forall b, - 32768 <= b <= 32767 -> p b = true.
Proof.
  intros H b Hb. unfold all_int16 in H. rewrite forallb_forall in H.
  set (x := b + 32768).
  assert (Hh : In (x / 256) (seqZ 0 256)).
  { apply list_elem_of_In, elem_of_seqZ. split; [apply Z.div_pos; lia|].
    apply Z.div_lt_upper_bound; lia. }
  specialize (H _ Hh). rewrite forallb_forall in H.
  assert (Hl : In (x mod 256) (seqZ 0 256)).
  { apply list_elem_of_In, elem_of_seqZ. pose proof (Z.mod_pos_bound x 256). lia. }
  specialize (H _ Hl).
  replace (256 * (x / 256) + x mod 256 - 32768) with b in H; [exact H|].
  rewrite <- Z.div_mod by lia. unfold x. lia.
Qed.

Lemma round_trip_check_all : all_int16 round_trip_check = true.
Proof. vm_compute. reflexivity. Qed.

(** X25. The sample conversion of the redirect path, [float32(b) / 32767.0],
    is undone by the conversion of the send path on every [int16] value
    but -32768: that one value leaves the range [-1.0, 1.0], is clamped,
    and comes back as -32767. *)
Theorem sample_float_round_trip (b : Z) :
  - 32768 <= b <= 32767 ->
  sample_int16 (BlackHole.sample_float b) = (if b =? - 32768 then - 32767 else b)
  /\ f32.leb (BlackHole.sample_float b) (f32.of_Z 1)
     && f32.leb (f32.of_Z (-1)) (BlackHole.sample_float b)
     = negb (b =? - 32768).
Proof.
  intros Hb.
  pose proof (all_int16_spec _ round_trip_check_all b Hb) as H.
  unfold round_trip_check in H. cbv zeta in H.
  apply andb_true_iff in H as [H1 H2].
  apply Z.eqb_eq in H1. apply eqb_prop in H2.
  split; [exact H1 | exact H2].
Qed.

Lemma sample_float_round_trip_witness :
  sample_int16 (BlackHole.sample_float (- 12345)) = - 12345.
Proof.
  exact (proj1 (sample_float_round_trip (- 12345) ltac:(lia))).
Defined.

(** ** The substring test, on an example *)

Lemma contains_spec_witness :
  contains "BlackHole 2ch" "Hole" = true.
Proof.
  apply (proj2 (contains_spec "BlackHole 2ch" "Hole"
                  ltac:(vm_compute; discriminate) ltac:(vm_compute; discriminate))).
  exists (list_ascii_of_string "Black"), (list_ascii_of_string " 2ch").
  reflexivity.
Defined.
